(** * The dataset pipeline of [index.js]: model and verified properties

    A shallow embedding of the module exported by [index.js]: the
    directory helpers ([makeDir], [moveFilesToDir], [recursiveCopy]), the
    schedule resolvers ([getDailyOptions], [getDateRangeOptions]), the four
    stages ([getDataset], [normalize], [load], [archive]), the orchestrator
    ([processDataset]) and the trigger ([scrape]).

    JavaScript objects are finite maps from property names to values, held
    in a heap and reached through references, so that aliasing is visible.
    The file system is a finite map from paths to nodes.  Effects are
    threaded through a state-and-exception monad over a [World]. *)

From Stdlib Require Import ZArith Lia Ascii String.
From stdpp Require Import gmap strings list fin_maps pretty.

Local Open Scope string_scope.
Local Open Scope list_scope.
Local Open Scope Z_scope.

(** ** JavaScript values *)

(** A JavaScript number, restricted to what this program computes with:
    an integer or [NaN].  (Doubles are exact on integers below 2^53; the
    rounding above that bound is not modelled.) *)
Inductive number : Type :=
| Finite (z : Z)
| NaN.

Definition loc : Type := positive.

Inductive value : Type :=
| VUndefined
| VBool (b : bool)
| VNum (n : number)
| VStr (s : string)
| VRef (l : loc).

#[global] Instance number_eq_dec : EqDecision number.
Proof. solve_decision. Defined.

#[global] Instance value_eq_dec : EqDecision value.
Proof. solve_decision. Defined.

(** ToBoolean. *)
Definition truthy (v : value) : bool :=
  match v with
  | VUndefined => false
  | VBool b => b
  | VNum (Finite z) => negb (z =? 0)
  | VNum NaN => false
  | VStr s => negb (String.eqb s "")
  | VRef _ => true
  end.

(** ToString, as used by [+] on a string and by template literals. *)
Definition to_str (v : value) : string :=
  match v with
  | VUndefined => "undefined"
  | VBool true => "true"
  | VBool false => "false"
  | VNum (Finite z) => pretty z
  | VNum NaN => "NaN"
  | VStr s => s
  | VRef _ => "[object Object]"
  end.

(** [a && b] and [a || b] return one of their operands. *)
Definition js_and (a b : value) : value := if truthy a then b else a.
Definition js_or (a b : value) : value := if truthy a then a else b.

Definition js_mul (a b : number) : number :=
  match a, b with
  | Finite x, Finite y => Finite (x * y)
  | _, _ => NaN
  end.

Definition js_add (a b : number) : number :=
  match a, b with
  | Finite x, Finite y => Finite (x + y)
  | _, _ => NaN
  end.

(** [Math.abs]. *)
Definition Math_abs (a : number) : number :=
  match a with
  | Finite x => Finite (Z.abs x)
  | NaN => NaN
  end.

(** [parseInt(v, 10)]: leading white space is skipped, an optional sign is
    read, then the longest run of decimal digits; no digit gives [NaN]. *)
Definition is_space (a : ascii) : bool :=
  let n := nat_of_ascii a in
  ((n =? 32) || (n =? 9) || (n =? 10) || (n =? 11) || (n =? 12) || (n =? 13))%nat.

Definition digit_val (a : ascii) : option Z :=
  let n := Z.of_nat (nat_of_ascii a) in
  if (48 <=? n) && (n <=? 57) then Some (n - 48) else None.

Fixpoint skip_spaces (s : string) : string :=
  match s with
  | String a r => if is_space a then skip_spaces r else s
  | EmptyString => s
  end.

Fixpoint digits_prefix (s : string) (acc : option Z) : option Z :=
  match s with
  | String a r =>
      match digit_val a with
      | Some d => digits_prefix r (Some (10 * default 0 acc + d))
      | None => acc
      end
  | EmptyString => acc
  end.

Definition number_of_digits (o : option Z) (sign : Z) : number :=
  match o with
  | Some z => Finite (sign * z)
  | None => NaN
  end.

Definition parseInt (v : value) : number :=
  match skip_spaces (to_str v) with
  | String "-" r => number_of_digits (digits_prefix r None) (-1)
  | String "+" r => number_of_digits (digits_prefix r None) 1
  | s => number_of_digits (digits_prefix s None) 1
  end.

(** An object is a finite map from property names to values; a property
    that was never set reads as [undefined]. *)
Abbreviation obj := (gmap string value).

Definition get (o : obj) (k : string) : value := default VUndefined (o !! k).

(** ** Dates (the part of [date-fns] the module uses) *)

Record Date : Type := mkDate {
  year : N; month : N; day : N;
  hours : N; minutes : N; seconds : N; millis : N
}.

#[global] Instance Date_eq_dec : EqDecision Date.
Proof. solve_decision. Defined.

Definition startOfDay (d : Date) : Date :=
  mkDate (year d) (month d) (day d) 0 0 0 0.

Definition endOfDay (d : Date) : Date :=
  mkDate (year d) (month d) (day d) 23 59 59 999.

Fixpoint zeros (n : nat) : string :=
  match n with
  | O => ""
  | S n' => String "0" (zeros n')
  end.

Definition addLeadingZeros (n : N) (width : nat) : string :=
  let s := pretty n in
  zeros (width - String.length s) +:+ s.

(** [format(date, pattern)] for the tokens the module uses, [YYYY], [MM]
    and [DD] (year, month and day of the month in the version of the
    library whose patterns these are); any other character is copied. *)
Fixpoint format (d : Date) (pattern : string) : string :=
  match pattern with
  | String "Y" (String "Y" (String "Y" (String "Y" r))) =>
      addLeadingZeros (year d) 4 +:+ format d r
  | String "M" (String "M" r) => addLeadingZeros (month d) 2 +:+ format d r
  | String "D" (String "D" r) => addLeadingZeros (day d) 2 +:+ format d r
  | String a r => String a (format d r)
  | EmptyString => ""
  end.

(** Days since 1970-01-01 of a date of the proleptic Gregorian calendar. *)
Definition days_from_civil (y m d : Z) : Z :=
  let y' := if m <=? 2 then y - 1 else y in
  let era := y' / 400 in
  let yoe := y' - era * 400 in
  let mp := (m + 9) mod 12 in
  let doy := (153 * mp + 2) / 5 + d - 1 in
  let doe := yoe * 365 + yoe / 4 - yoe / 100 + doy in
  era * 146097 + doe - 719468.

(** A date given as the text [YYYY-MM-DD]. *)
Definition parse_iso (s : string) : option (Z * Z * Z) :=
  match s with
  | String y1 (String y2 (String y3 (String y4 (String "-"
      (String m1 (String m2 (String "-" (String d1 (String d2 "")))))))))  =>
      a ← digit_val y1; b ← digit_val y2; c ← digit_val y3; e ← digit_val y4;
      f ← digit_val m1; g ← digit_val m2; h ← digit_val d1; i ← digit_val d2;
      Some (1000 * a + 100 * b + 10 * c + e, 10 * f + g, 10 * h + i)
  | _ => None
  end.

(** [differenceInDays(left, right)] on two such texts: the signed number
    of days from [right] to [left]; [NaN] when one of them is not a
    date. *)
Definition iso_differenceInDays (left right : value) : number :=
  match left, right with
  | VStr l, VStr r =>
      match parse_iso l, parse_iso r with
      | Some (ly, lm, ld), Some (ry, rm, rd) =>
          Finite (days_from_civil ly lm ld - days_from_civil ry rm rd)
      | _, _ => NaN
      end
  | _, _ => NaN
  end.

(** ** The file system *)

Inductive error : Type :=
| Errno (code : string) (path : string)
| TypeError (msg : string)
| Failure (msg : string).

#[global] Instance error_eq_dec : EqDecision error.
Proof. solve_decision. Defined.

(** A path is the list of its components; a node is a regular file with
    its content or a directory.  The root [[]] is always a directory. *)
Abbreviation path := (list string).

Inductive node : Type :=
| File (content : string)
| Dir.

#[global] Instance node_eq_dec : EqDecision node.
Proof. solve_decision. Defined.

Abbreviation FS := (gmap (list string) node).

(** Components of a path text: split at ["/"], empty components dropped
    (so relative and absolute paths are read from the same root). *)
Fixpoint split_go (s cur : string) : path :=
  match s with
  | String a r =>
      if Ascii.eqb a "/"
      then (if String.eqb cur "" then split_go r "" else cur :: split_go r "")
      else split_go r (cur +:+ String a "")
  | EmptyString => if String.eqb cur "" then [] else [cur]
  end.

Definition split_path (s : string) : path := split_go s "".

Definition node_at (fs : FS) (p : path) : option node :=
  match p with
  | [] => Some Dir
  | _ => fs !! p
  end.

Definition parent (p : path) : path := take (length p - 1) p.

Fixpoint strip_prefix (pre p : path) : option path :=
  match pre, p with
  | [], _ => Some p
  | a :: pre', b :: p' => if decide (a = b) then strip_prefix pre' p' else None
  | _ :: _, [] => None
  end.

(** The entries below [p], each with its path relative to [p] ([p] itself
    included, as [[]], when it is an entry). *)
Definition subtree (p : path) (fs : FS) : list (path * node) :=
  omap (λ kn, r ← strip_prefix p kn.1; Some (r, kn.2)) (map_to_list fs).

Definition children (p : path) (fs : FS) : list string :=
  omap (λ rn, match rn.1 with [n] => Some n | _ => None end) (subtree p fs).

(** [mkdirp.sync]: create the directory and its missing ancestors; an
    existing directory is left alone, a regular file in the way is an
    error. *)
Fixpoint mkdirp_go (pre rest : path) (fs : FS) : error + FS :=
  match rest with
  | [] => inr fs
  | c :: rest' =>
      let p := pre ++ [c] in
      match fs !! p with
      | Some (File _) =>
          inl (Errno (match rest' with [] => "EEXIST" | _ => "ENOTDIR" end) c)
      | Some Dir => mkdirp_go p rest' fs
      | None => mkdirp_go p rest' (<[p := Dir]> fs)
      end
  end.

Definition mkdirp (p : path) (fs : FS) : error + FS := mkdirp_go [] p fs.

(** [fs.readdir]: the names of the immediate entries of a directory. *)
Definition readdir (p : path) (fs : FS) : error + list string :=
  match node_at fs p with
  | Some Dir => inr (children p fs)
  | Some (File _) => inl (Errno "ENOTDIR" "")
  | None => inl (Errno "ENOENT" "")
  end.

(** [fs.rename]: a regular file replaces a regular file of the new name;
    a directory moves with everything below it, onto nothing or onto an
    empty directory. *)
Definition rekey (old new k : path) : path :=
  match strip_prefix old k with
  | Some r => new ++ r
  | None => k
  end.

Definition rename (old new : path) (fs : FS) : error + FS :=
  match node_at fs (parent new) with
  | Some Dir =>
      match fs !! old with
      | None => inl (Errno "ENOENT" "")
      | Some (File c) =>
          match fs !! new with
          | Some Dir => inl (Errno "EISDIR" "")
          | _ => inr (<[new := File c]> (delete old fs))
          end
      | Some Dir =>
          if bool_decide (is_Some (strip_prefix old new)) then inl (Errno "EINVAL" "")
          else
            match fs !! new, children new fs with
            | Some (File _), _ => inl (Errno "ENOTDIR" "")
            | Some Dir, _ :: _ => inl (Errno "ENOTEMPTY" "")
            | _, _ =>
                inr (list_to_map (prod_map (rekey old new) id <$> map_to_list fs))
            end
      end
  | _ => inl (Errno "ENOENT" "")
  end.

(** [fs.writeFile]. *)
Definition writeFile (p : path) (content : string) (fs : FS) : error + FS :=
  match p, node_at fs (parent p), fs !! p with
  | [], _, _ => inl (Errno "EISDIR" "")
  | _, Some Dir, Some Dir => inl (Errno "EISDIR" "")
  | _, Some Dir, _ => inr (<[p := File content]> fs)
  | _, _, _ => inl (Errno "ENOENT" "")
  end.

(** A reference implementation of a recursive copy, after what the
    [recursive-copy] package does when no option is given (the module
    gives none): directories are merged, an existing destination file is
    never overwritten (the copy stops with [EEXIST]), the source is only
    read, and the default name filters ([dot] and [junk] both off) leave
    out, without an error, every entry that has on its path below the
    source a name beginning with a dot or a name that the [junk] package
    lists.  The list of junk names depends on the version of that
    package, so the copy takes it as a parameter. *)
Definition dot_name (n : string) : bool :=
  match n with
  | String "." _ => true
  | _ => false
  end.

Definition skipped (junk : string → bool) (r : path) : bool :=
  existsb (λ n, dot_name n || junk n) r.

(** Some of the names of the [junk] package. *)
Definition os_junk (n : string) : bool :=
  bool_decide (n ∈ ["npm-debug.log"; "__MACOSX"; "Thumbs.db"; "ehthumbs.db";
                    "Desktop.ini"]).

Fixpoint copy_entries (dst : path) (es : list (path * node)) (fs : FS)
  : option error * FS :=
  match es with
  | [] => (None, fs)
  | (r, n) :: es' =>
      let target := dst ++ r in
      match n, node_at fs target with
      | Dir, Some (File _) => (Some (Errno "EEXIST" ""), fs)
      | Dir, Some Dir => copy_entries dst es' fs
      | Dir, None => copy_entries dst es' (<[target := Dir]> fs)
      | File _, Some _ => (Some (Errno "EEXIST" ""), fs)
      | File c, None => copy_entries dst es' (<[target := File c]> fs)
      end
  end.

Definition merge_copy (junk : string → bool) (src dst : path) (fs : FS)
  : option error * FS :=
  match node_at fs src with
  | None => (Some (Errno "ENOENT" ""), fs)
  | Some (File c) =>
      match mkdirp (parent dst) fs with
      | inl e => (Some e, fs)
      | inr fs1 => copy_entries dst [([], File c)] fs1
      end
  | Some Dir =>
      match mkdirp dst fs with
      | inl e => (Some e, fs)
      | inr fs1 =>
          copy_entries dst
            (filter (λ e, skipped junk e.1 = false) (subtree src fs)) fs1
      end
  end.

(** ** The world and the monad of effects *)

Inductive level : Type := LDebug | LInfo | LError.

Inductive payload : Type :=
| PStr (s : string)
| PErr (e : error)
| PData (v : value) (snapshot : option obj).

(** What the program does to the outside, in the order it does it: log
    records and the calls it makes to the file system and the network. *)
Inductive event : Type :=
| Log (lv : level) (p : payload)
| MkdirpCall (dir : value)
| ReaddirCall (dir : value)
| RenameCall (old new : string)
| CopyCall (src dst : value)
| DownloadCall (url : value)
| WriteFileCall (name : string)
| PostCall (url : value) (body : value) (snapshot : option obj)
| UnhandledRejection (e : error).

#[global] Instance level_eq_dec : EqDecision level.
Proof. solve_decision. Defined.
#[global] Instance payload_eq_dec : EqDecision payload.
Proof. solve_decision. Defined.
#[global] Instance event_eq_dec : EqDecision event.
Proof. solve_decision. Defined.

(** [w_inflight] holds the asynchronous renames that were started and
    whose promise nobody awaits: each takes effect when the event loop
    gets to it ([settle]), which nothing orders before the rest of the
    program. *)
Record World : Type := mkWorld {
  w_fs : FS;
  w_heap : gmap loc obj;
  w_now : Date;
  w_inflight : list (string * string);
  w_trace : list event
}.

Inductive outcome (A : Type) : Type :=
| Returned (a : A)
| Threw (e : error).
Arguments Returned {A} a.
Arguments Threw {A} e.

Definition M (A : Type) : Type := World → outcome A * World.

Definition ret {A} (a : A) : M A := λ w, (Returned a, w).

Definition bind {A B} (m : M A) (k : A → M B) : M B :=
  λ w, match m w with
       | (Returned a, w') => k a w'
       | (Threw e, w') => (Threw e, w')
       end.

Definition throw {A} (e : error) : M A := λ w, (Threw e, w).

(** [try { m } catch (err) { h err }]. *)
Definition try_catch {A} (m : M A) (h : error → M A) : M A :=
  λ w, match m w with
       | (Returned a, w') => (Returned a, w')
       | (Threw e, w') => h e w'
       end.

Declare Scope M_scope.
Delimit Scope M_scope with M.
Notation "'let*' x := m 'in' k" := (bind m (λ x, k))
  (at level 10, x name, m at level 100, k at level 200, only parsing) : M_scope.
Notation "m ;; k" := (bind m (λ _, k))
  (at level 100, k at level 200, right associativity, only parsing) : M_scope.
Local Open Scope M_scope.

Definition emit (e : event) : M unit :=
  λ w, (Returned tt,
        mkWorld (w_fs w) (w_heap w) (w_now w) (w_inflight w) (w_trace w ++ [e])).

Definition get_fs : M FS := λ w, (Returned (w_fs w), w).

Definition put_fs (fs : FS) : M unit :=
  λ w, (Returned tt, mkWorld fs (w_heap w) (w_now w) (w_inflight w) (w_trace w)).

Definition get_heap : M (gmap loc obj) := λ w, (Returned (w_heap w), w).

Definition put_heap (h : gmap loc obj) : M unit :=
  λ w, (Returned tt, mkWorld (w_fs w) h (w_now w) (w_inflight w) (w_trace w)).

(** [new Date()]. *)
Definition new_Date : M Date := λ w, (Returned (w_now w), w).

Definition startOfToday : M Date := λ w, (Returned (startOfDay (w_now w)), w).
Definition endOfToday : M Date := λ w, (Returned (endOfDay (w_now w)), w).

(** [loglevel]. *)
Definition log_info (s : string) : M unit := emit (Log LInfo (PStr s)).
Definition log_debug (s : string) : M unit := emit (Log LDebug (PStr s)).
Definition log_error (s : string) : M unit := emit (Log LError (PStr s)).
Definition log_error_err (e : error) : M unit := emit (Log LError (PErr e)).

Definition snapshot_of (h : gmap loc obj) (v : value) : option obj :=
  match v with
  | VRef l => h !! l
  | _ => None
  end.

Definition log_data (lv : level) (v : value) : M unit :=
  let* h := get_heap in emit (Log lv (PData v (snapshot_of h v))).

(** [target.key = v]: a write through the reference; on [undefined] it
    throws, on another primitive it is dropped. *)
Definition set_prop (target : value) (key : string) (v : value) : M unit :=
  match target with
  | VRef l =>
      let* h := get_heap in
      match h !! l with
      | Some o => put_heap (<[l := <[key := v]> o]> h)
      | None => throw (TypeError "dangling reference")
      end
  | VUndefined => throw (TypeError "Cannot set property of undefined")
  | _ => ret tt
  end.

(** *** File-system calls *)

Definition lift_fs (r : error + FS) : M unit :=
  match r with
  | inl e => throw e
  | inr fs' => put_fs fs'
  end.

Definition mkdirp_sync (dir : value) : M unit :=
  emit (MkdirpCall dir) ;;
  match dir with
  | VStr s => let* fs := get_fs in lift_fs (mkdirp (split_path s) fs)
  | _ => throw (TypeError "path must be a string")
  end.

(** The promise of a [readdirAsync] that has been issued, as it settles:
    the names, or the error it is rejected with. *)
Definition readdir_settled (dir : value) : M (list string) :=
  match dir with
  | VStr s =>
      let* fs := get_fs in
      match readdir (split_path s) fs with
      | inl e => throw e
      | inr names => ret names
      end
  | _ => throw (TypeError "path must be a string")
  end.

Definition readdirAsync (dir : value) : M (list string) :=
  emit (ReaddirCall dir) ;;
  readdir_settled dir.

(** A call of [renameAsync] whose promise is dropped: the rename is
    started and left in flight. *)
Definition renameAsync_dropped (old new : string) : M unit :=
  emit (RenameCall old new) ;;
  λ w, (Returned tt,
        mkWorld (w_fs w) (w_heap w) (w_now w)
                (w_inflight w ++ [(old, new)]) (w_trace w)).

Definition writeFileAsync (name : string) (data : option string) : M unit :=
  emit (WriteFileCall name) ;;
  match data with
  | Some content =>
      let* fs := get_fs in lift_fs (writeFile (split_path name) content fs)
  | None => throw (TypeError "data must be a string or a buffer")
  end.

(** The event loop completes the renames in flight; one that fails has
    nobody to report to. *)
Definition settle_one (w : World) (r : string * string) : World :=
  match rename (split_path r.1) (split_path r.2) (w_fs w) with
  | inr fs' => mkWorld fs' (w_heap w) (w_now w) (w_inflight w) (w_trace w)
  | inl e =>
      mkWorld (w_fs w) (w_heap w) (w_now w) (w_inflight w)
              (w_trace w ++ [UnhandledRejection e])
  end.

Definition settle (w : World) : World :=
  let w' := foldl settle_one w (w_inflight w) in
  mkWorld (w_fs w') (w_heap w') (w_now w') [] (w_trace w').

(** The event loop completes the [k] oldest of the renames in flight and
    leaves the others in flight. *)
Definition complete (k : nat) (w : World) : World :=
  let w' := foldl settle_one w (take k (w_inflight w)) in
  mkWorld (w_fs w') (w_heap w') (w_now w') (drop k (w_inflight w)) (w_trace w').

(** ** The collaborators the module requires

    The network ([download], [axios.post]) answers a request with a
    result; the normalizer and the loader are arbitrary effectful
    programs; [differenceInDays] is the date library's; [copy] is the
    [recursive-copy] package, as a function on the file system that
    reports an error or none. *)
Record Externals : Type := mkExternals {
  differenceInDays : value → value → number;
  copy : path → path → FS → option error * FS;
  download : value → error + string;
  axios_post : value → value → option obj → option error;
  normalizer_getOptions : obj → M value;
  normalizer_run : value → M unit;
  loader_getOptions : obj → M value;
  loader_run : value → M unit
}.

Section Pipeline.

Variable E : Externals.

(** [promisify(copy)(src, dst)]. *)
Definition copyAsync (src dst : value) : M unit :=
  emit (CopyCall src dst) ;;
  match src, dst with
  | VStr s, VStr d =>
      let* fs := get_fs in
      match copy E (split_path s) (split_path d) fs with
      | (Some e, fs') => put_fs fs' ;; throw e
      | (None, fs') => put_fs fs'
      end
  | _, _ => throw (TypeError "path must be a string")
  end.

(** *** index.js, lines 19-40

    After a download that failed [fileData] is still [undefined], which
    [fs.writeFile] refuses. *)
Definition downloadDataset (datasetUrl : value) (filename : string) : M string :=
  let* fileData :=
    try_catch
      (emit (DownloadCall datasetUrl) ;;
       match download E datasetUrl with
       | inl err => throw err
       | inr bytes => ret (Some bytes)
       end)
      (λ err,
         log_error ("Error downloading from " +:+ to_str datasetUrl) ;;
         log_error_err err ;;
         ret None) in
  try_catch
    (writeFileAsync filename fileData)
    (λ err,
       log_error ("Error writing file " +:+ filename) ;;
       log_error_err err) ;;
  log_debug ("Downloaded to " +:+ filename) ;;
  ret filename.

(** *** index.js, lines 42-50 *)
Definition makeDir (dir : value) : M unit :=
  log_info ("Making directory " +:+ to_str dir) ;;
  try_catch
    (mkdirp_sync dir)
    (λ err,
       log_error ("Error to make dir " +:+ to_str dir) ;;
       log_error_err err).

(** [files.map(filename => { renameAsync(...); })]: the callback has a
    block body and returns nothing, so each rename is started and its
    promise dropped; the array handed to [Promise.all] holds only
    [undefined], and awaiting it waits for no rename. *)
Fixpoint start_renames (src dest : value) (files : list string) : M unit :=
  match files with
  | [] => ret tt
  | filename :: rest =>
      renameAsync_dropped (to_str src +:+ "/" +:+ filename)
                          (to_str dest +:+ "/" +:+ filename) ;;
      start_renames src dest rest
  end.

(** *** index.js, lines 52-66 *)
Definition moveFilesToDir (src dest : value) : M unit :=
  log_info ("Moving files from " +:+ to_str src +:+ " to " +:+ to_str dest) ;;
  try_catch
    (let* files := readdirAsync src in
     start_renames src dest files)
    (λ err,
       log_error ("Error moving files from " +:+ to_str src +:+ " to " +:+ to_str dest) ;;
       log_error_err err).

(** A call of [moveFilesToDir] as it runs next to another one under
    [Promise.all]: the call runs at once as far as its first [await],
    where the record is logged and the read of the directory is issued
    ([moveFilesToDir_issue]); it goes on when the read has settled
    ([moveFilesToDir_resume]).  [moveFilesToDir] is the one after the
    other. *)
Definition moveFilesToDir_issue (src dest : value) : M unit :=
  log_info ("Moving files from " +:+ to_str src +:+ " to " +:+ to_str dest) ;;
  emit (ReaddirCall src).

Definition moveFilesToDir_resume (src dest : value) : M unit :=
  try_catch
    (let* files := readdir_settled src in
     start_renames src dest files)
    (λ err,
       log_error ("Error moving files from " +:+ to_str src +:+ " to " +:+ to_str dest) ;;
       log_error_err err).

(** *** index.js, lines 68-78 *)
Definition recursiveCopy (src dest : value) : M unit :=
  log_info ("Recursively copying files from " +:+ to_str src +:+ " to " +:+ to_str dest) ;;
  try_catch
    (copyAsync src dest)
    (λ err,
       log_error ("Error recursively copying files from " +:+ to_str src
                  +:+ " to " +:+ to_str dest) ;;
       log_error_err err).

(** *** index.js, lines 80-86 *)
Definition getDailyOptions (data : value) (requestsPerDay requestDepthsPerDay : number)
  : M unit :=
  let* s := startOfToday in
  set_prop data "startDate" (VStr (format s "MM/DD/YYYY")) ;;
  let* e := endOfToday in
  set_prop data "endDate" (VStr (format e "MM/DD/YYYY")) ;;
  set_prop data "maxRequestsPerCrawl" (VNum requestsPerDay) ;;
  set_prop data "maxRequestDepth" (VNum requestDepthsPerDay).

(** *** index.js, lines 88-95 *)
Definition numOfDays (startDate endDate : value) : number :=
  js_add (Math_abs (differenceInDays E startDate endDate)) (Finite 1).

Definition getDateRangeOptions (data : value)
    (requestsPerDay requestDepthsPerDay : number) (startDate endDate : value)
  : M unit :=
  set_prop data "startDate" startDate ;;
  set_prop data "endDate" endDate ;;
  let n := numOfDays startDate endDate in
  set_prop data "maxRequestsPerCrawl" (VNum (js_mul requestsPerDay n)) ;;
  set_prop data "maxRequestDepth" (VNum (js_mul requestDepthsPerDay n)).

(** *** index.js, lines 97-104 *)
Definition getDataset (options : obj) : M unit :=
  let rawDataDir := get options "RAW_DATA_DIR" in
  makeDir rawDataDir ;;
  let getDatasetEndpoint := get options "GET_DATASET_ENDPOINT" in
  let dataFilename := to_str rawDataDir +:+ "/" +:+ to_str (get options "DATA_FILE") in
  downloadDataset getDatasetEndpoint dataFilename ;;
  ret tt.

(** *** index.js, lines 106-114 *)
Definition normalize (options : obj) : M unit :=
  let* normalizerOptions := normalizer_getOptions E options in
  normalizer_run E normalizerOptions.

Definition load (options : obj) : M unit :=
  let* loaderOptions := loader_getOptions E options in
  loader_run E loaderOptions.

(** *** index.js, lines 116-145 *)
Definition datedArchivedDir (options : obj) (date : Date) : string :=
  to_str (js_or (get options "ARCHIVED_DIR") (VStr "archived"))
  +:+ "/" +:+ format date "YYYY" +:+ "/" +:+ format date "MM"
  +:+ "/" +:+ format date "DD".

(** The two moves handed to [Promise.all] run side by side: both calls
    are made while the array is built, so both reads are issued before
    either move goes on; each catches its own errors, so the
    [Promise.all] never rejects, and neither writes the file system
    before it returns.  The moves go on here in the order of their
    calls; the renames they start stay in flight, to be completed by the
    event loop ([settle], [complete]). *)
Definition archive (options : obj) : M unit :=
  let downloadDir := get options "DOWNLOAD_DIR" in
  let rawDataDir := get options "RAW_DATA_DIR" in
  let normalizedDataDir := get options "NORMALIZED_DATA_DIR" in
  let* date := new_Date in
  let dated := datedArchivedDir options date in
  let archivedRawDataDir :=
    js_or (get options "ARCHIVED_RAW_DATA_DIR") (VStr (dated +:+ "/raw")) in
  let archivedNormalizedDataDir :=
    js_or (get options "ARCHIVED_NORMALIZED_DATA_DIR") (VStr (dated +:+ "/normalized")) in
  makeDir (VStr dated) ;;
  makeDir archivedRawDataDir ;;
  makeDir archivedNormalizedDataDir ;;
  moveFilesToDir_issue rawDataDir archivedRawDataDir ;;
  moveFilesToDir_issue normalizedDataDir archivedNormalizedDataDir ;;
  moveFilesToDir_resume rawDataDir archivedRawDataDir ;;
  moveFilesToDir_resume normalizedDataDir archivedNormalizedDataDir ;;
  if negb (truthy (get options "SKIP_ARCHIVE_DOWNLOAD")) then
    let archivedDownloadDir :=
      js_or (get options "ARCHIVED_DOWNLOAD_DIR") (VStr (dated +:+ "/download")) in
    makeDir archivedDownloadDir ;;
    recursiveCopy downloadDir archivedDownloadDir
  else ret tt.

(** *** index.js, lines 147-173 *)
Definition post (url body : value) : M unit :=
  let* h := get_heap in
  emit (PostCall url body (snapshot_of h body)) ;;
  match axios_post E url body (snapshot_of h body) with
  | Some err => throw err
  | None => ret tt
  end.

Definition scrape (options config : obj) : M unit :=
  log_info "Input config:" ;;
  log_data LInfo (get config "INPUT") ;;
  let data := get config "INPUT" in
  (if truthy (get options "DRY_RUN") then
     set_prop data "isTestRun" (VBool true) ;;
     set_prop data "logLevel" (VNum (Finite 5))
   else ret tt) ;;
  let requestsPerDay := parseInt (get options "REQUESTS_PER_DAY") in
  let requestDepthsPerDay := parseInt (get options "REQUEST_DEPTHS_PER_DAY") in
  (if truthy (get options "DAILY") then
     getDailyOptions data requestsPerDay requestDepthsPerDay
   else if truthy (js_and (get options "START_DATE") (get options "END_DATE")) then
     getDateRangeOptions data requestsPerDay requestDepthsPerDay
       (get options "START_DATE") (get options "END_DATE")
   else log_error "Invalid command!") ;;
  log_debug "Running Task with options:" ;;
  log_data LDebug data ;;
  post (get options "RUN_TASK_ENDPOINT") data.

(** *** index.js, lines 175-189

    [processDataset_with] is the function over any four stages;
    [processDataset] is it over the module's own. *)
Definition processDataset_with (getDataset' normalize' load' archive' : obj → M unit)
    (options : obj) : M unit :=
  log_info "Processing dataset" ;;
  try_catch
    (getDataset' options ;;
     normalize' options ;;
     load' options ;;
     archive' options)
    (λ err,
       log_error "Error processing dataset" ;;
       log_error_err err) ;;
  log_info "Finish processing dataset".

Definition processDataset : obj → M unit :=
  processDataset_with getDataset normalize load archive.

End Pipeline.

(** ** World updates and expected results *)

Definition with_heap (w : World) (h : gmap loc obj) : World :=
  mkWorld (w_fs w) h (w_now w) (w_inflight w) (w_trace w).

Definition with_fs (w : World) (fs : FS) : World :=
  mkWorld fs (w_heap w) (w_now w) (w_inflight w) (w_trace w).

Definition add_events (w : World) (es : list event) : World :=
  mkWorld (w_fs w) (w_heap w) (w_now w) (w_inflight w) (w_trace w ++ es).

(** What each resolver leaves in the object it is given. *)
Definition daily_overlay (today : Date) (r d : number) (o : obj) : obj :=
  <["maxRequestDepth" := VNum d]>
    (<["maxRequestsPerCrawl" := VNum r]>
       (<["endDate" := VStr (format (endOfDay today) "MM/DD/YYYY")]>
          (<["startDate" := VStr (format (startOfDay today) "MM/DD/YYYY")]> o))).

Definition range_overlay (n : number) (r d : number) (s e : value) (o : obj) : obj :=
  <["maxRequestDepth" := VNum (js_mul d n)]>
    (<["maxRequestsPerCrawl" := VNum (js_mul r n)]>
       (<["endDate" := e]> (<["startDate" := s]> o))).

Definition dry_run_overlay (o : obj) : obj :=
  <["logLevel" := VNum (Finite 5)]> (<["isTestRun" := VBool true]> o).

(** The text [MM/DD/YYYY] of a date. *)
Definition MMDDYYYY (d : Date) : string :=
  addLeadingZeros (month d) 2 +:+ "/" +:+ addLeadingZeros (day d) 2
  +:+ "/" +:+ addLeadingZeros (year d) 4.

Definition schedule_keys : list string :=
  ["startDate"; "endDate"; "maxRequestsPerCrawl"; "maxRequestDepth"].

(** ** Sample data *)

Definition sample_externals : Externals :=
  mkExternals iso_differenceInDays (merge_copy os_junk)
    (λ _, inr "[]") (λ _ _ _, None)
    (λ _, ret VUndefined) (λ _, ret tt)
    (λ _, ret VUndefined) (λ _, ret tt).

(** 7 March 2024, mid-morning. *)
Definition sample_now : Date := mkDate 2024 3 7 10 30 0 0.

Definition sample_template : obj := {[ "startUrls" := VStr "https://example.org" ]}.

Definition sample_config : obj := {[ "INPUT" := VRef 1%positive ]}.

Definition sample_fs : FS :=
  list_to_map
    [ (["raw"], Dir); (["raw"; "data.json"], File "x");
      (["norm"], Dir); (["norm"; "n.json"], File "y");
      (["dl"], Dir); (["dl"; "a"], File "a1");
      (["dl"; "sub"], Dir); (["dl"; "sub"; "b"], File "b1") ].

Definition sample_world : World :=
  mkWorld sample_fs {[ 1%positive := sample_template ]} sample_now [] [].

(** ** What [scrape] is expected to do *)

(** Neither the daily flag nor both dates. *)
Definition misconfigured (options : obj) : bool :=
  negb (truthy (get options "DAILY"))
  && negb (truthy (get options "START_DATE") && truthy (get options "END_DATE")).

(** The template after [scrape]: the dry-run properties when asked for,
    then the schedule of the selected mode, if one is selected. *)
Definition scrape_overlay (E : Externals) (today : Date) (options o : obj) : obj :=
  let o1 := if truthy (get options "DRY_RUN") then dry_run_overlay o else o in
  let r := parseInt (get options "REQUESTS_PER_DAY") in
  let d := parseInt (get options "REQUEST_DEPTHS_PER_DAY") in
  let s := get options "START_DATE" in
  let e := get options "END_DATE" in
  if truthy (get options "DAILY") then daily_overlay today r d o1
  else if truthy s && truthy e then range_overlay (numOfDays E s e) r d s e o1
  else o1.

Definition scrape_events (options : obj) (l : loc) (o o' : obj) : list event :=
  [Log LInfo (PStr "Input config:"); Log LInfo (PData (VRef l) (Some o))]
  ++ (if misconfigured options then [Log LError (PStr "Invalid command!")] else [])
  ++ [Log LDebug (PStr "Running Task with options:");
      Log LDebug (PData (VRef l) (Some o'));
      PostCall (get options "RUN_TASK_ENDPOINT") (VRef l) (Some o')].

Definition post_outcome (E : Externals) (url body : value) (snapshot : option obj)
  : outcome unit :=
  match axios_post E url body snapshot with
  | Some err => Threw err
  | None => Returned tt
  end.

(** A trigger was submitted between two worlds. *)
Definition submits_trigger (w w' : World) : Prop :=
  ∃ url body snapshot,
    PostCall url body snapshot ∈ drop (length (w_trace w)) (w_trace w').

(** Options that select no mode: no daily flag, a start date, no end date. *)
Definition unscheduled_options : obj :=
  list_to_map
    [ ("RUN_TASK_ENDPOINT", VStr "https://api.example.org/run");
      ("REQUESTS_PER_DAY", VStr "100");
      ("REQUEST_DEPTHS_PER_DAY", VStr "3");
      ("START_DATE", VStr "2024-01-01") ].

(** Options that set the daily flag and give both dates. *)
Definition ambiguous_options : obj :=
  list_to_map
    [ ("RUN_TASK_ENDPOINT", VStr "https://api.example.org/run");
      ("REQUESTS_PER_DAY", VStr "100");
      ("REQUEST_DEPTHS_PER_DAY", VStr "3");
      ("DAILY", VBool true);
      ("DRY_RUN", VBool true);
      ("START_DATE", VStr "2024-01-01");
      ("END_DATE", VStr "2024-01-05") ].

(** ** What the directory helpers are expected to do *)

(** The renames [moveFilesToDir] starts for the names it has read. *)
Definition rename_pairs (src dest : value) (files : list string)
  : list (string * string) :=
  (λ f, (to_str src +:+ "/" +:+ f, to_str dest +:+ "/" +:+ f)) <$> files.

Definition rename_calls (src dest : value) (files : list string) : list event :=
  (λ p, RenameCall p.1 p.2) <$> rename_pairs src dest files.

(** The names [readdirAsync] answers with, or the error it throws. *)
Definition readdir_value (dir : value) (fs : FS) : error + list string :=
  match dir with
  | VStr s => readdir (split_path s) fs
  | _ => inl (TypeError "path must be a string")
  end.

(** A raw-data directory with one file, and the directory to move it to. *)
Definition move_fs : FS :=
  list_to_map
    [ (["raw"], Dir); (["raw"; "data.json"], File "x");
      (["archived"], Dir); (["archived"; "raw"], Dir) ].

Definition move_world : World := mkWorld move_fs ∅ sample_now [] [].

(** The same raw-data directory, the destination missing. *)
Definition move_world_no_dest : World :=
  mkWorld (list_to_map [ (["raw"], Dir); (["raw"; "data.json"], File "x") ])
          ∅ sample_now [] [].

(** What [mkdirp.sync] does of a value: a path text is split and made,
    anything else is refused. *)
Definition mkdirp_value (dir : value) (fs : FS) : error + FS :=
  match dir with
  | VStr s => mkdirp (split_path s) fs
  | _ => inl (TypeError "path must be a string")
  end.

(** A directory tree in which [blocked] is a regular file. *)
Definition blocked_world : World :=
  mkWorld (list_to_map [ (["blocked"], File "not a directory") ]) ∅ sample_now [] [].

(** The calls among the events, log records left out. *)
Definition is_call (e : event) : bool :=
  match e with
  | Log _ _ => false
  | _ => true
  end.

Fixpoint calls (t : list event) : list event :=
  match t with
  | [] => []
  | e :: t' => if is_call e then e :: calls t' else calls t'
  end.

(** [m], run from [w], returns normally in [w'] after making the calls
    [cs], in that order. *)
Definition performs (m : M unit) (w : World) (cs : list event) (w' : World) : Prop :=
  m w = (Returned tt, w')
  ∧ ∃ new, w_trace w' = w_trace w ++ new ∧ calls new = cs.

(** What [copyAsync] does of two values. *)
Definition copy_value (E : Externals) (src dest : value) (fs : FS)
  : option error * FS :=
  match src, dest with
  | VStr s, VStr d => copy E (split_path s) (split_path d) fs
  | _, _ => (Some (TypeError "path must be a string"), fs)
  end.

(** Neither path lies at or below the other. *)
Definition apart (p q : path) : Prop :=
  strip_prefix p q = None ∧ strip_prefix q p = None.

(** A download directory and an archive that already holds a file of the
    same name with other content. *)
Definition conflict_fs : FS :=
  list_to_map
    [ (["dl"], Dir); (["dl"; "a"], File "new");
      (["kept"], Dir); (["kept"; "a"], File "old") ].

Definition conflict_world : World := mkWorld conflict_fs ∅ sample_now [] [].

(** A download directory that holds a file whose name begins with a dot. *)
Definition hidden_world : World :=
  mkWorld
    (list_to_map
       [ (["dl"], Dir); (["dl"; "a"], File "a1"); (["dl"; ".cache"], File "c1") ])
    ∅ sample_now [] [].

(** The names [moveFilesToDir] gets to work on. *)
Definition names_read (dir : value) (fs : FS) : list string :=
  match readdir_value dir fs with
  | inr names => names
  | inl _ => []
  end.

(** [q] lies apart from the directory a value names. *)
Definition clear_of (q : path) (dir : value) : Prop :=
  ∀ s, dir = VStr s → apart q (split_path s).

(** The directories [archive] works on, and the calls it is expected to
    make, given the names it reads in the two working directories. *)
Definition archivedRawDataDir (options : obj) (date : Date) : value :=
  js_or (get options "ARCHIVED_RAW_DATA_DIR")
        (VStr (datedArchivedDir options date +:+ "/raw")).

Definition archivedNormalizedDataDir (options : obj) (date : Date) : value :=
  js_or (get options "ARCHIVED_NORMALIZED_DATA_DIR")
        (VStr (datedArchivedDir options date +:+ "/normalized")).

Definition archivedDownloadDir (options : obj) (date : Date) : value :=
  js_or (get options "ARCHIVED_DOWNLOAD_DIR")
        (VStr (datedArchivedDir options date +:+ "/download")).

Definition archive_calls (options : obj) (date : Date)
    (raw_files norm_files : list string) : list event :=
  [ MkdirpCall (VStr (datedArchivedDir options date));
    MkdirpCall (archivedRawDataDir options date);
    MkdirpCall (archivedNormalizedDataDir options date);
    ReaddirCall (get options "RAW_DATA_DIR");
    ReaddirCall (get options "NORMALIZED_DATA_DIR") ]
  ++ rename_calls (get options "RAW_DATA_DIR") (archivedRawDataDir options date) raw_files
  ++ rename_calls (get options "NORMALIZED_DATA_DIR")
       (archivedNormalizedDataDir options date) norm_files
  ++ (if truthy (get options "SKIP_ARCHIVE_DOWNLOAD") then []
      else [ MkdirpCall (archivedDownloadDir options date);
             CopyCall (get options "DOWNLOAD_DIR") (archivedDownloadDir options date) ]).

(** Options for a run of [archive] with the default archive root and no
    directory overridden. *)
Definition archive_options : obj :=
  list_to_map
    [ ("RAW_DATA_DIR", VStr "raw"); ("NORMALIZED_DATA_DIR", VStr "norm");
      ("DOWNLOAD_DIR", VStr "dl"); ("ARCHIVED_DIR", VStr "archived") ].

(** What is expected of [archive] on 7 March 2024 under the archive root
    [archived], no directory overridden: the directories it makes first,
    and the calls of the download step. *)
Definition dated_archive_dirs : list event :=
  [ MkdirpCall (VStr "archived/2024/03/07");
    MkdirpCall (VStr "archived/2024/03/07/raw");
    MkdirpCall (VStr "archived/2024/03/07/normalized") ].

Definition dated_archive_download (options : obj) : list event :=
  if truthy (get options "SKIP_ARCHIVE_DOWNLOAD") then []
  else [ MkdirpCall (VStr "archived/2024/03/07/download");
         CopyCall (get options "DOWNLOAD_DIR")
           (VStr "archived/2024/03/07/download") ].

(** ** What the acquisition is expected to do *)

(** What [writeFileAsync] does of the data it is given. *)
Definition write_value (name : string) (data : option string) (fs : FS) : error + FS :=
  match data with
  | Some content => writeFile (split_path name) content fs
  | None => inl (TypeError "data must be a string or a buffer")
  end.

(** The data a download leaves in [fileData], and the events of the
    download step. *)
Definition downloaded (E : Externals) (url : value) : option string :=
  match download E url with
  | inr bytes => Some bytes
  | inl _ => None
  end.

Definition download_events (E : Externals) (url : value) : list event :=
  match download E url with
  | inr _ => [DownloadCall url]
  | inl err =>
      [ DownloadCall url;
        Log LError (PStr ("Error downloading from " +:+ to_str url));
        Log LError (PErr err) ]
  end.

(** A name of one component, as a directory listing gives them. *)
Definition plain_name (n : string) : Prop := split_path n = [n].

(** Externals whose download fails. *)
Definition offline_externals : Externals :=
  mkExternals iso_differenceInDays (merge_copy os_junk)
    (λ _, inl (Failure "getaddrinfo ENOTFOUND")) (λ _ _ _, None)
    (λ _, ret VUndefined) (λ _, ret tt)
    (λ _, ret VUndefined) (λ _, ret tt).

(** Options of an acquisition. *)
Definition dataset_options : obj :=
  list_to_map
    [ ("RAW_DATA_DIR", VStr "work/raw"); ("DATA_FILE", VStr "data.json");
      ("GET_DATASET_ENDPOINT", VStr "https://api.example.org/dataset") ].

Definition failing_normalizer_externals : Externals :=
  mkExternals iso_differenceInDays (merge_copy os_junk)
    (λ _, inr "[]") (λ _ _ _, None)
    (λ _, ret VUndefined) (λ _, throw (Failure "normalizer failed"))
    (λ _, ret VUndefined) (λ _, ret tt).

Definition unreachable_externals : Externals :=
  mkExternals iso_differenceInDays (merge_copy os_junk)
    (λ _, inr "[]") (λ _ _ _, Some (Failure "connect ECONNREFUSED"))
    (λ _, ret VUndefined) (λ _, ret tt)
    (λ _, ret VUndefined) (λ _, ret tt).

(** Options that override the three archive subdirectories. *)
Definition override_options : obj :=
  list_to_map
    [ ("RAW_DATA_DIR", VStr "raw"); ("NORMALIZED_DATA_DIR", VStr "norm");
      ("DOWNLOAD_DIR", VStr "dl");
      ("ARCHIVED_RAW_DATA_DIR", VStr "keep/raw");
      ("ARCHIVED_NORMALIZED_DATA_DIR", VStr "keep/normalized");
      ("ARCHIVED_DOWNLOAD_DIR", VStr "keep/download") ].

(** ** The archive of 7 March 2024 *)

(** The directories of that day under the archive root [archived]. *)
Definition dated : path := ["archived"; "2024"; "03"; "07"].
Definition dated_raw : path := ["archived"; "2024"; "03"; "07"; "raw"].
Definition dated_normalized : path := ["archived"; "2024"; "03"; "07"; "normalized"].
Definition dated_download : path := ["archived"; "2024"; "03"; "07"; "download"].

(** The directories [archive] makes that day, and those above them. *)
Definition dated_dirs : list path :=
  [ ["archived"]; ["archived"; "2024"]; ["archived"; "2024"; "03"]; dated;
    dated_raw; dated_normalized; dated_download ].

(** What [archive] leaves in the log and among the calls that day, as
    far as the two moves and in the download step, when no step fails. *)
Definition dated_moves_trace (raw norm : string) (raws norms : list string)
  : list event :=
  [ Log LInfo (PStr "Making directory archived/2024/03/07");
    MkdirpCall (VStr "archived/2024/03/07");
    Log LInfo (PStr "Making directory archived/2024/03/07/raw");
    MkdirpCall (VStr "archived/2024/03/07/raw");
    Log LInfo (PStr "Making directory archived/2024/03/07/normalized");
    MkdirpCall (VStr "archived/2024/03/07/normalized");
    Log LInfo (PStr ("Moving files from " +:+ raw
                     +:+ " to archived/2024/03/07/raw"));
    ReaddirCall (VStr raw);
    Log LInfo (PStr ("Moving files from " +:+ norm
                     +:+ " to archived/2024/03/07/normalized"));
    ReaddirCall (VStr norm) ]
  ++ rename_calls (VStr raw) (VStr "archived/2024/03/07/raw") raws
  ++ rename_calls (VStr norm) (VStr "archived/2024/03/07/normalized") norms.

Definition dated_download_trace (dl : string) : list event :=
  [ Log LInfo (PStr "Making directory archived/2024/03/07/download");
    MkdirpCall (VStr "archived/2024/03/07/download");
    Log LInfo (PStr ("Recursively copying files from " +:+ dl
                     +:+ " to archived/2024/03/07/download"));
    CopyCall (VStr dl) (VStr "archived/2024/03/07/download") ].

(** A path outside the archive root. *)
Definition outside_archive (p : path) : Prop :=
  match p with
  | [] => False
  | c :: _ => c ≠ "archived"
  end.

(** [archive] in two parts: as far as the two moves, and the download
    step that follows them. *)
Definition archive_moves (options : obj) (date : Date) : M unit :=
  makeDir (VStr (datedArchivedDir options date)) ;;
  makeDir (archivedRawDataDir options date) ;;
  makeDir (archivedNormalizedDataDir options date) ;;
  moveFilesToDir_issue (get options "RAW_DATA_DIR") (archivedRawDataDir options date) ;;
  moveFilesToDir_issue (get options "NORMALIZED_DATA_DIR")
    (archivedNormalizedDataDir options date) ;;
  moveFilesToDir_resume (get options "RAW_DATA_DIR") (archivedRawDataDir options date) ;;
  moveFilesToDir_resume (get options "NORMALIZED_DATA_DIR")
    (archivedNormalizedDataDir options date).

Definition archive_download (E : Externals) (options : obj) (date : Date) : M unit :=
  if negb (truthy (get options "SKIP_ARCHIVE_DOWNLOAD")) then
    makeDir (archivedDownloadDir options date) ;;
    recursiveCopy E (get options "DOWNLOAD_DIR") (archivedDownloadDir options date)
  else ret tt.

(** A run of [archive] with the event loop at work while the download
    step is awaited: the [k] oldest of the renames that the moves have
    started complete before the download step, the others after it.
    With [k = 0] this is [archive] followed by [settle]. *)
Definition archive_completing (E : Externals) (k : nat) (options : obj) (w : World)
  : World :=
  settle
    (archive_download E options (w_now w)
       (complete k (archive_moves options (w_now w) w).2)).2.

(** How far the archive of the day has got, against the file system [fs]
    that the run started from: [Mr] and [Mn] are the names of the raw
    and normalized files whose rename has completed; [cp] tells whether
    the download step has run. *)
Record archived_so_far (junk : string → bool) (fs : FS) (R N L : path)
    (Mr Mn : list string) (cp : bool) (fx : FS) : Prop := mk_archived_so_far {
  so_far_raw : ∀ n c,
    fs !! (R ++ [n]) = Some (File c) →
    (n ∈ Mr →
     fx !! (R ++ [n]) = None ∧ fx !! (dated_raw ++ [n]) = Some (File c))
    ∧ (n ∉ Mr →
       fx !! (R ++ [n]) = Some (File c) ∧ fx !! (dated_raw ++ [n]) ≠ Some Dir);
  so_far_normalized : ∀ n c,
    fs !! (N ++ [n]) = Some (File c) →
    (n ∈ Mn →
     fx !! (N ++ [n]) = None ∧ fx !! (dated_normalized ++ [n]) = Some (File c))
    ∧ (n ∉ Mn →
       fx !! (N ++ [n]) = Some (File c)
       ∧ fx !! (dated_normalized ++ [n]) ≠ Some Dir);
  so_far_dirs :
    fx !! dated = Some Dir ∧ fx !! dated_raw = Some Dir
    ∧ fx !! dated_normalized = Some Dir;
  so_far_clear : ∀ i c, fx !! take (S i) dated_download ≠ Some (File c);
  so_far_source : ∀ t, fx !! (L ++ t) = fs !! (L ++ t);
  so_far_download :
    if cp then
      fx !! dated_download = Some Dir
      ∧ ∀ r, r ≠ [] →
          fx !! (dated_download ++ r)
          = if skipped junk r then None else fs !! (L ++ r)
    else ∀ t, fx !! (dated_download ++ t) = fs !! (dated_download ++ t);
  so_far_frame : ∀ q,
    outside_archive q → (∀ n, q ≠ R ++ [n]) → (∀ n, q ≠ N ++ [n]) →
    fx !! q = fs !! q
}.

(** * Properties *)

(** ** Running the monad *)

Lemma emit_spec e w : emit e w = (Returned tt, add_events w [e]).
Proof. reflexivity. Qed.

Lemma bind_returned {A B} (m : M A) (k : A → M B) w a w' :
  m w = (Returned a, w') → bind m k w = k a w'.
Proof. intros H. unfold bind. by rewrite H. Qed.

Lemma get_insert_eq (o : obj) k v : get (<[k := v]> o) k = v.
Proof. unfold get. by rewrite lookup_insert_eq. Qed.

Lemma get_insert_ne (o : obj) k k' v : k ≠ k' → get (<[k := v]> o) k' = get o k'.
Proof. intros H. unfold get. by rewrite lookup_insert_ne. Qed.

(** ** The schedule resolvers *)

Lemma not_schedule_key (k k' : string) :
  k ∈ schedule_keys → k' ∉ schedule_keys → k ≠ k'.
Proof. intros Hk Hk' ->. by apply Hk'. Qed.


Lemma set_prop_ref l o k v w :
  w_heap w !! l = Some o →
  set_prop (VRef l) k v w = (Returned tt, with_heap w (<[l := <[k := v]> o]> (w_heap w))).
Proof.
  intros H. unfold set_prop, bind, get_heap, put_heap, with_heap. simpl. by rewrite H.
Qed.

(** Runs the monadic plumbing of a goal. *)
Ltac run_M :=
  repeat (unfold bind, ret, throw, try_catch, log_info, log_debug, log_error,
            log_error_err, log_data, post, post_outcome, emit, get_heap, put_heap,
            get_fs, put_fs, with_heap, with_fs, add_events, snapshot_of; simpl).

Ltac step_set_prop :=
  erewrite (bind_returned (set_prop _ _ _));
  [ | apply set_prop_ref; simpl; first [ eassumption | apply lookup_insert_eq ] ].

Lemma getDailyOptions_ref l o r d w :
  w_heap w !! l = Some o →
  getDailyOptions (VRef l) r d w
  = (Returned tt, with_heap w (<[l := daily_overlay (w_now w) r d o]> (w_heap w))).
Proof.
  intros H. unfold getDailyOptions.
  rewrite (bind_returned startOfToday _ w (startOfDay (w_now w)) w) by reflexivity.
  step_set_prop.
  erewrite (bind_returned endOfToday) by reflexivity.
  step_set_prop. step_set_prop.
  erewrite set_prop_ref by (simpl; apply lookup_insert_eq).
  simpl. unfold with_heap, daily_overlay. simpl.
  by rewrite !insert_insert_eq.
Qed.

Lemma getDateRangeOptions_ref E l o r d s e w :
  w_heap w !! l = Some o →
  getDateRangeOptions E (VRef l) r d s e w
  = (Returned tt,
     with_heap w (<[l := range_overlay (numOfDays E s e) r d s e o]> (w_heap w))).
Proof.
  intros H. unfold getDateRangeOptions.
  step_set_prop. step_set_prop. step_set_prop.
  erewrite set_prop_ref by (simpl; apply lookup_insert_eq).
  simpl. unfold with_heap, range_overlay. simpl.
  by rewrite !insert_insert_eq.
Qed.

Lemma string_app_nil_r (s : string) : s +:+ "" = s.
Proof.
  induction s as [|a s IH]; [reflexivity|].
  change (String a (s +:+ "") = String a s). by rewrite IH.
Qed.

Lemma format_MMDDYYYY d :
  format d "MM/DD/YYYY"
  = addLeadingZeros (month d) 2 +:+ "/" +:+ addLeadingZeros (day d) 2
    +:+ "/" +:+ addLeadingZeros (year d) 4.
Proof.
  rewrite <- (string_app_nil_r (addLeadingZeros (year d) 4)). reflexivity.
Qed.

Lemma format_startOfDay d :
  format (startOfDay d) "MM/DD/YYYY" = format d "MM/DD/YYYY".
Proof. reflexivity. Qed.

Lemma format_endOfDay d :
  format (endOfDay d) "MM/DD/YYYY" = format d "MM/DD/YYYY".
Proof. reflexivity. Qed.

(** C3. In daily mode, whatever the two budgets and the current date, the
    resolver writes as [startDate] the start of the current day and as
    [endDate] the end of the current day, both as [MM/DD/YYYY] text, and
    as [maxRequestsPerCrawl] and [maxRequestDepth] the two budgets
    themselves, with no multiplication; no other property changes. *)
Theorem getDailyOptions_today (w : World) (l : loc) (o : obj) (r d : number) :
  w_heap w !! l = Some o →
  ∃ o' : obj,
    getDailyOptions (VRef l) r d w
    = (Returned tt, with_heap w (<[l := o']> (w_heap w)))
    ∧ get o' "startDate" = VStr (format (startOfDay (w_now w)) "MM/DD/YYYY")
    ∧ get o' "endDate" = VStr (format (endOfDay (w_now w)) "MM/DD/YYYY")
    ∧ format (startOfDay (w_now w)) "MM/DD/YYYY" = MMDDYYYY (w_now w)
    ∧ format (endOfDay (w_now w)) "MM/DD/YYYY" = MMDDYYYY (w_now w)
    ∧ get o' "maxRequestsPerCrawl" = VNum r
    ∧ get o' "maxRequestDepth" = VNum d
    ∧ (∀ k, k ∉ schedule_keys → get o' k = get o k).
Proof.
  intros H. exists (daily_overlay (w_now w) r d o).
  split; [by apply getDailyOptions_ref|].
  unfold daily_overlay.
  repeat split.
  - by rewrite !get_insert_ne, get_insert_eq by done.
  - by rewrite !get_insert_ne, get_insert_eq by done.
  - rewrite format_startOfDay. apply format_MMDDYYYY.
  - rewrite format_endOfDay. apply format_MMDDYYYY.
  - by rewrite !get_insert_ne, get_insert_eq by done.
  - by rewrite get_insert_eq.
  - intros k Hk.
    rewrite !get_insert_ne;
      [done | apply not_schedule_key; [apply (bool_decide_unpack _); by vm_compute | done]..].
Qed.

Lemma getDailyOptions_today_witness :
  ∃ o' : obj,
    getDailyOptions (VRef 1%positive) (Finite 100) (Finite 3) sample_world
    = (Returned tt,
       with_heap sample_world (<[1%positive := o']> (w_heap sample_world)))
    ∧ get o' "startDate" = VStr (format (startOfDay sample_now) "MM/DD/YYYY")
    ∧ get o' "endDate" = VStr (format (endOfDay sample_now) "MM/DD/YYYY")
    ∧ format (startOfDay sample_now) "MM/DD/YYYY" = MMDDYYYY sample_now
    ∧ format (endOfDay sample_now) "MM/DD/YYYY" = MMDDYYYY sample_now
    ∧ get o' "maxRequestsPerCrawl" = VNum (Finite 100)
    ∧ get o' "maxRequestDepth" = VNum (Finite 3)
    ∧ (∀ k, k ∉ schedule_keys → get o' k = get sample_template k).
Proof.
  apply (getDailyOptions_today sample_world 1%positive sample_template).
  vm_compute. reflexivity.
Defined.

(** The day of the sample world reads [03/07/2024]. *)
Example MMDDYYYY_sample : MMDDYYYY sample_now = "03/07/2024".
Proof. vm_compute. reflexivity. Qed.

(** ** The calendar *)

Example days_from_civil_epoch : days_from_civil 1970 1 1 = 0.
Proof. reflexivity. Qed.

Example days_from_civil_leap :
  days_from_civil 2024 3 1 - days_from_civil 2024 2 28 = 2
  ∧ days_from_civil 2023 3 1 - days_from_civil 2023 2 28 = 1
  ∧ days_from_civil 2025 1 1 - days_from_civil 2024 1 1 = 366.
Proof. by vm_compute. Qed.

Lemma numOfDays_iso (E : Externals) (ss es : string) (sy sm sd ey em ed : Z) :
  differenceInDays E = iso_differenceInDays →
  parse_iso ss = Some (sy, sm, sd) →
  parse_iso es = Some (ey, em, ed) →
  numOfDays E (VStr ss) (VStr es)
  = Finite (Z.abs (days_from_civil ey em ed - days_from_civil sy sm sd) + 1).
Proof.
  intros HE Hs He. unfold numOfDays. rewrite HE. unfold iso_differenceInDays.
  rewrite Hs, He. simpl. f_equal. lia.
Qed.

(** C2. In date-range mode, whatever the budgets and the two dates, the
    resolver writes the caller's [startDate] and [endDate] unchanged,
    takes as number of days the absolute value of [differenceInDays] of
    the two dates plus one (for calendar dates: the absolute difference of
    their day numbers plus one), and writes as [maxRequestsPerCrawl] and
    [maxRequestDepth] the two budgets multiplied by it; no other property
    changes. *)
Theorem getDateRangeOptions_scaled
    (E : Externals) (w : World) (l : loc) (o : obj) (r d : number) (s e : value) :
  w_heap w !! l = Some o →
  ∃ o' : obj,
    getDateRangeOptions E (VRef l) r d s e w
    = (Returned tt, with_heap w (<[l := o']> (w_heap w)))
    ∧ get o' "startDate" = s
    ∧ get o' "endDate" = e
    ∧ numOfDays E s e = js_add (Math_abs (differenceInDays E s e)) (Finite 1)
    ∧ get o' "maxRequestsPerCrawl" = VNum (js_mul r (numOfDays E s e))
    ∧ get o' "maxRequestDepth" = VNum (js_mul d (numOfDays E s e))
    ∧ (∀ k, k ∉ schedule_keys → get o' k = get o k)
    ∧ (∀ ss es sy sm sd ey em ed,
         differenceInDays E = iso_differenceInDays →
         s = VStr ss → e = VStr es →
         parse_iso ss = Some (sy, sm, sd) →
         parse_iso es = Some (ey, em, ed) →
         numOfDays E s e
         = Finite (Z.abs (days_from_civil ey em ed - days_from_civil sy sm sd) + 1)).
Proof.
  intros H. exists (range_overlay (numOfDays E s e) r d s e o).
  split; [by apply getDateRangeOptions_ref|].
  unfold range_overlay.
  repeat split.
  - by rewrite !get_insert_ne, get_insert_eq by done.
  - by rewrite !get_insert_ne, get_insert_eq by done.
  - by rewrite !get_insert_ne, get_insert_eq by done.
  - by rewrite get_insert_eq.
  - intros k Hk.
    rewrite !get_insert_ne;
      [done | apply not_schedule_key; [apply (bool_decide_unpack _); by vm_compute | done]..].
  - intros ss es sy sm sd ey em ed HE -> -> Hs He. by apply numOfDays_iso.
Qed.

Lemma getDateRangeOptions_scaled_witness :
  ∃ o' : obj,
    getDateRangeOptions sample_externals (VRef 1%positive) (Finite 10) (Finite 2)
      (VStr "2024-01-01") (VStr "2024-01-05") sample_world
    = (Returned tt,
       with_heap sample_world (<[1%positive := o']> (w_heap sample_world)))
    ∧ get o' "startDate" = VStr "2024-01-01"
    ∧ get o' "endDate" = VStr "2024-01-05"
    ∧ get o' "maxRequestsPerCrawl" = VNum (Finite 50)
    ∧ get o' "maxRequestDepth" = VNum (Finite 10).
Proof.
  destruct (getDateRangeOptions_scaled sample_externals sample_world 1%positive
              sample_template (Finite 10) (Finite 2)
              (VStr "2024-01-01") (VStr "2024-01-05"))
    as (o' & Hrun & Hs & He & _ & Hr & Hd & _).
  - vm_compute. reflexivity.
  - exists o'. repeat split; assumption.
Defined.

(** The scenario of a five-day window. *)
Example numOfDays_five_days :
  numOfDays sample_externals (VStr "2024-01-01") (VStr "2024-01-05") = Finite 5.
Proof. vm_compute. reflexivity. Qed.

(** ** The trigger *)

Lemma truthy_js_and a b : truthy (js_and a b) = truthy a && truthy b.
Proof. unfold js_and. destruct (truthy a) eqn:Ha; simpl; [done | by rewrite Ha]. Qed.

Lemma dry_run_ref (b : bool) l o w :
  w_heap w !! l = Some o →
  (if b then
     set_prop (VRef l) "isTestRun" (VBool true) ;;
     set_prop (VRef l) "logLevel" (VNum (Finite 5))
   else ret tt) w
  = (Returned tt,
     with_heap w (<[l := if b then dry_run_overlay o else o]> (w_heap w))).
Proof.
  intros H. destruct b.
  - step_set_prop. erewrite set_prop_ref by (simpl; apply lookup_insert_eq).
    unfold with_heap, dry_run_overlay. simpl. by rewrite insert_insert_eq.
  - unfold ret, with_heap. rewrite insert_id by done. by destruct w.
Qed.

Lemma scrape_ref (E : Externals) (options config : obj) (w : World) (l : loc) (o : obj) :
  get config "INPUT" = VRef l →
  w_heap w !! l = Some o →
  let o' := scrape_overlay E (w_now w) options o in
  scrape E options config w
  = (post_outcome E (get options "RUN_TASK_ENDPOINT") (VRef l) (Some o'),
     add_events (with_heap w (<[l := o']> (w_heap w))) (scrape_events options l o o')).
Proof.
  intros Hin Hl o'. subst o'.
  unfold scrape, scrape_overlay, scrape_events, misconfigured. rewrite Hin.
  rewrite truthy_js_and.
  erewrite (bind_returned (log_info _)) by apply emit_spec.
  erewrite (bind_returned (log_data _ _)) by reflexivity.
  erewrite (bind_returned (if truthy (get options "DRY_RUN") then _ else _))
    by (apply dry_run_ref; simpl; exact Hl).
  set (o1 := if truthy (get options "DRY_RUN") then dry_run_overlay o else o).
  set (r := parseInt (get options "REQUESTS_PER_DAY")).
  set (d := parseInt (get options "REQUEST_DEPTHS_PER_DAY")).
  destruct (truthy (get options "DAILY")) eqn:Hd; simpl negb; simpl andb.
  - erewrite (bind_returned (getDailyOptions _ _ _))
      by (apply getDailyOptions_ref; simpl; apply lookup_insert_eq).
    run_M. rewrite !lookup_insert_eq, !insert_insert_eq.
    destruct (axios_post E _ _ _); simpl; by rewrite Hl, <- !app_assoc.
  - destruct (truthy (get options "START_DATE") && truthy (get options "END_DATE")) eqn:Hse;
      simpl negb.
    + erewrite (bind_returned (getDateRangeOptions _ _ _ _ _ _))
        by (apply getDateRangeOptions_ref; simpl; apply lookup_insert_eq).
      run_M. rewrite !lookup_insert_eq, !insert_insert_eq.
      destruct (axios_post E _ _ _); simpl; by rewrite Hl, <- !app_assoc.
    + run_M. rewrite !lookup_insert_eq.
      destruct (axios_post E _ _ _); simpl; by rewrite Hl, <- !app_assoc.
Qed.

Lemma scrape_overlay_misconfigured E today options o :
  misconfigured options = true →
  scrape_overlay E today options o
  = if truthy (get options "DRY_RUN") then dry_run_overlay o else o.
Proof.
  unfold misconfigured, scrape_overlay. intros H.
  destruct (truthy (get options "DAILY")); [done|].
  by destruct (truthy (get options "START_DATE") && truthy (get options "END_DATE")).
Qed.

Lemma scrape_overlay_daily E today options o :
  truthy (get options "DAILY") = true →
  scrape_overlay E today options o
  = daily_overlay today (parseInt (get options "REQUESTS_PER_DAY"))
      (parseInt (get options "REQUEST_DEPTHS_PER_DAY"))
      (if truthy (get options "DRY_RUN") then dry_run_overlay o else o).
Proof. unfold scrape_overlay. by intros ->. Qed.

Lemma scrape_overlay_range E today options o :
  truthy (get options "DAILY") = false →
  truthy (get options "START_DATE") = true →
  truthy (get options "END_DATE") = true →
  scrape_overlay E today options o
  = range_overlay (numOfDays E (get options "START_DATE") (get options "END_DATE"))
      (parseInt (get options "REQUESTS_PER_DAY"))
      (parseInt (get options "REQUEST_DEPTHS_PER_DAY"))
      (get options "START_DATE") (get options "END_DATE")
      (if truthy (get options "DRY_RUN") then dry_run_overlay o else o).
Proof. unfold scrape_overlay. by intros -> -> ->. Qed.

(** C1, as the code has it. When neither the daily flag nor both dates are
    supplied, [scrape] logs the error [Invalid command!], writes none of
    the four schedule properties (no default schedule is picked), and
    still submits the trigger, with the template as it stands; it ends as
    the submission ends. *)
Theorem scrape_misconfigured_logs_and_submits
    (E : Externals) (options config : obj) (w : World) (l : loc) (o : obj) :
  misconfigured options = true →
  get config "INPUT" = VRef l →
  w_heap w !! l = Some o →
  ∃ o' : obj,
    scrape E options config w
    = (post_outcome E (get options "RUN_TASK_ENDPOINT") (VRef l) (Some o'),
       add_events (with_heap w (<[l := o']> (w_heap w)))
         [ Log LInfo (PStr "Input config:");
           Log LInfo (PData (VRef l) (Some o));
           Log LError (PStr "Invalid command!");
           Log LDebug (PStr "Running Task with options:");
           Log LDebug (PData (VRef l) (Some o'));
           PostCall (get options "RUN_TASK_ENDPOINT") (VRef l) (Some o') ])
    ∧ (∀ k, k ∈ schedule_keys → get o' k = get o k).
Proof.
  intros Hm Hin Hl. exists (scrape_overlay E (w_now w) options o). split.
  - rewrite (scrape_ref E options config w l o Hin Hl).
    unfold scrape_events. by rewrite Hm.
  - intros k Hk. rewrite scrape_overlay_misconfigured by done.
    destruct (truthy (get options "DRY_RUN")); [|done].
    unfold dry_run_overlay. unfold schedule_keys in Hk.
    rewrite !elem_of_cons, elem_of_nil in Hk.
    destruct Hk as [->|[->|[->|[->|[]]]]]; by rewrite !get_insert_ne.
Qed.

Lemma scrape_misconfigured_logs_and_submits_witness :
  ∃ o' : obj,
    scrape sample_externals unscheduled_options sample_config sample_world
    = (post_outcome sample_externals (get unscheduled_options "RUN_TASK_ENDPOINT")
         (VRef 1%positive) (Some o'),
       add_events
         (with_heap sample_world (<[1%positive := o']> (w_heap sample_world)))
         [ Log LInfo (PStr "Input config:");
           Log LInfo (PData (VRef 1%positive) (Some sample_template));
           Log LError (PStr "Invalid command!");
           Log LDebug (PStr "Running Task with options:");
           Log LDebug (PData (VRef 1%positive) (Some o'));
           PostCall (get unscheduled_options "RUN_TASK_ENDPOINT")
             (VRef 1%positive) (Some o') ])
    ∧ (∀ k, k ∈ schedule_keys → get o' k = get sample_template k).
Proof.
  apply (scrape_misconfigured_logs_and_submits sample_externals unscheduled_options
           sample_config sample_world 1%positive sample_template).
  - vm_compute. reflexivity.
  - vm_compute. reflexivity.
  - vm_compute. reflexivity.
Defined.

(** C1, as stated, fails: on options that select no mode, [scrape]
    returns normally and has submitted the trigger. *)
Lemma scrape_misconfigured_not_rejected :
  misconfigured unscheduled_options = true
  ∧ (scrape sample_externals unscheduled_options sample_config sample_world).1
    = Returned tt
  ∧ submits_trigger sample_world
      (scrape sample_externals unscheduled_options sample_config sample_world).2.
Proof.
  split; [by vm_compute|]. split; [by vm_compute|].
  exists (VStr "https://api.example.org/run"), (VRef 1%positive), (Some sample_template).
  apply (bool_decide_unpack _). by vm_compute.
Qed.

(** C9. With the daily flag set, [scrape] takes the daily branch whatever
    start and end dates come with it: the dates change nothing, the
    template gets today's schedule, and the records logged hold no error;
    the call ends as the submission ends. *)
Theorem scrape_daily_takes_precedence
    (E : Externals) (options config : obj) (w : World) (l : loc) (o : obj) :
  truthy (get options "DAILY") = true →
  get config "INPUT" = VRef l →
  w_heap w !! l = Some o →
  (∀ s e : value,
     scrape E (<["START_DATE" := s]> (<["END_DATE" := e]> options)) config w
     = scrape E options config w)
  ∧ ∃ o' : obj,
      o' = daily_overlay (w_now w)
             (parseInt (get options "REQUESTS_PER_DAY"))
             (parseInt (get options "REQUEST_DEPTHS_PER_DAY"))
             (if truthy (get options "DRY_RUN") then dry_run_overlay o else o)
      ∧ scrape E options config w
        = (post_outcome E (get options "RUN_TASK_ENDPOINT") (VRef l) (Some o'),
           add_events (with_heap w (<[l := o']> (w_heap w)))
             [ Log LInfo (PStr "Input config:");
               Log LInfo (PData (VRef l) (Some o));
               Log LDebug (PStr "Running Task with options:");
               Log LDebug (PData (VRef l) (Some o'));
               PostCall (get options "RUN_TASK_ENDPOINT") (VRef l) (Some o') ]).
Proof.
  intros Hd Hin Hl. split.
  - intros s e. unfold scrape.
    assert (Hget : ∀ k, k ≠ "START_DATE" → k ≠ "END_DATE" →
              get (<["START_DATE" := s]> (<["END_DATE" := e]> options)) k
              = get options k).
    { intros k H1 H2. by rewrite !get_insert_ne. }
    rewrite (Hget "DRY_RUN"), (Hget "REQUESTS_PER_DAY"),
      (Hget "REQUEST_DEPTHS_PER_DAY"), (Hget "DAILY"),
      (Hget "RUN_TASK_ENDPOINT") by done.
    by rewrite Hd.
  - eexists. split; [reflexivity|].
    rewrite (scrape_ref E options config w l o Hin Hl).
    rewrite scrape_overlay_daily by done.
    unfold scrape_events, misconfigured. by rewrite Hd.
Qed.

Lemma scrape_daily_takes_precedence_witness :
  (scrape sample_externals ambiguous_options sample_config sample_world).1 = Returned tt
  ∧ get (default ∅ (w_heap (scrape sample_externals ambiguous_options sample_config
                              sample_world).2 !! 1%positive)) "startDate"
    = VStr "03/07/2024".
Proof.
  destruct (scrape_daily_takes_precedence sample_externals ambiguous_options
              sample_config sample_world 1%positive sample_template)
    as [_ (o' & -> & ->)].
  - vm_compute. reflexivity.
  - vm_compute. reflexivity.
  - vm_compute. reflexivity.
  - split; vm_compute; reflexivity.
Defined.

Lemma get_daily_overlay today r d o :
  get (daily_overlay today r d o) "startDate" = VStr (MMDDYYYY today)
  ∧ get (daily_overlay today r d o) "endDate" = VStr (MMDDYYYY today)
  ∧ get (daily_overlay today r d o) "maxRequestsPerCrawl" = VNum r
  ∧ get (daily_overlay today r d o) "maxRequestDepth" = VNum d.
Proof.
  unfold daily_overlay, MMDDYYYY.
  rewrite <- (format_MMDDYYYY today).
  rewrite format_startOfDay, format_endOfDay.
  repeat split; by rewrite ?get_insert_ne, get_insert_eq by done.
Qed.

Lemma get_range_overlay n r d s e o :
  get (range_overlay n r d s e o) "startDate" = s
  ∧ get (range_overlay n r d s e o) "endDate" = e
  ∧ get (range_overlay n r d s e o) "maxRequestsPerCrawl" = VNum (js_mul r n)
  ∧ get (range_overlay n r d s e o) "maxRequestDepth" = VNum (js_mul d n).
Proof.
  unfold range_overlay.
  repeat split; by rewrite ?get_insert_ne, get_insert_eq by done.
Qed.

Lemma get_dry_run_overlay o :
  get (dry_run_overlay o) "isTestRun" = VBool true
  ∧ get (dry_run_overlay o) "logLevel" = VNum (Finite 5).
Proof.
  unfold dry_run_overlay.
  split; by rewrite ?get_insert_ne, get_insert_eq by done.
Qed.

Lemma get_scrape_overlay_dry_run E today options o :
  truthy (get options "DRY_RUN") = true →
  get (scrape_overlay E today options o) "isTestRun" = VBool true
  ∧ get (scrape_overlay E today options o) "logLevel" = VNum (Finite 5).
Proof.
  intros Hdry. unfold scrape_overlay. rewrite Hdry.
  destruct (get_dry_run_overlay o) as [H1 H2].
  destruct (truthy (get options "DAILY")).
  - unfold daily_overlay. by rewrite !get_insert_ne by done.
  - destruct (truthy (get options "START_DATE") && truthy (get options "END_DATE")).
    + unfold range_overlay. by rewrite !get_insert_ne by done.
    + done.
Qed.

(** C10. [scrape] writes onto the object that [config.INPUT] refers to,
    not onto a copy: when it is over, the heap differs from the one it
    started with only at that reference, the body it submitted is that
    same reference, and the object there carries, in dry-run mode,
    [isTestRun = true] and [logLevel = 5], and the schedule of the mode
    selected. *)
Theorem scrape_writes_template_in_place
    (E : Externals) (options config : obj) (w : World) (l : loc) (o : obj) :
  get config "INPUT" = VRef l →
  w_heap w !! l = Some o →
  ∃ o' : obj,
    w_heap (scrape E options config w).2 = <[l := o']> (w_heap w)
    ∧ last (w_trace (scrape E options config w).2)
      = Some (PostCall (get options "RUN_TASK_ENDPOINT") (VRef l) (Some o'))
    ∧ (truthy (get options "DRY_RUN") = true →
       get o' "isTestRun" = VBool true ∧ get o' "logLevel" = VNum (Finite 5))
    ∧ (truthy (get options "DAILY") = true →
       get o' "startDate" = VStr (MMDDYYYY (w_now w))
       ∧ get o' "endDate" = VStr (MMDDYYYY (w_now w))
       ∧ get o' "maxRequestsPerCrawl" = VNum (parseInt (get options "REQUESTS_PER_DAY"))
       ∧ get o' "maxRequestDepth" = VNum (parseInt (get options "REQUEST_DEPTHS_PER_DAY")))
    ∧ (truthy (get options "DAILY") = false →
       truthy (get options "START_DATE") = true →
       truthy (get options "END_DATE") = true →
       get o' "startDate" = get options "START_DATE"
       ∧ get o' "endDate" = get options "END_DATE"
       ∧ get o' "maxRequestsPerCrawl"
         = VNum (js_mul (parseInt (get options "REQUESTS_PER_DAY"))
                   (numOfDays E (get options "START_DATE") (get options "END_DATE")))
       ∧ get o' "maxRequestDepth"
         = VNum (js_mul (parseInt (get options "REQUEST_DEPTHS_PER_DAY"))
                   (numOfDays E (get options "START_DATE") (get options "END_DATE")))).
Proof.
  intros Hin Hl. exists (scrape_overlay E (w_now w) options o).
  rewrite (scrape_ref E options config w l o Hin Hl). simpl.
  split; [done|]. split.
  { unfold scrape_events. by rewrite !last_app. }
  split; [by apply get_scrape_overlay_dry_run|]. split.
  - intros Hd. rewrite scrape_overlay_daily by done. apply get_daily_overlay.
  - intros Hd Hs He. rewrite scrape_overlay_range by done. apply get_range_overlay.
Qed.

Lemma scrape_writes_template_in_place_witness :
  ∃ o' : obj,
    w_heap (scrape sample_externals ambiguous_options sample_config sample_world).2
    = <[1%positive := o']> (w_heap sample_world)
    ∧ get o' "isTestRun" = VBool true
    ∧ get o' "logLevel" = VNum (Finite 5)
    ∧ get o' "startDate" = VStr "03/07/2024"
    ∧ get o' "maxRequestsPerCrawl" = VNum (Finite 100).
Proof.
  destruct (scrape_writes_template_in_place sample_externals ambiguous_options
              sample_config sample_world 1%positive sample_template)
    as (o' & Hheap & _ & Hdry & Hdaily & _).
  - vm_compute. reflexivity.
  - vm_compute. reflexivity.
  - exists o'. split; [exact Hheap|].
    destruct Hdry as [H1 H2]; [by vm_compute|].
    destruct Hdaily as (H3 & _ & H5 & _); [by vm_compute|].
    repeat split; assumption.
Defined.

(** ** The orchestrator *)

(** C4. Whatever the four stages do, throwing included, [processDataset]
    returns normally: an exception of a stage is caught, logged after
    ["Error processing dataset"], and not raised again.  This holds of
    the function over any four stages, and so of the module's own. *)
Theorem processDataset_never_throws
    (getDataset' normalize' load' archive' : obj → M unit)
    (E : Externals) (options : obj) (w : World) :
  let stages :=
    getDataset' options ;; normalize' options ;; load' options ;; archive' options in
  let started := add_events w [Log LInfo (PStr "Processing dataset")] in
  processDataset_with getDataset' normalize' load' archive' options w
  = (Returned tt,
     match stages started with
     | (Returned _, w') =>
         add_events w' [Log LInfo (PStr "Finish processing dataset")]
     | (Threw err, w') =>
         add_events w' [ Log LError (PStr "Error processing dataset");
                         Log LError (PErr err);
                         Log LInfo (PStr "Finish processing dataset") ]
     end)
  ∧ (processDataset E options w).1 = Returned tt.
Proof.
  assert (Hgen : ∀ g n l a,
    processDataset_with g n l a options w
    = (Returned tt,
       match (g options ;; n options ;; l options ;; a options)
               (add_events w [Log LInfo (PStr "Processing dataset")]) with
       | (Returned _, w') =>
           add_events w' [Log LInfo (PStr "Finish processing dataset")]
       | (Threw err, w') =>
           add_events w' [ Log LError (PStr "Error processing dataset");
                           Log LError (PErr err);
                           Log LInfo (PStr "Finish processing dataset") ]
       end)).
  { intros g n l a. unfold processDataset_with.
    erewrite (bind_returned (log_info _)) by apply emit_spec.
    unfold try_catch at 1. unfold bind at 1.
    destruct ((g options ;; n options ;; l options ;; a options) _) as [[[]|err] w'].
    - reflexivity.
    - run_M. by rewrite <- !app_assoc. }
  split; [apply Hgen|].
  unfold processDataset. by rewrite Hgen.
Qed.

(** A stage that throws: the error is logged and [processDataset]
    returns normally. *)
Example processDataset_stage_throws :
  let failing : obj → M unit := λ _, throw (Failure "normalizer failed") in
  processDataset_with (λ _, ret tt) failing (λ _, ret tt) (λ _, ret tt) ∅ move_world
  = (Returned tt,
     add_events move_world
       [ Log LInfo (PStr "Processing dataset");
         Log LError (PStr "Error processing dataset");
         Log LError (PErr (Failure "normalizer failed"));
         Log LInfo (PStr "Finish processing dataset") ]).
Proof. reflexivity. Qed.

(** ** The file relocator *)

Lemma start_renames_spec src dest files w :
  start_renames src dest files w
  = (Returned tt,
     mkWorld (w_fs w) (w_heap w) (w_now w)
       (w_inflight w ++ rename_pairs src dest files)
       (w_trace w ++ rename_calls src dest files)).
Proof.
  revert w. induction files as [|f files IH]; intros w.
  - unfold rename_calls, rename_pairs. simpl. unfold ret.
    rewrite !app_nil_r. by destruct w.
  - cbn [start_renames].
    erewrite (bind_returned (renameAsync_dropped _ _)) by reflexivity.
    rewrite IH. unfold rename_calls, rename_pairs. simpl.
    by rewrite <- !app_assoc.
Qed.

Lemma readdirAsync_spec dir w :
  readdirAsync dir w
  = (match readdir_value dir (w_fs w) with
     | inr names => Returned names
     | inl e => Threw e
     end,
     add_events w [ReaddirCall dir]).
Proof.
  unfold readdirAsync, readdir_settled, readdir_value.
  erewrite (bind_returned (emit _)) by apply emit_spec.
  destruct dir; try reflexivity.
  run_M. by destruct (readdir _ _).
Qed.

(** What [moveFilesToDir] amounts to: the names are read, a rename is
    started for each, and the function returns; the file system is as it
    was, the renames are in flight. *)
Lemma moveFilesToDir_spec src dest w :
  moveFilesToDir src dest w
  = (Returned tt,
     let moving :=
       Log LInfo (PStr ("Moving files from " +:+ to_str src +:+ " to " +:+ to_str dest)) in
     match readdir_value src (w_fs w) with
     | inr files =>
         mkWorld (w_fs w) (w_heap w) (w_now w)
           (w_inflight w ++ rename_pairs src dest files)
           (w_trace w ++ [moving; ReaddirCall src] ++ rename_calls src dest files)
     | inl e =>
         add_events w
           [ moving; ReaddirCall src;
             Log LError (PStr ("Error moving files from " +:+ to_str src
                               +:+ " to " +:+ to_str dest));
             Log LError (PErr e) ]
     end).
Proof.
  unfold moveFilesToDir.
  erewrite (bind_returned (log_info _)) by apply emit_spec.
  unfold try_catch, bind at 1. rewrite readdirAsync_spec. simpl.
  destruct (readdir_value src (w_fs w)) as [e|files]; simpl.
  - run_M. by rewrite <- !app_assoc.
  - rewrite start_renames_spec. simpl. by rewrite <- !app_assoc.
Qed.

Lemma readdir_settled_spec dir w :
  readdir_settled dir w
  = (match readdir_value dir (w_fs w) with
     | inr names => Returned names
     | inl e => Threw e
     end, w).
Proof.
  unfold readdir_settled, readdir_value. destruct dir; try reflexivity.
  run_M. by destruct (readdir _ _).
Qed.

Lemma moveFilesToDir_issue_spec src dest w :
  moveFilesToDir_issue src dest w
  = (Returned tt,
     add_events w
       [ Log LInfo (PStr ("Moving files from " +:+ to_str src +:+ " to "
                          +:+ to_str dest));
         ReaddirCall src ]).
Proof. unfold moveFilesToDir_issue. run_M. by rewrite <- !app_assoc. Qed.

Lemma moveFilesToDir_resume_spec src dest w :
  moveFilesToDir_resume src dest w
  = (Returned tt,
     match readdir_value src (w_fs w) with
     | inr files =>
         mkWorld (w_fs w) (w_heap w) (w_now w)
           (w_inflight w ++ rename_pairs src dest files)
           (w_trace w ++ rename_calls src dest files)
     | inl e =>
         add_events w
           [ Log LError (PStr ("Error moving files from " +:+ to_str src
                               +:+ " to " +:+ to_str dest));
             Log LError (PErr e) ]
     end).
Proof.
  unfold moveFilesToDir_resume.
  unfold try_catch, bind at 1. rewrite readdir_settled_spec.
  destruct (readdir_value src (w_fs w)) as [e|files]; simpl.
  - run_M. by rewrite <- !app_assoc.
  - by rewrite start_renames_spec.
Qed.

(** The two parts, one after the other, are the whole call. *)
Lemma moveFilesToDir_in_two src dest w :
  moveFilesToDir src dest w
  = (moveFilesToDir_issue src dest ;; moveFilesToDir_resume src dest) w.
Proof.
  rewrite moveFilesToDir_spec.
  erewrite (bind_returned (moveFilesToDir_issue _ _))
    by apply moveFilesToDir_issue_spec.
  rewrite moveFilesToDir_resume_spec. simpl.
  destruct (readdir_value src (w_fs w)) as [e|files]; simpl.
  - unfold add_events. simpl. by rewrite <- !app_assoc.
  - by rewrite <- !app_assoc.
Qed.

Lemma moveFilesToDir_fs_unchanged src dest w :
  (moveFilesToDir src dest w).1 = Returned tt
  ∧ w_fs (moveFilesToDir src dest w).2 = w_fs w.
Proof.
  rewrite moveFilesToDir_spec. simpl. split; [done|].
  by destruct (readdir_value src (w_fs w)).
Qed.

(** C5, on a directory with one file. [moveFilesToDir] returns normally
    while the file is still in the source and not yet in the destination:
    the rename has been started and nothing waited for it. *)
Theorem moveFilesToDir_returns_with_renames_in_flight :
  (moveFilesToDir (VStr "raw") (VStr "archived/raw") move_world).1 = Returned tt
  ∧ w_fs (moveFilesToDir (VStr "raw") (VStr "archived/raw") move_world).2
      !! ["raw"; "data.json"] = Some (File "x")
  ∧ w_fs (moveFilesToDir (VStr "raw") (VStr "archived/raw") move_world).2
      !! ["archived"; "raw"; "data.json"] = None
  ∧ w_inflight (moveFilesToDir (VStr "raw") (VStr "archived/raw") move_world).2
    = [("raw/data.json", "archived/raw/data.json")].
Proof. repeat split; by vm_compute. Qed.

(** Once the event loop has completed the rename, the file has moved. *)
Example moveFilesToDir_settled :
  let w' := settle (moveFilesToDir (VStr "raw") (VStr "archived/raw") move_world).2 in
  w_fs w' !! ["raw"; "data.json"] = None
  ∧ w_fs w' !! ["archived"; "raw"; "data.json"] = Some (File "x")
  ∧ w_inflight w' = [].
Proof. repeat split; by vm_compute. Qed.

(** A rename that fails is outside the reach of the [catch] of
    [moveFilesToDir]: nothing is logged at error level, and the failure
    surfaces as an unhandled rejection. *)
Example moveFilesToDir_failure_unhandled :
  let r := moveFilesToDir (VStr "raw") (VStr "archived/raw") move_world_no_dest in
  r.1 = Returned tt
  ∧ w_trace r.2
    = [ Log LInfo (PStr "Moving files from raw to archived/raw");
        ReaddirCall (VStr "raw");
        RenameCall "raw/data.json" "archived/raw/data.json" ]
  ∧ w_trace (settle r.2)
    = w_trace r.2 ++ [UnhandledRejection (Errno "ENOENT" "")].
Proof. repeat split; by vm_compute. Qed.

(** ** The directory provisioner *)

Lemma mkdirp_go_preserves (pre rest : path) (fs fs' : FS) (q : path) (n : node) :
  mkdirp_go pre rest fs = inr fs' → fs !! q = Some n → fs' !! q = Some n.
Proof.
  revert pre fs. induction rest as [|c rest IH]; intros pre fs H Hq; simpl in H.
  - by injection H as <-.
  - destruct (fs !! (pre ++ [c])) as [[content|]|] eqn:Hp.
    + discriminate.
    + by eapply IH.
    + eapply IH; [exact H|].
      rewrite lookup_insert_ne; [done|]. intros <-. congruence.
Qed.

Lemma mkdirp_go_created (pre rest : path) (fs fs' : FS) :
  rest ≠ [] → mkdirp_go pre rest fs = inr fs' → fs' !! (pre ++ rest) = Some Dir.
Proof.
  revert pre fs. induction rest as [|c rest IH]; intros pre fs Hne H; [done|].
  simpl in H.
  assert (Hstep : ∃ fs1 : FS, mkdirp_go (pre ++ [c]) rest fs1 = inr fs'
                      ∧ fs1 !! (pre ++ [c]) = Some Dir).
  { destruct (fs !! (pre ++ [c])) as [[content|]|] eqn:Hp.
    - discriminate.
    - by exists fs.
    - exists (<[pre ++ [c] := Dir]> fs). split; [done|]. apply lookup_insert_eq. }
  destruct Hstep as (fs1 & Hrun & Hdir).
  destruct rest as [|c' rest].
  - simpl in Hrun. by injection Hrun as <-.
  - rewrite (cons_middle c pre (c' :: rest)), app_assoc. by eapply IH.
Qed.

Lemma mkdirp_go_idempotent (pre rest : path) (fs fs' : FS) :
  mkdirp_go pre rest fs = inr fs' → mkdirp_go pre rest fs' = inr fs'.
Proof.
  revert pre fs. induction rest as [|c rest IH]; intros pre fs H; [done|].
  simpl in H. simpl.
  assert (Hstep : ∃ fs1 : FS, mkdirp_go (pre ++ [c]) rest fs1 = inr fs'
                      ∧ fs1 !! (pre ++ [c]) = Some Dir).
  { destruct (fs !! (pre ++ [c])) as [[content|]|] eqn:Hp.
    - discriminate.
    - by exists fs.
    - exists (<[pre ++ [c] := Dir]> fs). split; [done|]. apply lookup_insert_eq. }
  destruct Hstep as (fs1 & Hrun & Hdir).
  rewrite (mkdirp_go_preserves _ _ _ _ _ _ Hrun Hdir). by eapply IH.
Qed.

(** Only proper extensions of [pre] along [rest] are written. *)
Lemma mkdirp_go_frame (pre rest : path) (fs fs' : FS) (q : path) :
  mkdirp_go pre rest fs = inr fs' →
  (∀ r, pre ++ rest ≠ q ++ r) →
  fs' !! q = fs !! q.
Proof.
  revert pre fs. induction rest as [|c rest IH]; intros pre fs H Hq; simpl in H.
  - by injection H as <-.
  - assert (Hq' : ∀ r, (pre ++ [c]) ++ rest ≠ q ++ r).
    { intros r. rewrite <- app_assoc. apply Hq. }
    destruct (fs !! (pre ++ [c])) as [[content|]|] eqn:Hp.
    + discriminate.
    + by eapply IH.
    + rewrite (IH _ _ H Hq'). apply lookup_insert_ne.
      intros <-. apply (Hq rest). by rewrite <- app_assoc.
Qed.

(** No regular file in the way: the directory can be made. *)
Lemma mkdirp_go_clear (pre rest : path) (fs : FS) :
  (∀ n content, fs !! (pre ++ take (S n) rest) ≠ Some (File content)) →
  ∃ fs', mkdirp_go pre rest fs = inr fs'.
Proof.
  revert pre fs. induction rest as [|c rest IH]; intros pre fs Hclear; simpl.
  - by eexists.
  - destruct (fs !! (pre ++ [c])) as [[content|]|] eqn:Hp.
    + by destruct (Hclear 0%nat content).
    + apply IH. intros n content. rewrite <- app_assoc. apply (Hclear (S n)).
    + apply IH. intros n content. rewrite <- app_assoc. simpl.
      rewrite lookup_insert. case_decide; [done|]. apply (Hclear (S n)).
Qed.

(** A regular file in the way, at the path or above it: the directory
    cannot be made. *)
Lemma mkdirp_go_blocked (pre rest : path) (fs : FS) (n : nat) (content : string) :
  (n < length rest)%nat →
  fs !! (pre ++ take (S n) rest) = Some (File content) →
  ∃ e, mkdirp_go pre rest fs = inl e.
Proof.
  revert pre fs n. induction rest as [|c rest IH]; intros pre fs n Hn Hfile; simpl in Hn.
  - lia.
  - simpl. destruct n as [|n].
    + change (take 1 (c :: rest)) with [c] in Hfile. rewrite Hfile. by eexists.
    + assert (Hn' : (n < length rest)%nat) by lia.
      change (take (S (S n)) (c :: rest)) with (c :: take (S n) rest) in Hfile.
      rewrite (cons_middle c pre (take (S n) rest)), app_assoc in Hfile.
      destruct (fs !! (pre ++ [c])) as [[content'|]|] eqn:Hp.
      * by eexists.
      * by apply (IH _ _ n).
      * apply (IH _ _ n Hn'). rewrite lookup_insert_ne; [done|].
        intros Heq. rewrite <- (app_nil_r (pre ++ [c])) in Heq at 1.
        apply app_inv_head in Heq. destruct rest; [simpl in Hn'; lia|done].
Qed.

Lemma mkdirp_idempotent (p : path) (fs fs' : FS) : mkdirp p fs = inr fs' → mkdirp p fs' = inr fs'.
Proof. apply mkdirp_go_idempotent. Qed.

Lemma mkdirp_created (p : path) (fs fs' : FS) :
  p ≠ [] → mkdirp p fs = inr fs' → fs' !! p = Some Dir.
Proof. intros Hne H. by apply (mkdirp_go_created [] p fs fs'). Qed.

Lemma mkdirp_frame (p : path) (fs fs' : FS) (q : path) :
  mkdirp p fs = inr fs' → (∀ r, p ≠ q ++ r) → fs' !! q = fs !! q.
Proof. intros H Hq. by apply (mkdirp_go_frame [] p fs fs' q). Qed.

Lemma makeDir_spec dir w :
  makeDir dir w
  = (Returned tt,
     let making := Log LInfo (PStr ("Making directory " +:+ to_str dir)) in
     match mkdirp_value dir (w_fs w) with
     | inr fs' => add_events (with_fs w fs') [making; MkdirpCall dir]
     | inl e =>
         add_events w
           [ making; MkdirpCall dir;
             Log LError (PStr ("Error to make dir " +:+ to_str dir));
             Log LError (PErr e) ]
     end).
Proof.
  unfold makeDir, mkdirp_sync, mkdirp_value.
  erewrite (bind_returned (log_info _)) by apply emit_spec.
  destruct dir; try (run_M; by rewrite <- !app_assoc).
  run_M. destruct (mkdirp (split_path s) (w_fs w)); run_M; by rewrite <- !app_assoc.
Qed.

(** ** The tree replicator *)

Lemma strip_prefix_app (pre r : path) : strip_prefix pre (pre ++ r) = Some r.
Proof.
  induction pre as [|a pre IH]; simpl; [done|].
  by rewrite decide_True.
Qed.

Lemma strip_prefix_Some (pre p r : path) : strip_prefix pre p = Some r → p = pre ++ r.
Proof.
  revert p. induction pre as [|a pre IH]; intros p H; simpl in H.
  - by injection H as ->.
  - destruct p as [|b p]; [done|].
    destruct (decide (a = b)) as [->|]; [|done].
    simpl. f_equal. by apply IH.
Qed.

Lemma strip_prefix_None (pre p : path) :
  strip_prefix pre p = None ↔ ∀ r, p ≠ pre ++ r.
Proof.
  split.
  - intros H r ->. by rewrite strip_prefix_app in H.
  - intros H. destruct (strip_prefix pre p) as [r|] eqn:Hs; [|done].
    by destruct (H r (strip_prefix_Some _ _ _ Hs)).
Qed.

Lemma elem_of_subtree (p : path) (fs : FS) (r : path) (n : node) :
  (r, n) ∈ subtree p fs ↔ fs !! (p ++ r) = Some n.
Proof.
  unfold subtree. rewrite list_elem_of_omap. split.
  - intros ([k n'] & Hin & Hk). simpl in Hk.
    destruct (strip_prefix p k) as [r'|] eqn:Hs; simpl in Hk; [|done].
    injection Hk as -> ->. apply strip_prefix_Some in Hs as ->.
    by apply elem_of_map_to_list.
  - intros H. exists (p ++ r, n). split; [by apply elem_of_map_to_list|].
    simpl. by rewrite strip_prefix_app.
Qed.

Lemma apart_below (p q t : path) : apart p q → strip_prefix q (p ++ t) = None.
Proof.
  intros [Hpq Hqp]. apply strip_prefix_None. intros r Heq.
  apply app_eq_inv in Heq as [(k & -> & _)|(k & -> & _)].
  - by rewrite strip_prefix_app in Hqp.
  - by rewrite strip_prefix_app in Hpq.
Qed.

Lemma apart_not_above (p q t r : path) : apart p q → q ≠ (p ++ t) ++ r.
Proof.
  intros [Hpq _] ->. by rewrite <- app_assoc, strip_prefix_app in Hpq.
Qed.

Lemma copy_entries_preserves (dst : path) (es : list (path * node)) (fs fs' : FS)
    (oe : option error) (q : path) (n : node) :
  copy_entries dst es fs = (oe, fs') → fs !! q = Some n → fs' !! q = Some n.
Proof.
  revert fs. induction es as [|[r m] es IH]; intros fs H Hq; simpl in H.
  - by injection H as _ <-.
  - destruct m as [content|], (node_at fs (dst ++ r)) as [[content'|]|] eqn:Hat;
      try (by injection H as _ <-); try (by eapply IH).
    + eapply IH; [exact H|]. rewrite lookup_insert_ne; [done|].
      intros <-. destruct (dst ++ r); simpl in Hat; congruence.
    + eapply IH; [exact H|]. rewrite lookup_insert_ne; [done|].
      intros <-. destruct (dst ++ r); simpl in Hat; congruence.
Qed.

Lemma copy_entries_frame (dst : path) (es : list (path * node)) (fs fs' : FS)
    (oe : option error) (q : path) :
  copy_entries dst es fs = (oe, fs') → strip_prefix dst q = None → fs' !! q = fs !! q.
Proof.
  revert fs. induction es as [|[r m] es IH]; intros fs H Hq; simpl in H.
  - by injection H as _ <-.
  - assert (Hne : dst ++ r ≠ q).
    { intros <-. by rewrite strip_prefix_app in Hq. }
    destruct m as [content|], (node_at fs (dst ++ r)) as [[content'|]|];
      try (by injection H as _ <-); try (by eapply IH).
    + rewrite (IH _ H Hq). by apply lookup_insert_ne.
    + rewrite (IH _ H Hq). by apply lookup_insert_ne.
Qed.

Lemma copy_entries_copied (dst : path) (es : list (path * node)) (fs fs' : FS)
    (r : path) (n : node) :
  copy_entries dst es fs = (None, fs') → (r, n) ∈ es → node_at fs' (dst ++ r) = Some n.
Proof.
  revert fs. induction es as [|[r' m] es IH]; intros fs H Hin; simpl in H.
  - by apply elem_of_nil in Hin.
  - apply elem_of_cons in Hin as [Heq|Hin].
    + injection Heq as -> ->.
      assert (Hkeep : ∀ fs1 : FS, copy_entries dst es fs1 = (None, fs') →
                node_at fs1 (dst ++ r') = Some m → node_at fs' (dst ++ r') = Some m).
      { intros fs1 Hrun Hat. destruct (dst ++ r') as [|c t] eqn:Hk; [done|].
        simpl in *. by eapply copy_entries_preserves. }
      destruct m as [content|], (node_at fs (dst ++ r')) as [[content'|]|] eqn:Hat;
        try discriminate.
      * apply (Hkeep _ H). destruct (dst ++ r'); [done|]. apply lookup_insert_eq.
      * by apply (Hkeep _ H).
      * apply (Hkeep _ H). destruct (dst ++ r'); [done|]. apply lookup_insert_eq.
    + destruct m as [content|], (node_at fs (dst ++ r')) as [[content'|]|];
        try discriminate; by eapply IH.
Qed.

(** The reference copy never writes at a path that lies apart from its
    destination. *)
Lemma merge_copy_frame (junk : string → bool) (src dst : path) (fs : FS) (q : path) :
  apart q dst → (merge_copy junk src dst fs).2 !! q = fs !! q.
Proof.
  intros [Hq1 Hq2]. unfold merge_copy.
  destruct (node_at fs src) as [[content|]|]; [| |done].
  - destruct (mkdirp (parent dst) fs) as [e|fs1] eqn:Hmk; [done|].
    destruct (copy_entries dst [([], File content)] fs1) as [oe fs'] eqn:Hcp. simpl.
    rewrite (copy_entries_frame _ _ _ _ _ _ Hcp) by done.
    apply (mkdirp_frame _ _ _ _ Hmk). intros r Heq.
    rewrite strip_prefix_None in Hq1.
    apply (Hq1 (r ++ drop (length dst - 1) dst)).
    rewrite app_assoc, <- Heq. unfold parent. by rewrite take_drop.
  - destruct (mkdirp dst fs) as [e|fs1] eqn:Hmk; [done|].
    destruct (copy_entries dst _ fs1) as [oe fs'] eqn:Hcp. simpl.
    rewrite (copy_entries_frame _ _ _ _ _ _ Hcp) by done.
    apply (mkdirp_frame _ _ _ _ Hmk). by apply strip_prefix_None.
Qed.

(** It only adds: an entry that was there is there afterwards, as it
    was, error or no error. *)
Lemma merge_copy_preserves (junk : string → bool) (src dst : path) (fs : FS)
    (q : path) (n : node) :
  fs !! q = Some n → (merge_copy junk src dst fs).2 !! q = Some n.
Proof.
  intros Hq. unfold merge_copy.
  destruct (node_at fs src) as [[content|]|]; [| |done].
  - destruct (mkdirp (parent dst) fs) as [e|fs1] eqn:Hmk; [done|].
    destruct (copy_entries dst [([], File content)] fs1) as [oe fs'] eqn:Hcp. simpl.
    apply (copy_entries_preserves _ _ _ _ _ _ _ Hcp).
    eapply mkdirp_go_preserves; [exact Hmk|done].
  - destruct (mkdirp dst fs) as [e|fs1] eqn:Hmk; [done|].
    destruct (copy_entries dst _ fs1) as [oe fs'] eqn:Hcp. simpl.
    apply (copy_entries_preserves _ _ _ _ _ _ _ Hcp).
    eapply mkdirp_go_preserves; [exact Hmk|done].
Qed.

(** It never writes at or below its source, when source and destination
    lie apart. *)
Lemma merge_copy_source_unchanged (junk : string → bool) (src dst : path) (fs : FS)
    (t : path) :
  apart src dst → (merge_copy junk src dst fs).2 !! (src ++ t) = fs !! (src ++ t).
Proof.
  intros Hapart. apply merge_copy_frame. split.
  - apply strip_prefix_None. intros r. by apply apart_not_above.
  - by apply apart_below.
Qed.

(** When it reports no error on a directory, every entry of the source
    that the filters let through is at the same relative path below the
    destination. *)
Lemma merge_copy_directory_copied
    (junk : string → bool) (src dst : path) (fs fs' : FS) (r : path) (n : node) :
  node_at fs src = Some Dir →
  merge_copy junk src dst fs = (None, fs') →
  fs !! (src ++ r) = Some n → skipped junk r = false →
  node_at fs' (dst ++ r) = Some n.
Proof.
  intros Hdir Hcopy Hn Hr. unfold merge_copy in Hcopy. rewrite Hdir in Hcopy.
  destruct (mkdirp dst fs) as [e|fs1]; [done|].
  apply (copy_entries_copied dst _ _ _ r n) in Hcopy; [done|].
  apply list_elem_of_filter. split; [done|]. by apply elem_of_subtree.
Qed.

Lemma copy_entries_writes (dst : path) (es : list (path * node)) (fs fs' : FS)
    (oe : option error) (q : path) :
  copy_entries dst es fs = (oe, fs') →
  (∀ r n, (r, n) ∈ es → dst ++ r ≠ q) →
  fs' !! q = fs !! q.
Proof.
  revert fs. induction es as [|[r m] es IH]; intros fs H Hq; simpl in H.
  - by injection H as _ <-.
  - assert (Hne : dst ++ r ≠ q) by (apply (Hq r m); left).
    assert (Hq' : ∀ r' n', (r', n') ∈ es → dst ++ r' ≠ q).
    { intros r' n' Hin. apply (Hq r' n'). by right. }
    destruct m as [content|], (node_at fs (dst ++ r)) as [[content'|]|];
      try (by injection H as _ <-); try (by eapply IH).
    + rewrite (IH _ H Hq'). by apply lookup_insert_ne.
    + rewrite (IH _ H Hq'). by apply lookup_insert_ne.
Qed.

(** An entry of a directory with a filtered name on its path is not
    written below the destination. *)
Lemma merge_copy_skipped
    (junk : string → bool) (src dst : path) (fs fs' : FS) (r : path) :
  node_at fs src = Some Dir →
  merge_copy junk src dst fs = (None, fs') →
  skipped junk r = true →
  fs' !! (dst ++ r) = fs !! (dst ++ r).
Proof.
  intros Hdir Hcopy Hr. unfold merge_copy in Hcopy. rewrite Hdir in Hcopy.
  destruct (mkdirp dst fs) as [e|fs1] eqn:Hmk; [done|].
  rewrite (copy_entries_writes _ _ _ _ _ _ Hcopy).
  - apply (mkdirp_frame _ _ _ _ Hmk). intros x Heq.
    rewrite <- app_assoc in Heq. rewrite <- (app_nil_r dst) in Heq at 1.
    apply app_inv_head in Heq. symmetry in Heq.
    apply app_eq_nil in Heq as [-> _]. done.
  - intros r' n' Hin Heq. apply app_inv_head in Heq. subst r'.
    apply list_elem_of_filter in Hin as [Hpass _]. simpl in Hpass. congruence.
Qed.

Lemma recursiveCopy_spec E src dest w :
  recursiveCopy E src dest w
  = (Returned tt,
     let copying :=
       Log LInfo (PStr ("Recursively copying files from " +:+ to_str src
                        +:+ " to " +:+ to_str dest)) in
     match (copy_value E src dest (w_fs w)).1 with
     | None =>
         add_events (with_fs w (copy_value E src dest (w_fs w)).2)
           [copying; CopyCall src dest]
     | Some e =>
         add_events (with_fs w (copy_value E src dest (w_fs w)).2)
           [ copying; CopyCall src dest;
             Log LError (PStr ("Error recursively copying files from " +:+ to_str src
                               +:+ " to " +:+ to_str dest));
             Log LError (PErr e) ]
     end).
Proof.
  unfold recursiveCopy, copyAsync, copy_value.
  erewrite (bind_returned (log_info _)) by apply emit_spec.
  destruct src, dest; try (run_M; by rewrite <- !app_assoc).
  run_M. destruct (copy E (split_path s) (split_path s0) (w_fs w)) as [[e|] fs'];
    run_M; by rewrite <- !app_assoc.
Qed.

(** ** Calls made and paths left alone *)

Lemma calls_app (t1 t2 : list event) : calls (t1 ++ t2) = calls t1 ++ calls t2.
Proof.
  induction t1 as [|e t1 IH]; simpl; [done|].
  destruct (is_call e); simpl; by rewrite IH.
Qed.

Lemma calls_rename_calls src dest files :
  calls (rename_calls src dest files) = rename_calls src dest files.
Proof.
  unfold rename_calls. induction (rename_pairs src dest files) as [|p ps IH]; [done|].
  rewrite fmap_cons. simpl. by rewrite IH.
Qed.

Lemma performs_bind (m k : M unit) w cs1 w1 cs2 w2 :
  performs m w cs1 w1 → performs k w1 cs2 w2 → performs (m ;; k) w (cs1 ++ cs2) w2.
Proof.
  intros [Hm (n1 & Ht1 & Hc1)] [Hk (n2 & Ht2 & Hc2)]. split.
  - by rewrite (bind_returned _ _ _ _ _ Hm).
  - exists (n1 ++ n2). split.
    + by rewrite Ht2, Ht1, app_assoc.
    + by rewrite calls_app, Hc1, Hc2.
Qed.

Lemma performs_ret w : performs (ret tt) w [] w.
Proof. split; [done|]. exists []. by rewrite app_nil_r. Qed.

(** [makeDir] returns normally after one call, the clock and the renames
    in flight untouched, and writes only at the directory and above it. *)
Lemma makeDir_step dir w :
  ∃ w', performs (makeDir dir) w [MkdirpCall dir] w'
        ∧ w_now w' = w_now w
        ∧ w_inflight w' = w_inflight w
        ∧ ∀ q, clear_of q dir → w_fs w' !! q = w_fs w !! q.
Proof.
  eexists. split; [split; [apply makeDir_spec|]|].
  - simpl. destruct (mkdirp_value dir (w_fs w)); simpl; eexists; (split; [reflexivity|done]).
  - simpl. unfold mkdirp_value.
    destruct dir as [| | |s|]; simpl; try done.
    destruct (mkdirp (split_path s) (w_fs w)) as [e|fs'] eqn:Hmk; simpl; [done|].
    split; [done|]. split; [done|]. intros q Hq. destruct (Hq s eq_refl) as [Hq1 _].
    apply (mkdirp_frame _ _ _ _ Hmk). by apply strip_prefix_None.
Qed.

Lemma moveFilesToDir_issue_step src dest w :
  ∃ w', performs (moveFilesToDir_issue src dest) w [ReaddirCall src] w'
        ∧ w_now w' = w_now w
        ∧ w_inflight w' = w_inflight w
        ∧ w_fs w' = w_fs w.
Proof.
  eexists. split; [split; [apply moveFilesToDir_issue_spec|]|].
  - simpl. eexists. by split; [reflexivity|].
  - done.
Qed.

Lemma moveFilesToDir_resume_step src dest w :
  ∃ w', performs (moveFilesToDir_resume src dest) w
          (rename_calls src dest (names_read src (w_fs w))) w'
        ∧ w_now w' = w_now w
        ∧ w_inflight w'
          = w_inflight w ++ rename_pairs src dest (names_read src (w_fs w))
        ∧ w_fs w' = w_fs w.
Proof.
  eexists. split; [split; [apply moveFilesToDir_resume_spec|]|].
  - simpl. unfold names_read.
    destruct (readdir_value src (w_fs w)); simpl; eexists; (split; [reflexivity|]).
    + done.
    + by rewrite calls_rename_calls.
  - simpl. unfold names_read.
    destruct (readdir_value src (w_fs w)); simpl; [|done].
    by rewrite app_nil_r.
Qed.

(** [recursiveCopy] returns normally after one call; what it does to the
    file system is what that call does. *)
Lemma recursiveCopy_step E src dest w :
  ∃ w', performs (recursiveCopy E src dest) w [CopyCall src dest] w'
        ∧ w_now w' = w_now w
        ∧ w_inflight w' = w_inflight w
        ∧ w_fs w' = (copy_value E src dest (w_fs w)).2.
Proof.
  eexists. split; [split; [apply recursiveCopy_spec|]|].
  - simpl. destruct (copy_value E src dest (w_fs w)).1; simpl;
      eexists; (split; [reflexivity|done]).
  - simpl. by destruct (copy_value E src dest (w_fs w)).1.
Qed.

(** ** The archive stage *)

(** [archive] returns normally, having made the calls of
    [archive_calls] in that order; the renames it started are in flight;
    it has written nothing at a path that lies apart from the four
    archive directories and that the copy leaves alone. *)
Lemma archive_run E options w :
  ∃ raw_files norm_files w',
    performs (archive E options) w
      (archive_calls options (w_now w) raw_files norm_files) w'
    ∧ w_inflight w'
      = w_inflight w
        ++ rename_pairs (get options "RAW_DATA_DIR")
             (archivedRawDataDir options (w_now w)) raw_files
        ++ rename_pairs (get options "NORMALIZED_DATA_DIR")
             (archivedNormalizedDataDir options (w_now w)) norm_files
    ∧ ∀ q,
        clear_of q (VStr (datedArchivedDir options (w_now w))) →
        clear_of q (archivedRawDataDir options (w_now w)) →
        clear_of q (archivedNormalizedDataDir options (w_now w)) →
        clear_of q (archivedDownloadDir options (w_now w)) →
        (∀ fs : FS,
           (copy_value E (get options "DOWNLOAD_DIR")
              (archivedDownloadDir options (w_now w)) fs).2 !! q = fs !! q) →
        w_fs w' !! q = w_fs w !! q.
Proof.
  set (date := w_now w).
  destruct (makeDir_step (VStr (datedArchivedDir options date)) w)
    as (w1 & P1 & N1 & I1 & F1).
  destruct (makeDir_step (archivedRawDataDir options date) w1)
    as (w2 & P2 & N2 & I2 & F2).
  destruct (makeDir_step (archivedNormalizedDataDir options date) w2)
    as (w3 & P3 & N3 & I3 & F3).
  destruct (moveFilesToDir_issue_step (get options "RAW_DATA_DIR")
              (archivedRawDataDir options date) w3) as (w4 & P4 & N4 & I4 & F4).
  destruct (moveFilesToDir_issue_step (get options "NORMALIZED_DATA_DIR")
              (archivedNormalizedDataDir options date) w4) as (w5 & P5 & N5 & I5 & F5).
  destruct (moveFilesToDir_resume_step (get options "RAW_DATA_DIR")
              (archivedRawDataDir options date) w5) as (w6 & P6 & N6 & I6 & F6).
  destruct (moveFilesToDir_resume_step (get options "NORMALIZED_DATA_DIR")
              (archivedNormalizedDataDir options date) w6) as (w7 & P7 & N7 & I7 & F7).
  destruct (makeDir_step (archivedDownloadDir options date) w7)
    as (w8 & P8 & N8 & I8 & F8).
  destruct (recursiveCopy_step E (get options "DOWNLOAD_DIR")
              (archivedDownloadDir options date) w8) as (w9 & P9 & N9 & I9 & F9).
  exists (names_read (get options "RAW_DATA_DIR") (w_fs w5)),
         (names_read (get options "NORMALIZED_DATA_DIR") (w_fs w6)).
  exists (if truthy (get options "SKIP_ARCHIVE_DOWNLOAD") then w7 else w9).
  split; [|split].
  - assert (Hlast : performs
              (if negb (truthy (get options "SKIP_ARCHIVE_DOWNLOAD"))
               then makeDir (archivedDownloadDir options date) ;;
                    recursiveCopy E (get options "DOWNLOAD_DIR")
                      (archivedDownloadDir options date)
               else ret tt)
              w7
              (if truthy (get options "SKIP_ARCHIVE_DOWNLOAD") then []
               else [ MkdirpCall (archivedDownloadDir options date);
                      CopyCall (get options "DOWNLOAD_DIR")
                        (archivedDownloadDir options date) ])
              (if truthy (get options "SKIP_ARCHIVE_DOWNLOAD") then w7 else w9)).
    { destruct (truthy (get options "SKIP_ARCHIVE_DOWNLOAD")); simpl.
      - apply performs_ret.
      - apply (performs_bind _ _ _ _ _ _ _ P8 P9). }
    pose proof (performs_bind _ _ _ _ _ _ _ P7 Hlast) as H7.
    pose proof (performs_bind _ _ _ _ _ _ _ P6 H7) as H6.
    pose proof (performs_bind _ _ _ _ _ _ _ P5 H6) as H5.
    pose proof (performs_bind _ _ _ _ _ _ _ P4 H5) as H4.
    pose proof (performs_bind _ _ _ _ _ _ _ P3 H4) as H3.
    pose proof (performs_bind _ _ _ _ _ _ _ P2 H3) as H2.
    pose proof (performs_bind _ _ _ _ _ _ _ P1 H2) as H1.
    exact H1.
  - assert (H7 : w_inflight w7
                 = w_inflight w
                   ++ rename_pairs (get options "RAW_DATA_DIR")
                        (archivedRawDataDir options date)
                        (names_read (get options "RAW_DATA_DIR") (w_fs w5))
                   ++ rename_pairs (get options "NORMALIZED_DATA_DIR")
                        (archivedNormalizedDataDir options date)
                        (names_read (get options "NORMALIZED_DATA_DIR") (w_fs w6))).
    { by rewrite I7, I6, I5, I4, I3, I2, I1, app_assoc. }
    destruct (truthy (get options "SKIP_ARCHIVE_DOWNLOAD")); [done|].
    by rewrite I9, I8.
  - intros q Q1 Q2 Q3 Q4 Q5.
    assert (H7 : w_fs w7 !! q = w_fs w !! q).
    { by rewrite F7, F6, F5, F4, F3, F2, F1. }
    destruct (truthy (get options "SKIP_ARCHIVE_DOWNLOAD")); [done|].
    by rewrite F9, Q5, F8.
Qed.

Lemma archive_returns E options w : (archive E options w).1 = Returned tt.
Proof.
  destruct (archive_run E options w) as (rf & nf & w' & [Hrun _] & _ & _).
  by rewrite Hrun.
Qed.

(** C7, as the code has it. Two calls of [makeDir] in a row never throw,
    and the second leaves the file system as the first left it.  When no
    regular file stands at the path or above it, the directory is there
    after the first call and after the second.  When one does, each call
    logs the failure and swallows it, and leaves the file system as it
    was: a directory that was not there is not there afterwards.
    [archive] itself never throws, also when run again after a first run
    has settled. *)
Theorem makeDir_idempotent (dir : value) (w : World) :
  (makeDir dir w).1 = Returned tt
  ∧ (makeDir dir (makeDir dir w).2).1 = Returned tt
  ∧ w_fs (makeDir dir (makeDir dir w).2).2 = w_fs (makeDir dir w).2
  ∧ (∀ s,
       dir = VStr s → split_path s ≠ [] →
       (∀ n content, w_fs w !! take (S n) (split_path s) ≠ Some (File content)) →
       w_fs (makeDir dir w).2 !! split_path s = Some Dir
       ∧ w_fs (makeDir dir (makeDir dir w).2).2 !! split_path s = Some Dir)
  ∧ (∀ s n content,
       dir = VStr s → (n < length (split_path s))%nat →
       w_fs w !! take (S n) (split_path s) = Some (File content) →
       ∃ e,
         (makeDir dir w).2
         = add_events w
             [ Log LInfo (PStr ("Making directory " +:+ s)); MkdirpCall dir;
               Log LError (PStr ("Error to make dir " +:+ s));
               Log LError (PErr e) ]
         ∧ (makeDir dir (makeDir dir w).2).2
           = add_events (makeDir dir w).2
               [ Log LInfo (PStr ("Making directory " +:+ s)); MkdirpCall dir;
                 Log LError (PStr ("Error to make dir " +:+ s));
                 Log LError (PErr e) ]
         ∧ w_fs (makeDir dir w).2 = w_fs w
         ∧ w_fs (makeDir dir (makeDir dir w).2).2 = w_fs w
         ∧ (w_fs w !! split_path s ≠ Some Dir →
            w_fs (makeDir dir w).2 !! split_path s ≠ Some Dir
            ∧ w_fs (makeDir dir (makeDir dir w).2).2 !! split_path s ≠ Some Dir))
  ∧ (∀ E options,
       (archive E options w).1 = Returned tt
       ∧ (archive E options (settle (archive E options w).2)).1 = Returned tt).
Proof.
  assert (Hfs : w_fs (makeDir dir (makeDir dir w).2).2 = w_fs (makeDir dir w).2).
  { rewrite !makeDir_spec. simpl.
    destruct (mkdirp_value dir (w_fs w)) as [e|fs'] eqn:Hmk; simpl.
    - by rewrite Hmk.
    - unfold mkdirp_value in *. destruct dir as [| | |s|]; try done.
      by rewrite (mkdirp_idempotent _ _ _ Hmk). }
  split; [by rewrite makeDir_spec|]. split; [by rewrite makeDir_spec|].
  split; [exact Hfs|]. split; [|split].
  - intros s -> Hne Hclear. rewrite Hfs.
    cut (w_fs (makeDir (VStr s) w).2 !! split_path s = Some Dir); [by split|].
    rewrite makeDir_spec. simpl.
    destruct (mkdirp_go_clear [] (split_path s) (w_fs w) Hclear) as [fs' Hmk].
    unfold mkdirp. rewrite Hmk. simpl.
    by apply (mkdirp_created _ _ _ Hne Hmk).
  - intros s n content -> Hn Hfile.
    destruct (mkdirp_go_blocked [] (split_path s) (w_fs w) n content Hn Hfile)
      as [e Hmk].
    assert (Hfirst : (makeDir (VStr s) w).2
                     = add_events w
                         [ Log LInfo (PStr ("Making directory " +:+ s));
                           MkdirpCall (VStr s);
                           Log LError (PStr ("Error to make dir " +:+ s));
                           Log LError (PErr e) ]).
    { rewrite makeDir_spec. simpl. unfold mkdirp. by rewrite Hmk. }
    assert (Hfs1 : w_fs (makeDir (VStr s) w).2 = w_fs w) by by rewrite Hfirst.
    assert (Hsecond : (makeDir (VStr s) (makeDir (VStr s) w).2).2
                      = add_events (makeDir (VStr s) w).2
                          [ Log LInfo (PStr ("Making directory " +:+ s));
                            MkdirpCall (VStr s);
                            Log LError (PStr ("Error to make dir " +:+ s));
                            Log LError (PErr e) ]).
    { rewrite (makeDir_spec _ (makeDir (VStr s) w).2).
      unfold mkdirp_value, mkdirp. cbn [snd to_str]. by rewrite Hfs1, Hmk. }
    exists e. split; [exact Hfirst|]. split; [exact Hsecond|].
    split; [exact Hfs1|]. split; [by rewrite Hfs, Hfs1|].
    intros Habsent. by rewrite Hfs, Hfs1.
  - intros E options. split; apply archive_returns.
Qed.

Lemma makeDir_idempotent_witness :
  w_fs (makeDir (VStr "archived/2024/03/07")
          (makeDir (VStr "archived/2024/03/07") sample_world).2).2
    !! ["archived"; "2024"; "03"; "07"] = Some Dir
  ∧ w_fs (makeDir (VStr "blocked/dir")
            (makeDir (VStr "blocked/dir") blocked_world).2).2
    = w_fs blocked_world.
Proof.
  split.
  - destruct (makeDir_idempotent (VStr "archived/2024/03/07") sample_world)
      as (_ & _ & _ & H & _).
    destruct (H "archived/2024/03/07" eq_refl) as [_ H2].
    + by vm_compute.
    + intros n content.
      destruct n as [|[|[|[|n]]]]; by vm_compute.
    + exact H2.
  - destruct (makeDir_idempotent (VStr "blocked/dir") blocked_world)
      as (_ & _ & _ & _ & H & _).
    destruct (H "blocked/dir" 0%nat "not a directory" eq_refl) as (e & _ & _ & _ & H2 & _).
    + vm_compute. lia.
    + by vm_compute.
    + exact H2.
Defined.

(** C7, as stated, fails: with a regular file in the way, both calls of
    [makeDir] return normally and the directory is not there. *)
Lemma makeDir_blocked_not_present :
  split_path "blocked/dir" = ["blocked"; "dir"]
  ∧ (makeDir (VStr "blocked/dir") blocked_world).1 = Returned tt
  ∧ (makeDir (VStr "blocked/dir")
       (makeDir (VStr "blocked/dir") blocked_world).2).1 = Returned tt
  ∧ w_fs (makeDir (VStr "blocked/dir")
            (makeDir (VStr "blocked/dir") blocked_world).2).2
      !! ["blocked"; "dir"] = None.
Proof. repeat split; by vm_compute. Qed.

(** C6, as the code has it. Whatever the copy does, [recursiveCopy]
    returns normally, does to the file system what the one copy from
    source to destination does and nothing more, and logs the error of a
    copy that fails instead of raising it.  With the copy behaving as
    the reference copy (directories merged, no file overwritten, names
    beginning with a dot and junk names left out, whatever the list of
    junk names): nothing that was in the file system, so nothing in the
    source, is deleted or modified, error or no error, and nothing is
    added at or below the source either when source and destination lie
    apart; when the source is a directory and the copy reports no error,
    every entry of the source with no filtered name on its path is found
    at the same relative path below the destination, and a regular file
    whose own name is filtered is not written there. *)
Theorem recursiveCopy_success_path (E : Externals) (s d : string) (w : World) :
  (recursiveCopy E (VStr s) (VStr d) w).1 = Returned tt
  ∧ w_fs (recursiveCopy E (VStr s) (VStr d) w).2
    = (copy E (split_path s) (split_path d) (w_fs w)).2
  ∧ (∀ e,
       (copy E (split_path s) (split_path d) (w_fs w)).1 = Some e →
       Log LError (PErr e) ∈ w_trace (recursiveCopy E (VStr s) (VStr d) w).2)
  ∧ (∀ junk,
       copy E = merge_copy junk →
       (∀ q n,
          w_fs w !! q = Some n →
          w_fs (recursiveCopy E (VStr s) (VStr d) w).2 !! q = Some n)
       ∧ (apart (split_path s) (split_path d) →
          ∀ t,
            w_fs (recursiveCopy E (VStr s) (VStr d) w).2 !! (split_path s ++ t)
            = w_fs w !! (split_path s ++ t))
       ∧ (node_at (w_fs w) (split_path s) = Some Dir →
          (merge_copy junk (split_path s) (split_path d) (w_fs w)).1 = None →
          (∀ r n,
             skipped junk r = false →
             w_fs w !! (split_path s ++ r) = Some n →
             node_at (w_fs (recursiveCopy E (VStr s) (VStr d) w).2)
               (split_path d ++ r) = Some n)
          ∧ (∀ r x content,
               w_fs w !! (split_path s ++ r ++ [x]) = Some (File content) →
               dot_name x || junk x = true →
               w_fs (recursiveCopy E (VStr s) (VStr d) w).2
                 !! (split_path d ++ r ++ [x])
               = w_fs w !! (split_path d ++ r ++ [x])))).
Proof.
  assert (Hfs : w_fs (recursiveCopy E (VStr s) (VStr d) w).2
                = (copy E (split_path s) (split_path d) (w_fs w)).2).
  { rewrite recursiveCopy_spec. simpl.
    by destruct (copy E (split_path s) (split_path d) (w_fs w)).1. }
  split; [by rewrite recursiveCopy_spec|]. split; [exact Hfs|]. split.
  - intros e He. rewrite recursiveCopy_spec. simpl. rewrite He. simpl.
    rewrite !elem_of_app, !elem_of_cons. auto 10.
  - intros junk HE. rewrite Hfs, HE. split; [|split].
    + intros q n Hq. by apply merge_copy_preserves.
    + intros Hapart t. by apply merge_copy_source_unchanged.
    + intros Hdir Hok.
      destruct (merge_copy junk (split_path s) (split_path d) (w_fs w))
        as [oe fs'] eqn:Hcp.
      simpl in *. subst oe. split.
      * intros r n Hr Hn.
        by apply (merge_copy_directory_copied junk _ _ (w_fs w) fs' r n Hdir).
      * intros r x content Hn Hx.
        apply (merge_copy_skipped junk _ _ (w_fs w) fs' (r ++ [x]) Hdir Hcp).
        unfold skipped. rewrite existsb_app. simpl. rewrite Hx.
        by rewrite orb_true_r.
Qed.

Lemma recursiveCopy_success_path_witness :
  node_at
    (w_fs (recursiveCopy sample_externals (VStr "dl") (VStr "archived/dl") sample_world).2)
    ["archived"; "dl"; "sub"; "b"] = Some (File "b1")
  ∧ w_fs (recursiveCopy sample_externals (VStr "dl") (VStr "archived/dl") sample_world).2
    !! ["dl"; "sub"; "b"] = Some (File "b1").
Proof.
  destruct (recursiveCopy_success_path sample_externals "dl" "archived/dl" sample_world)
    as (_ & _ & _ & H).
  destruct (H os_junk eq_refl) as (Hkeep & Hsrc & Hcopy).
  split.
  - destruct (Hcopy ltac:(by vm_compute) ltac:(by vm_compute)) as [Hcopied _].
    apply (Hcopied ["sub"; "b"]); by vm_compute.
  - transitivity (w_fs sample_world !! (split_path "dl" ++ ["sub"; "b"])).
    + apply (Hsrc ltac:(split; by vm_compute) ["sub"; "b"]).
    + by vm_compute.
Defined.

(** C6, as stated, fails, in two ways.  The destination already holds a
    file of the same name: the copy stops on it, [recursiveCopy] returns
    normally, and the destination still holds the old file, not a copy
    of the source's.  The source holds a file whose name begins with a
    dot: the copy reports no error, the other file is copied, and the
    destination has no copy of that one. *)
Lemma recursiveCopy_conflict_no_copy :
  node_at (w_fs conflict_world) (split_path "dl") = Some Dir
  ∧ node_at (w_fs conflict_world) (split_path "kept") = Some Dir
  ∧ (recursiveCopy sample_externals (VStr "dl") (VStr "kept") conflict_world).1
    = Returned tt
  ∧ w_fs conflict_world !! (split_path "dl" ++ ["a"]) = Some (File "new")
  ∧ w_fs (recursiveCopy sample_externals (VStr "dl") (VStr "kept") conflict_world).2
      !! (split_path "kept" ++ ["a"]) = Some (File "old")
  ∧ node_at (w_fs hidden_world) (split_path "dl") = Some Dir
  ∧ (recursiveCopy sample_externals (VStr "dl") (VStr "out") hidden_world).1
    = Returned tt
  ∧ (copy sample_externals (split_path "dl") (split_path "out") (w_fs hidden_world)).1
    = None
  ∧ w_fs hidden_world !! (split_path "dl" ++ [".cache"]) = Some (File "c1")
  ∧ w_fs (recursiveCopy sample_externals (VStr "dl") (VStr "out") hidden_world).2
      !! (split_path "out" ++ ["a"]) = Some (File "a1")
  ∧ w_fs (recursiveCopy sample_externals (VStr "dl") (VStr "out") hidden_world).2
      !! (split_path "out" ++ [".cache"]) = None.
Proof. repeat split; by vm_compute. Qed.

Lemma datedArchivedDir_scenario options date :
  get options "ARCHIVED_DIR" = VStr "archived" →
  year date = 2024%N → month date = 3%N → day date = 7%N →
  datedArchivedDir options date = "archived/2024/03/07".
Proof.
  intros Hroot Hy Hm Hd. unfold datedArchivedDir. rewrite Hroot.
  destruct date as [y m d h mi se ms]. simpl in Hy, Hm, Hd. subst. by vm_compute.
Qed.

Lemma js_or_falsy a b : truthy a = false → js_or a b = b.
Proof. unfold js_or. by intros ->. Qed.

Lemma apart_heads (c c' : string) (p p' : path) : c ≠ c' → apart (c :: p) (c' :: p').
Proof.
  intros Hne. split; simpl.
  - by rewrite decide_False.
  - by rewrite decide_False.
Qed.

Lemma split_path_dated :
  split_path "archived/2024/03/07" = ["archived"; "2024"; "03"; "07"].
Proof. by vm_compute. Qed.

Lemma split_path_dated_raw :
  split_path "archived/2024/03/07/raw" = ["archived"; "2024"; "03"; "07"; "raw"].
Proof. by vm_compute. Qed.

Lemma split_path_dated_normalized :
  split_path "archived/2024/03/07/normalized"
  = ["archived"; "2024"; "03"; "07"; "normalized"].
Proof. by vm_compute. Qed.

Lemma split_path_dated_download :
  split_path "archived/2024/03/07/download"
  = ["archived"; "2024"; "03"; "07"; "download"].
Proof. by vm_compute. Qed.

(** The scenario, run: the calls as the model orders them, the renames
    left in flight, and the file system once they have settled. *)
Example archive_scenario_run :
  calls (w_trace (archive sample_externals archive_options sample_world).2)
  = [ MkdirpCall (VStr "archived/2024/03/07");
      MkdirpCall (VStr "archived/2024/03/07/raw");
      MkdirpCall (VStr "archived/2024/03/07/normalized");
      ReaddirCall (VStr "raw");
      ReaddirCall (VStr "norm");
      RenameCall "raw/data.json" "archived/2024/03/07/raw/data.json";
      RenameCall "norm/n.json" "archived/2024/03/07/normalized/n.json";
      MkdirpCall (VStr "archived/2024/03/07/download");
      CopyCall (VStr "dl") (VStr "archived/2024/03/07/download") ]
  ∧ w_inflight (archive sample_externals archive_options sample_world).2
    = [ ("raw/data.json", "archived/2024/03/07/raw/data.json");
        ("norm/n.json", "archived/2024/03/07/normalized/n.json") ]
  ∧ w_fs (settle (archive sample_externals archive_options sample_world).2)
    = list_to_map
        [ (["raw"], Dir); (["norm"], Dir);
          (["dl"], Dir); (["dl"; "a"], File "a1");
          (["dl"; "sub"], Dir); (["dl"; "sub"; "b"], File "b1");
          (["archived"], Dir); (["archived"; "2024"], Dir);
          (["archived"; "2024"; "03"], Dir);
          (["archived"; "2024"; "03"; "07"], Dir);
          (["archived"; "2024"; "03"; "07"; "raw"], Dir);
          (["archived"; "2024"; "03"; "07"; "raw"; "data.json"], File "x");
          (["archived"; "2024"; "03"; "07"; "normalized"], Dir);
          (["archived"; "2024"; "03"; "07"; "normalized"; "n.json"], File "y");
          (["archived"; "2024"; "03"; "07"; "download"], Dir);
          (["archived"; "2024"; "03"; "07"; "download"; "a"], File "a1");
          (["archived"; "2024"; "03"; "07"; "download"; "sub"], Dir);
          (["archived"; "2024"; "03"; "07"; "download"; "sub"; "b"], File "b1") ].
Proof. repeat split; by vm_compute. Qed.

(** With the skip flag set, the download directory is neither made nor
    copied. *)
Example archive_scenario_skip :
  calls (w_trace (archive sample_externals
                    (<["SKIP_ARCHIVE_DOWNLOAD" := VBool true]> archive_options)
                    sample_world).2)
  = [ MkdirpCall (VStr "archived/2024/03/07");
      MkdirpCall (VStr "archived/2024/03/07/raw");
      MkdirpCall (VStr "archived/2024/03/07/normalized");
      ReaddirCall (VStr "raw");
      ReaddirCall (VStr "norm");
      RenameCall "raw/data.json" "archived/2024/03/07/raw/data.json";
      RenameCall "norm/n.json" "archived/2024/03/07/normalized/n.json" ].
Proof. by vm_compute. Qed.

(** A second run on the same day, after the first has settled: it
    returns normally; the directories exist already and making them is
    no error; the copy stops on the files that the first run copied, and
    that error is logged. *)
Example archive_twice_same_day :
  let second :=
    archive sample_externals archive_options
      (settle (archive sample_externals archive_options sample_world).2) in
  second.1 = Returned tt
  ∧ last (w_trace second.2) = Some (Log LError (PErr (Errno "EEXIST" ""))).
Proof. split; by vm_compute. Qed.

(** * Further properties *)

(** ** The acquisition stage *)

Lemma downloadDataset_spec E url filename w :
  downloadDataset E url filename w
  = (Returned filename,
     match write_value filename (downloaded E url) (w_fs w) with
     | inr fs' =>
         add_events (with_fs w fs')
           (download_events E url
            ++ [ WriteFileCall filename;
                 Log LDebug (PStr ("Downloaded to " +:+ filename)) ])
     | inl e =>
         add_events w
           (download_events E url
            ++ [ WriteFileCall filename;
                 Log LError (PStr ("Error writing file " +:+ filename));
                 Log LError (PErr e);
                 Log LDebug (PStr ("Downloaded to " +:+ filename)) ])
     end).
Proof.
  unfold downloadDataset, writeFileAsync, write_value, downloaded, download_events.
  destruct (download E url) as [err|bytes]; run_M.
  - by rewrite <- !app_assoc.
  - unfold lift_fs. destruct (writeFile (split_path filename) bytes (w_fs w));
      run_M; by rewrite <- !app_assoc.
Qed.

(** X1. [downloadDataset] never throws: whatever the download and the
    write do, it returns the file name it was given, and its last record
    is ["Downloaded to ..."], also after a failure. *)
Theorem downloadDataset_returns_filename (E : Externals) (url : value)
    (filename : string) (w : World) :
  (downloadDataset E url filename w).1 = Returned filename
  ∧ last (w_trace (downloadDataset E url filename w).2)
    = Some (Log LDebug (PStr ("Downloaded to " +:+ filename))).
Proof.
  rewrite downloadDataset_spec. simpl. split; [done|].
  destruct (write_value filename (downloaded E url) (w_fs w)); simpl;
    by rewrite !last_app.
Qed.

Lemma parent_snoc (p : path) (x : string) : parent (p ++ [x]) = p.
Proof.
  unfold parent. rewrite length_app. simpl.
  replace (length p + 1 - 1)%nat with (length p) by lia.
  by rewrite take_app_length.
Qed.

Lemma writeFile_ok (p : path) (content : string) (fs : FS) :
  p ≠ [] → node_at fs (parent p) = Some Dir → fs !! p ≠ Some Dir →
  writeFile p content fs = inr (<[p := File content]> fs).
Proof.
  intros Hp Hparent Hfile. unfold writeFile.
  destruct p as [|c p]; [done|]. rewrite Hparent.
  by destruct (fs !! (c :: p)) as [[?|]|].
Qed.

(** X2. When the download succeeds, the directory of the file exists and
    no directory stands at the file's own path, [downloadDataset] writes
    the payload there, over whatever file was there, changes nothing
    else, and logs no error. *)
Theorem downloadDataset_writes_payload (E : Externals) (url : value)
    (filename bytes : string) (w : World) :
  download E url = inr bytes →
  split_path filename ≠ [] →
  node_at (w_fs w) (parent (split_path filename)) = Some Dir →
  w_fs w !! split_path filename ≠ Some Dir →
  downloadDataset E url filename w
  = (Returned filename,
     add_events (with_fs w (<[split_path filename := File bytes]> (w_fs w)))
       [ DownloadCall url; WriteFileCall filename;
         Log LDebug (PStr ("Downloaded to " +:+ filename)) ]).
Proof.
  intros Hdl Hp Hparent Hfile. rewrite downloadDataset_spec.
  unfold write_value, downloaded, download_events. rewrite Hdl.
  by rewrite writeFile_ok.
Qed.

Lemma downloadDataset_writes_payload_witness :
  w_fs (downloadDataset sample_externals (VStr "https://api.example.org/dataset")
          "raw/data.json" sample_world).2 !! ["raw"; "data.json"]
  = Some (File "[]").
Proof.
  rewrite (downloadDataset_writes_payload sample_externals
             (VStr "https://api.example.org/dataset") "raw/data.json" "[]" sample_world).
  - by vm_compute.
  - reflexivity.
  - by vm_compute.
  - by vm_compute.
  - by vm_compute.
Defined.

(** X3. When the download fails, [downloadDataset] logs the failure and
    goes on to the write all the same: the call of [writeFile] for the
    file name follows the two error records. *)
Theorem downloadDataset_failed_download_still_writes (E : Externals) (url : value)
    (filename : string) (w : World) (err : error) :
  download E url = inl err →
  ∃ rest,
    w_trace (downloadDataset E url filename w).2
    = w_trace w
      ++ [ DownloadCall url;
           Log LError (PStr ("Error downloading from " +:+ to_str url));
           Log LError (PErr err);
           WriteFileCall filename ]
      ++ rest.
Proof.
  intros Hdl. rewrite downloadDataset_spec.
  unfold write_value, downloaded, download_events. rewrite Hdl. simpl.
  eexists. reflexivity.
Qed.

Lemma downloadDataset_failed_download_still_writes_witness :
  ∃ rest,
    w_trace (downloadDataset offline_externals (VStr "https://api.example.org/dataset")
               "raw/data.json" sample_world).2
    = w_trace sample_world
      ++ [ DownloadCall (VStr "https://api.example.org/dataset");
           Log LError (PStr ("Error downloading from "
                             +:+ to_str (VStr "https://api.example.org/dataset")));
           Log LError (PErr (Failure "getaddrinfo ENOTFOUND"));
           WriteFileCall "raw/data.json" ]
      ++ rest.
Proof.
  apply (downloadDataset_failed_download_still_writes offline_externals
           (VStr "https://api.example.org/dataset") "raw/data.json" sample_world
           (Failure "getaddrinfo ENOTFOUND")).
  reflexivity.
Defined.
Lemma split_go_app_slash (a b cur : string) :
  split_go (a +:+ String "/" b) cur = split_go a cur ++ split_path b.
Proof.
  revert cur. induction a as [|c a IH]; intros cur.
  - change ("" +:+ String "/" b) with (String "/" b). simpl.
    by destruct (String.eqb cur "").
  - change (String c a +:+ String "/" b) with (String c (a +:+ String "/" b)).
    simpl. destruct (Ascii.eqb c "/"); [|apply IH].
    destruct (String.eqb cur ""); simpl; by rewrite IH.
Qed.

(** The components of [a + '/' + b] are those of [a], then those of [b]. *)
Lemma split_path_slash (a b : string) :
  split_path (a +:+ "/" +:+ b) = split_path a ++ split_path b.
Proof. apply split_go_app_slash. Qed.

Lemma getDataset_run (E : Externals) (options : obj) (w : World) :
  ∃ w',
    performs (getDataset E options) w
      [ MkdirpCall (get options "RAW_DATA_DIR");
        DownloadCall (get options "GET_DATASET_ENDPOINT");
        WriteFileCall (to_str (get options "RAW_DATA_DIR") +:+ "/"
                       +:+ to_str (get options "DATA_FILE")) ] w'.
Proof.
  destruct (makeDir_step (get options "RAW_DATA_DIR") w) as (w1 & [Hmk (n1 & Ht1 & Hc1)] & _).
  eexists. split.
  - unfold getDataset. rewrite (bind_returned _ _ _ _ _ Hmk).
    unfold bind at 1. rewrite downloadDataset_spec. reflexivity.
  - simpl.
    destruct (write_value _ _ (w_fs w1)); simpl; rewrite Ht1;
      (eexists; split; [by rewrite <- app_assoc|]);
      rewrite calls_app, Hc1; unfold download_events;
      by destruct (download E _).
Qed.

(** X4. [getDataset] never throws, and makes three calls in this order:
    it makes the raw-data directory, downloads from the endpoint, and
    writes to the text [RAW_DATA_DIR + '/' + DATA_FILE]; when both
    options are missing that text is [undefined/undefined]. *)
Theorem getDataset_calls (E : Externals) (options : obj) (w : World) :
  ∃ w',
    performs (getDataset E options) w
      [ MkdirpCall (get options "RAW_DATA_DIR");
        DownloadCall (get options "GET_DATASET_ENDPOINT");
        WriteFileCall (to_str (get options "RAW_DATA_DIR") +:+ "/"
                       +:+ to_str (get options "DATA_FILE")) ] w'
    ∧ (options !! "RAW_DATA_DIR" = None → options !! "DATA_FILE" = None →
       to_str (get options "RAW_DATA_DIR") +:+ "/" +:+ to_str (get options "DATA_FILE")
       = "undefined/undefined").
Proof.
  destruct (getDataset_run E options w) as [w' Hrun].
  exists w'. split; [exact Hrun|].
  intros Hr Hf. unfold get. by rewrite Hr, Hf.
Qed.

Lemma getDataset_calls_witness :
  ∃ w',
    performs (getDataset sample_externals ∅) sample_world
      [ MkdirpCall VUndefined; DownloadCall VUndefined;
        WriteFileCall "undefined/undefined" ] w'.
Proof.
  destruct (getDataset_calls sample_externals ∅ sample_world) as (w' & Hrun & Hname).
  exists w'. rewrite <- Hname by reflexivity. exact Hrun.
Defined.

(** X5. When no regular file stands on the way to the raw-data
    directory, the data file has a plain name, no directory stands at its
    path and the download succeeds, [getDataset] leaves the payload in
    [RAW_DATA_DIR/DATA_FILE] and logs no error. *)
Theorem getDataset_stores_dataset (E : Externals) (options : obj) (w : World)
    (dir file bytes : string) :
  get options "RAW_DATA_DIR" = VStr dir →
  get options "DATA_FILE" = VStr file →
  plain_name file →
  (∀ n content, w_fs w !! take (S n) (split_path dir) ≠ Some (File content)) →
  w_fs w !! (split_path dir ++ [file]) ≠ Some Dir →
  download E (get options "GET_DATASET_ENDPOINT") = inr bytes →
  (getDataset E options w).1 = Returned tt
  ∧ w_fs (getDataset E options w).2 !! (split_path dir ++ [file]) = Some (File bytes)
  ∧ node_at (w_fs (getDataset E options w).2) (split_path dir) = Some Dir
  ∧ (∀ p, Log LError p ∉ drop (length (w_trace w)) (w_trace (getDataset E options w).2)).
Proof.
  intros Hdir Hfile Hplain Hclear Htarget Hdl.
  destruct (mkdirp_go_clear [] (split_path dir) (w_fs w) Hclear) as [fs1 Hmk].
  assert (Hmake : makeDir (VStr dir) w
                  = (Returned tt,
                     add_events (with_fs w fs1)
                       [ Log LInfo (PStr ("Making directory " +:+ dir));
                         MkdirpCall (VStr dir) ])).
  { rewrite makeDir_spec. unfold mkdirp_value, mkdirp. by rewrite Hmk. }
  assert (Hdirnode : node_at fs1 (split_path dir) = Some Dir).
  { destruct (split_path dir) as [|c p] eqn:Hp; [done|].
    simpl. by apply (mkdirp_created (c :: p) (w_fs w) fs1). }
  assert (Hfree : fs1 !! (split_path dir ++ [file]) ≠ Some Dir).
  { rewrite (mkdirp_frame (split_path dir) (w_fs w) fs1); [done|exact Hmk|].
    intros r Heq. apply (f_equal length) in Heq.
    rewrite !length_app in Heq. simpl in Heq. lia. }
  assert (Hname : split_path (dir +:+ "/" +:+ file) = split_path dir ++ [file]).
  { rewrite split_path_slash. by rewrite Hplain. }
  assert (Hrun : getDataset E options w
                 = (Returned tt,
                    add_events
                      (with_fs w (<[split_path dir ++ [file] := File bytes]> fs1))
                      [ Log LInfo (PStr ("Making directory " +:+ dir));
                        MkdirpCall (VStr dir);
                        DownloadCall (get options "GET_DATASET_ENDPOINT");
                        WriteFileCall (dir +:+ "/" +:+ file);
                        Log LDebug (PStr ("Downloaded to " +:+ dir +:+ "/" +:+ file)) ])).
  { unfold getDataset. rewrite Hdir, Hfile. simpl to_str.
    rewrite (bind_returned _ _ _ _ _ Hmake). unfold bind at 1.
    rewrite (downloadDataset_writes_payload E _ _ bytes); simpl; rewrite ?Hname.
    - unfold ret, add_events, with_fs. simpl. by rewrite <- !app_assoc.
    - exact Hdl.
    - by destruct (split_path dir).
    - by rewrite parent_snoc.
    - exact Hfree. }
  rewrite Hrun. simpl. split; [done|]. split; [apply lookup_insert_eq|]. split.
  - destruct (split_path dir) as [|c p] eqn:Hp; [done|]. simpl.
    rewrite lookup_insert_ne; [exact Hdirnode|].
    intros Heq. apply (f_equal length) in Heq. simpl in Heq.
    rewrite length_app in Heq. simpl in Heq. lia.
  - intros p. rewrite drop_app_length.
    rewrite !elem_of_cons, elem_of_nil. intros [?|[?|[?|[?|[?|[]]]]]]; discriminate.
Qed.

Lemma getDataset_stores_dataset_witness :
  w_fs (getDataset sample_externals dataset_options sample_world).2
    !! ["work"; "raw"; "data.json"] = Some (File "[]").
Proof.
  destruct (getDataset_stores_dataset sample_externals dataset_options sample_world
              "work/raw" "data.json" "[]") as (_ & H & _).
  - by vm_compute.
  - by vm_compute.
  - by vm_compute.
  - intros n content. destruct n as [|[|n]]; by vm_compute.
  - by vm_compute.
  - by vm_compute.
  - exact H.
Defined.
(** ** The orchestrator, stage by stage *)

Lemma bind_threw {A B} (m : M A) (k : A → M B) w e w' :
  m w = (Threw e, w') → bind m k w = (Threw e, w').
Proof. intros H. unfold bind. by rewrite H. Qed.

Lemma processDataset_unfold (E : Externals) (options : obj) (w : World) :
  processDataset E options w
  = (Returned tt,
     match (getDataset E options ;; normalize E options ;; load E options ;;
            archive E options)
             (add_events w [Log LInfo (PStr "Processing dataset")]) with
     | (Returned _, w') =>
         add_events w' [Log LInfo (PStr "Finish processing dataset")]
     | (Threw err, w') =>
         add_events w' [ Log LError (PStr "Error processing dataset");
                         Log LError (PErr err);
                         Log LInfo (PStr "Finish processing dataset") ]
     end).
Proof.
  unfold processDataset, processDataset_with.
  erewrite (bind_returned (log_info _)) by apply emit_spec.
  unfold try_catch at 1. unfold bind at 1.
  destruct ((getDataset E options ;; normalize E options ;; load E options ;;
             archive E options) _) as [[[]|err] w'].
  - reflexivity.
  - run_M. by rewrite <- !app_assoc.
Qed.

(** X6. A stage that throws ends the run of the stages: when the
    normalizer throws, neither the loader nor [archive] is run, and when
    the loader throws, [archive] is not run; [processDataset] logs the
    error and returns in the world the failed stage left. *)
Theorem processDataset_stops_at_failed_stage
    (E : Externals) (options : obj) (w : World) :
  let acquired :=
    (getDataset E options (add_events w [Log LInfo (PStr "Processing dataset")])).2 in
  (∀ err w2,
     normalize E options acquired = (Threw err, w2) →
     processDataset E options w
     = (Returned tt,
        add_events w2 [ Log LError (PStr "Error processing dataset");
                        Log LError (PErr err);
                        Log LInfo (PStr "Finish processing dataset") ]))
  ∧ (∀ err w2 w3,
       normalize E options acquired = (Returned tt, w2) →
       load E options w2 = (Threw err, w3) →
       processDataset E options w
       = (Returned tt,
          add_events w3 [ Log LError (PStr "Error processing dataset");
                          Log LError (PErr err);
                          Log LInfo (PStr "Finish processing dataset") ])).
Proof.
  intros acquired. subst acquired.
  destruct (getDataset_run E options
              (add_events w [Log LInfo (PStr "Processing dataset")]))
    as (w1 & Hget & _).
  rewrite Hget. simpl. split.
  - intros err w2 Hn. rewrite processDataset_unfold.
    rewrite (bind_returned _ _ _ _ _ Hget).
    by rewrite (bind_threw _ _ _ _ _ Hn).
  - intros err w2 w3 Hn Hl. rewrite processDataset_unfold.
    rewrite (bind_returned _ _ _ _ _ Hget), (bind_returned _ _ _ _ _ Hn).
    by rewrite (bind_threw _ _ _ _ _ Hl).
Qed.

(** X7. When the normalizer and the loader return normally, so does
    every stage: the four run in order, each in the world the one before
    left, and [processDataset] logs no ["Error processing dataset"]. *)
Theorem processDataset_clean_run
    (E : Externals) (options : obj) (w w2 w3 : World) :
  normalize E options
    (getDataset E options (add_events w [Log LInfo (PStr "Processing dataset")])).2
  = (Returned tt, w2) →
  load E options w2 = (Returned tt, w3) →
  processDataset E options w
  = (Returned tt,
     add_events (archive E options w3).2
       [Log LInfo (PStr "Finish processing dataset")]).
Proof.
  destruct (getDataset_run E options
              (add_events w [Log LInfo (PStr "Processing dataset")]))
    as (w1 & Hget & _).
  rewrite Hget. simpl. intros Hn Hl. rewrite processDataset_unfold.
  rewrite (bind_returned _ _ _ _ _ Hget), (bind_returned _ _ _ _ _ Hn),
    (bind_returned _ _ _ _ _ Hl).
  pose proof (archive_returns E options w3) as Ha.
  destruct (archive E options w3) as [[[]|e] w4]; [done|discriminate].
Qed.
Lemma processDataset_stops_at_failed_stage_witness :
  processDataset failing_normalizer_externals dataset_options sample_world
  = (Returned tt,
     add_events
       (getDataset failing_normalizer_externals dataset_options
          (add_events sample_world [Log LInfo (PStr "Processing dataset")])).2
       [ Log LError (PStr "Error processing dataset");
         Log LError (PErr (Failure "normalizer failed"));
         Log LInfo (PStr "Finish processing dataset") ]).
Proof.
  destruct (processDataset_stops_at_failed_stage failing_normalizer_externals
              dataset_options sample_world) as [H _].
  apply H. reflexivity.
Defined.

Lemma processDataset_clean_run_witness :
  processDataset sample_externals dataset_options sample_world
  = (Returned tt,
     add_events
       (archive sample_externals dataset_options
          (getDataset sample_externals dataset_options
             (add_events sample_world [Log LInfo (PStr "Processing dataset")])).2).2
       [Log LInfo (PStr "Finish processing dataset")]).
Proof.
  eapply (processDataset_clean_run sample_externals dataset_options sample_world).
  - reflexivity.
  - reflexivity.
Defined.
(** ** The trigger: missing template, failed submission, missing budget *)

(** X8. When [config.INPUT] is [undefined] and there is something to
    write (dry run, daily mode or date-range mode), [scrape] throws a
    [TypeError] at the first write: nothing is submitted and the heap is
    as it was. *)
Theorem scrape_undefined_template_throws
    (E : Externals) (options config : obj) (w : World) :
  get config "INPUT" = VUndefined →
  truthy (get options "DRY_RUN") = true
  ∨ truthy (get options "DAILY") = true
  ∨ (truthy (get options "START_DATE") = true ∧ truthy (get options "END_DATE") = true) →
  ∃ msg,
    scrape E options config w
    = (Threw (TypeError msg),
       add_events w [ Log LInfo (PStr "Input config:");
                      Log LInfo (PData VUndefined None) ]).
Proof.
  intros Hin Hwrite. exists "Cannot set property of undefined".
  unfold scrape. rewrite Hin, truthy_js_and.
  erewrite (bind_returned (log_info _)) by apply emit_spec.
  erewrite (bind_returned (log_data _ _)) by reflexivity.
  destruct (truthy (get options "DRY_RUN")) eqn:Hdry.
  - run_M. by rewrite <- !app_assoc.
  - erewrite (bind_returned (ret tt)) by reflexivity.
    destruct (truthy (get options "DAILY")) eqn:Hd.
    + run_M. unfold getDailyOptions, startOfToday. run_M. by rewrite <- !app_assoc.
    + destruct Hwrite as [?|[?|[Hs He]]]; try discriminate.
      rewrite Hs, He. simpl.
      unfold getDateRangeOptions. run_M. by rewrite <- !app_assoc.
Qed.

Lemma scrape_undefined_template_throws_witness :
  ∃ msg,
    scrape sample_externals ambiguous_options ∅ sample_world
    = (Threw (TypeError msg),
       add_events sample_world [ Log LInfo (PStr "Input config:");
                                 Log LInfo (PData VUndefined None) ]).
Proof.
  apply scrape_undefined_template_throws.
  - reflexivity.
  - left. by vm_compute.
Defined.

(** X9. With no mode selected, no dry run and [config.INPUT] undefined,
    nothing is written, so nothing throws: [scrape] logs
    ["Invalid command!"] and submits [undefined] as the body. *)
Theorem scrape_undefined_template_submitted
    (E : Externals) (options config : obj) (w : World) :
  get config "INPUT" = VUndefined →
  truthy (get options "DRY_RUN") = false →
  misconfigured options = true →
  scrape E options config w
  = (post_outcome E (get options "RUN_TASK_ENDPOINT") VUndefined None,
     add_events w
       [ Log LInfo (PStr "Input config:");
         Log LInfo (PData VUndefined None);
         Log LError (PStr "Invalid command!");
         Log LDebug (PStr "Running Task with options:");
         Log LDebug (PData VUndefined None);
         PostCall (get options "RUN_TASK_ENDPOINT") VUndefined None ]).
Proof.
  intros Hin Hdry Hm. unfold misconfigured in Hm.
  unfold scrape. rewrite Hin, truthy_js_and, Hdry.
  destruct (truthy (get options "DAILY")); [done|].
  destruct (truthy (get options "START_DATE") && truthy (get options "END_DATE"));
    [done|].
  run_M. destruct (axios_post E _ _ _); simpl; by rewrite <- !app_assoc.
Qed.

Lemma scrape_undefined_template_submitted_witness :
  (scrape sample_externals unscheduled_options ∅ sample_world).1 = Returned tt.
Proof.
  rewrite (scrape_undefined_template_submitted sample_externals unscheduled_options
             ∅ sample_world).
  - reflexivity.
  - reflexivity.
  - by vm_compute.
  - by vm_compute.
Defined.

(** X10. [scrape] has no [catch] of its own: when the submission fails,
    [scrape] throws that error, after the template has been written. *)
Theorem scrape_failed_submission_propagates
    (E : Externals) (options config : obj) (w : World) (l : loc) (o : obj)
    (err : error) :
  get config "INPUT" = VRef l →
  w_heap w !! l = Some o →
  axios_post E (get options "RUN_TASK_ENDPOINT") (VRef l)
    (Some (scrape_overlay E (w_now w) options o)) = Some err →
  (scrape E options config w).1 = Threw err
  ∧ w_heap (scrape E options config w).2 !! l
    = Some (scrape_overlay E (w_now w) options o).
Proof.
  intros Hin Hl Hpost. rewrite (scrape_ref E options config w l o Hin Hl). simpl.
  unfold post_outcome. rewrite Hpost. split; [done|]. apply lookup_insert_eq.
Qed.

Lemma scrape_failed_submission_propagates_witness :
  (scrape unreachable_externals ambiguous_options sample_config sample_world).1
  = Threw (Failure "connect ECONNREFUSED")
  ∧ w_heap (scrape unreachable_externals ambiguous_options sample_config
              sample_world).2 !! 1%positive
    = Some (scrape_overlay unreachable_externals (w_now sample_world)
              ambiguous_options sample_template).
Proof.
  apply (scrape_failed_submission_propagates unreachable_externals
           ambiguous_options sample_config sample_world 1%positive sample_template
           (Failure "connect ECONNREFUSED")).
  - by vm_compute.
  - by vm_compute.
  - reflexivity.
Defined.

(** X11. A budget option that is missing parses to [NaN], and [NaN] is
    what [scrape] writes as the budget in either mode; no error is
    logged for it. *)
Theorem scrape_missing_budget_is_NaN
    (E : Externals) (options config : obj) (w : World) (l : loc) (o : obj) :
  get config "INPUT" = VRef l →
  w_heap w !! l = Some o →
  options !! "REQUESTS_PER_DAY" = None →
  misconfigured options = false →
  ∃ o' : obj,
    w_heap (scrape E options config w).2 !! l = Some o'
    ∧ get o' "maxRequestsPerCrawl" = VNum NaN
    ∧ (∀ p, Log LError p ∉ drop (length (w_trace w)) (w_trace (scrape E options config w).2)).
Proof.
  intros Hin Hl Hmissing Hm.
  assert (Hnan : parseInt (get options "REQUESTS_PER_DAY") = NaN).
  { unfold get. by rewrite Hmissing. }
  rewrite (scrape_ref E options config w l o Hin Hl). simpl.
  exists (scrape_overlay E (w_now w) options o).
  split; [apply lookup_insert_eq|]. split.
  - unfold misconfigured in Hm. unfold scrape_overlay. rewrite Hnan.
    destruct (truthy (get options "DAILY")).
    + apply get_daily_overlay.
    + destruct (truthy (get options "START_DATE") && truthy (get options "END_DATE"));
        [|done].
      unfold range_overlay. by rewrite get_insert_ne, get_insert_eq.
  - intros p. rewrite drop_app_length. unfold scrape_events. rewrite Hm. simpl.
    rewrite !elem_of_cons, elem_of_nil. intros [?|[?|[?|[?|[?|[]]]]]]; discriminate.
Qed.

Lemma scrape_missing_budget_is_NaN_witness :
  ∃ o' : obj,
    w_heap (scrape sample_externals (delete "REQUESTS_PER_DAY" ambiguous_options)
              sample_config sample_world).2 !! 1%positive = Some o'
    ∧ get o' "maxRequestsPerCrawl" = VNum NaN.
Proof.
  destruct (scrape_missing_budget_is_NaN sample_externals
              (delete "REQUESTS_PER_DAY" ambiguous_options) sample_config
              sample_world 1%positive sample_template) as (o' & H1 & H2 & _).
  - by vm_compute.
  - by vm_compute.
  - by vm_compute.
  - by vm_compute.
  - exists o'. by split.
Defined.

(** ** The length of a date range *)

(** X12. For two calendar dates the number of days is at least one, is
    one when the two dates are the same, and does not depend on which of
    the two comes first. *)
Theorem numOfDays_calendar (E : Externals) (ss es : string)
    (sy sm sd ey em ed : Z) :
  differenceInDays E = iso_differenceInDays →
  parse_iso ss = Some (sy, sm, sd) →
  parse_iso es = Some (ey, em, ed) →
  ∃ n : Z,
    numOfDays E (VStr ss) (VStr es) = Finite n
    ∧ numOfDays E (VStr es) (VStr ss) = Finite n
    ∧ 1 ≤ n
    ∧ (ss = es → n = 1).
Proof.
  intros HE Hs He.
  exists (Z.abs (days_from_civil ey em ed - days_from_civil sy sm sd) + 1).
  split; [by apply numOfDays_iso|]. split.
  - rewrite (numOfDays_iso E es ss ey em ed sy sm sd HE He Hs). f_equal. lia.
  - split; [lia|]. intros ->. rewrite Hs in He. injection He as -> -> ->. lia.
Qed.

Lemma numOfDays_calendar_witness :
  ∃ n : Z,
    numOfDays sample_externals (VStr "2024-01-05") (VStr "2024-01-01") = Finite n
    ∧ numOfDays sample_externals (VStr "2024-01-01") (VStr "2024-01-05") = Finite n
    ∧ 1 ≤ n
    ∧ ("2024-01-05" = "2024-01-01" → n = 1).
Proof.
  apply (numOfDays_calendar sample_externals "2024-01-05" "2024-01-01"
           2024 1 5 2024 1 1); reflexivity.
Defined.

(** X13. When [differenceInDays] gives [NaN] for the two dates (one of
    them is not a date), the resolver still writes the dates through and
    writes [NaN] as both budgets. *)
Theorem getDateRangeOptions_invalid_date
    (E : Externals) (w : World) (l : loc) (o : obj) (r d : number) (s e : value) :
  w_heap w !! l = Some o →
  differenceInDays E s e = NaN →
  ∃ o' : obj,
    getDateRangeOptions E (VRef l) r d s e w
    = (Returned tt, with_heap w (<[l := o']> (w_heap w)))
    ∧ get o' "startDate" = s
    ∧ get o' "endDate" = e
    ∧ get o' "maxRequestsPerCrawl" = VNum NaN
    ∧ get o' "maxRequestDepth" = VNum NaN.
Proof.
  intros Hl Hnan. eexists. split; [by apply getDateRangeOptions_ref|].
  assert (Hn : numOfDays E s e = NaN) by (unfold numOfDays; by rewrite Hnan).
  rewrite Hn.
  destruct (get_range_overlay NaN r d s e o) as (H1 & H2 & H3 & H4).
  repeat split; try done.
  - rewrite H3. by destruct r.
  - rewrite H4. by destruct d.
Qed.

Lemma getDateRangeOptions_invalid_date_witness :
  ∃ o' : obj,
    getDateRangeOptions sample_externals (VRef 1%positive) (Finite 10) (Finite 2)
      (VStr "01/01/2024") (VStr "2024-01-05") sample_world
    = (Returned tt,
       with_heap sample_world (<[1%positive := o']> (w_heap sample_world)))
    ∧ get o' "startDate" = VStr "01/01/2024"
    ∧ get o' "endDate" = VStr "2024-01-05"
    ∧ get o' "maxRequestsPerCrawl" = VNum NaN
    ∧ get o' "maxRequestDepth" = VNum NaN.
Proof.
  apply (getDateRangeOptions_invalid_date sample_externals sample_world 1%positive
           sample_template).
  - by vm_compute.
  - reflexivity.
Defined.
(** ** The file relocator, settled *)

(** X14. When the source cannot be listed (it is not a path text, or it
    is missing, or it is a regular file), [moveFilesToDir] starts no
    rename: it logs the error of the listing and returns normally, the
    file system and the renames in flight as they were. *)
Theorem moveFilesToDir_unreadable_source (src dest : value) (w : World) :
  (∀ s, src = VStr s → node_at (w_fs w) (split_path s) ≠ Some Dir) →
  ∃ e,
    moveFilesToDir src dest w
    = (Returned tt,
       add_events w
         [ Log LInfo (PStr ("Moving files from " +:+ to_str src +:+ " to "
                            +:+ to_str dest));
           ReaddirCall src;
           Log LError (PStr ("Error moving files from " +:+ to_str src
                             +:+ " to " +:+ to_str dest));
           Log LError (PErr e) ]).
Proof.
  intros Hsrc. rewrite moveFilesToDir_spec. simpl.
  destruct (readdir_value src (w_fs w)) as [e|names] eqn:Hread; [by exists e|].
  unfold readdir_value in Hread. destruct src as [| | |s|]; try discriminate.
  unfold readdir in Hread.
  destruct (node_at (w_fs w) (split_path s)) as [[content|]|] eqn:Hat;
    try discriminate.
  by destruct (Hsrc s eq_refl).
Qed.

Lemma moveFilesToDir_unreadable_source_witness :
  ∃ e,
    moveFilesToDir (VStr "missing") (VStr "archived/raw") move_world
    = (Returned tt,
       add_events move_world
         [ Log LInfo (PStr ("Moving files from " +:+ to_str (VStr "missing") +:+ " to "
                            +:+ to_str (VStr "archived/raw")));
           ReaddirCall (VStr "missing");
           Log LError (PStr ("Error moving files from " +:+ to_str (VStr "missing")
                             +:+ " to " +:+ to_str (VStr "archived/raw")));
           Log LError (PErr e) ]).
Proof.
  apply moveFilesToDir_unreadable_source.
  intros s [= <-]. by vm_compute.
Defined.

Lemma elem_of_children (p : path) (fs : FS) (n : string) :
  n ∈ children p fs ↔ is_Some (fs !! (p ++ [n])).
Proof.
  unfold children. rewrite list_elem_of_omap. split.
  - intros ([r m] & Hin & Hr). simpl in Hr.
    destruct r as [|x [|]]; try done. injection Hr as ->.
    apply elem_of_subtree in Hin. by exists m.
  - intros [m Hm]. exists ([n], m). split; [by apply elem_of_subtree|done].
Qed.

Lemma NoDup_omap_inj {A B} (g : A → option B) (l : list A) :
  NoDup l →
  (∀ a a' b, a ∈ l → a' ∈ l → g a = Some b → g a' = Some b → a = a') →
  NoDup (omap g l).
Proof.
  induction l as [|a l IH]; intros Hnd Hinj; simpl; [constructor|].
  apply NoDup_cons in Hnd as [Hnotin Hnd].
  assert (Hrest : NoDup (omap g l)).
  { apply IH; [done|]. intros a1 a2 b H1 H2. apply Hinj; by right. }
  destruct (g a) as [b|] eqn:Hg; [|done].
  apply NoDup_cons. split; [|done].
  rewrite list_elem_of_omap. intros (a' & Hin & Hg').
  apply Hnotin. rewrite (Hinj a a' b); [done|by left|by right|done|done].
Qed.

Lemma NoDup_children (p : path) (fs : FS) : NoDup (children p fs).
Proof.
  unfold children, subtree. apply NoDup_omap_inj.
  - apply NoDup_omap_inj; [apply NoDup_map_to_list|].
    intros [k n] [k' n'] [r m] _ _ H1 H2. simpl in *.
    destruct (strip_prefix p k) as [r1|] eqn:Hk; simpl in H1; [|done].
    destruct (strip_prefix p k') as [r2|] eqn:Hk'; simpl in H2; [|done].
    injection H1 as -> ->. injection H2 as -> ->.
    apply strip_prefix_Some in Hk as ->. by apply strip_prefix_Some in Hk' as ->.
  - intros [r m] [r' m'] x Hin Hin' H1 H2. simpl in *.
    destruct r as [|y [|]]; try done. destruct r' as [|y' [|]]; try done.
    injection H1 as ->. injection H2 as ->.
    fold (subtree p fs) in Hin, Hin'.
    apply elem_of_subtree in Hin. apply elem_of_subtree in Hin'.
    rewrite Hin in Hin'. by injection Hin' as ->.
Qed.

(** A rename of a regular file into an existing directory, no directory
    of the new name in the way. *)
Lemma rename_file (old new : path) (fs : FS) (content : string) :
  node_at fs (parent new) = Some Dir →
  fs !! old = Some (File content) →
  fs !! new ≠ Some Dir →
  rename old new fs = inr (<[new := File content]> (delete old fs)).
Proof.
  intros Hparent Hold Hnew. unfold rename. rewrite Hparent, Hold.
  by destruct (fs !! new) as [[?|]|].
Qed.

Lemma snoc_ne_self (p : path) (x : string) : p ≠ p ++ [x].
Proof.
  intros Heq. apply (f_equal length) in Heq. rewrite length_app in Heq.
  simpl in Heq. lia.
Qed.

(** The event loop over the renames of a list of regular files. *)
Lemma settle_files (s d : string) (names : list string) (w : World) :
  NoDup names →
  (∀ n, n ∈ names → plain_name n) →
  split_path s ≠ split_path d →
  node_at (w_fs w) (split_path d) = Some Dir →
  (∀ n, n ∈ names →
        (∃ content, w_fs w !! (split_path s ++ [n]) = Some (File content))
        ∧ w_fs w !! (split_path d ++ [n]) ≠ Some Dir) →
  w_trace (foldl settle_one w (rename_pairs (VStr s) (VStr d) names)) = w_trace w
  ∧ (∀ n, n ∈ names →
          w_fs (foldl settle_one w (rename_pairs (VStr s) (VStr d) names))
            !! (split_path s ++ [n]) = None
          ∧ w_fs (foldl settle_one w (rename_pairs (VStr s) (VStr d) names))
              !! (split_path d ++ [n])
            = w_fs w !! (split_path s ++ [n]))
  ∧ (∀ q, (∀ n, n ∈ names → q ≠ split_path s ++ [n] ∧ q ≠ split_path d ++ [n]) →
          w_fs (foldl settle_one w (rename_pairs (VStr s) (VStr d) names)) !! q
          = w_fs w !! q).
Proof.
  set (sp := split_path s). set (dp := split_path d).
  revert w. induction names as [|n names IH]; intros w Hnd Hplain Hne Hdir Hfiles.
  { simpl. split; [done|]. split; [|done]. intros n Hn. by apply elem_of_nil in Hn. }
  apply NoDup_cons in Hnd as [Hnotin Hnd].
  destruct (Hfiles n) as [[content Hsrc] Hdst]; [by left|].
  assert (Hkeys : ∀ a b : string, sp ++ [a] ≠ dp ++ [b]).
  { intros a b Heq. apply app_inj_tail in Heq as [Heq _]. by apply Hne. }
  assert (Hone : settle_one w (s +:+ "/" +:+ n, d +:+ "/" +:+ n)
                 = with_fs w (<[dp ++ [n] := File content]> (delete (sp ++ [n]) (w_fs w)))).
  { unfold settle_one. simpl.
    rewrite !split_path_slash, (Hplain n) by by left.
    fold sp dp. rewrite (rename_file _ _ _ content); [done| |done|done].
    by rewrite parent_snoc. }
  change (rename_pairs (VStr s) (VStr d) (n :: names))
    with ((s +:+ "/" +:+ n, d +:+ "/" +:+ n) :: rename_pairs (VStr s) (VStr d) names).
  simpl foldl. rewrite Hone.
  set (w1 := with_fs w (<[dp ++ [n] := File content]> (delete (sp ++ [n]) (w_fs w)))).
  assert (Hother : ∀ q, q ≠ sp ++ [n] → q ≠ dp ++ [n] → w_fs w1 !! q = w_fs w !! q).
  { intros q H1 H2. simpl. by rewrite lookup_insert_ne, lookup_delete_ne. }
  destruct (IH w1) as (Ht & Hmoved & Hframe).
  - done.
  - intros m Hm. apply Hplain. by right.
  - done.
  - destruct dp as [|c dp'] eqn:HD; [done|]. simpl.
    rewrite lookup_insert_ne by apply not_eq_sym, (snoc_ne_self (c :: dp')).
    rewrite lookup_delete_ne.
    + exact Hdir.
    + intros Heq. simpl in Hdir. rewrite <- Heq in Hdir. congruence.
  - intros m Hm.
    assert (Hmn : m ≠ n) by (intros ->; done).
    destruct (Hfiles m) as [Hs Hd]; [by right|].
    rewrite !Hother.
    + done.
    + apply not_eq_sym, Hkeys.
    + intros Heq. by apply app_inj_tail in Heq as [_ ?].
    + intros Heq. by apply app_inj_tail in Heq as [_ ?].
    + apply Hkeys.
  - split; [exact Ht|]. split.
    + intros m Hm. apply elem_of_cons in Hm as [->|Hm].
      * rewrite !Hframe.
        -- simpl. rewrite lookup_insert_eq, lookup_insert_ne, lookup_delete_eq by apply not_eq_sym, Hkeys.
           by rewrite Hsrc.
        -- intros m Hm. split; [apply not_eq_sym, Hkeys|].
           intros Heq. apply app_inj_tail in Heq as [_ ->]. done.
        -- intros m Hm. split; [|apply Hkeys].
           intros Heq. apply app_inj_tail in Heq as [_ ->]. done.
      * destruct (Hmoved m Hm) as [H1 H2]. split; [done|].
        rewrite H2. apply Hother.
        -- intros Heq. apply app_inj_tail in Heq as [_ ->]. done.
        -- apply Hkeys.
    + intros q Hq. rewrite Hframe.
      * apply Hother; apply (Hq n); by left.
      * intros m Hm. apply Hq. by right.
Qed.
(** X15. What [moveFilesToDir] achieves once the event loop has completed
    the renames it started: when source and destination are two
    different existing directories, every entry of the source is a
    regular file of plain name and no directory of its name stands in the
    destination, then every file of the source is gone from the source
    and found in the destination under its name with its content (a file
    of that name there is replaced), no rename has failed, and nothing
    else has changed. *)
Theorem moveFilesToDir_settled_moves (s d : string) (w : World) :
  w_inflight w = [] →
  node_at (w_fs w) (split_path s) = Some Dir →
  node_at (w_fs w) (split_path d) = Some Dir →
  split_path s ≠ split_path d →
  (∀ n, is_Some (w_fs w !! (split_path s ++ [n])) →
        plain_name n
        ∧ (∃ content, w_fs w !! (split_path s ++ [n]) = Some (File content))
        ∧ w_fs w !! (split_path d ++ [n]) ≠ Some Dir) →
  (∀ n content,
     w_fs w !! (split_path s ++ [n]) = Some (File content) →
     w_fs (settle (moveFilesToDir (VStr s) (VStr d) w).2) !! (split_path s ++ [n])
     = None
     ∧ w_fs (settle (moveFilesToDir (VStr s) (VStr d) w).2) !! (split_path d ++ [n])
       = Some (File content))
  ∧ w_inflight (settle (moveFilesToDir (VStr s) (VStr d) w).2) = []
  ∧ w_trace (settle (moveFilesToDir (VStr s) (VStr d) w).2)
    = w_trace (moveFilesToDir (VStr s) (VStr d) w).2
  ∧ (∀ q, (∀ n, q ≠ split_path s ++ [n] ∧ q ≠ split_path d ++ [n]) →
          w_fs (settle (moveFilesToDir (VStr s) (VStr d) w).2) !! q = w_fs w !! q).
Proof.
  intros Hidle Hsrc Hdst Hne Hfiles.
  assert (Hread : readdir_value (VStr s) (w_fs w)
                  = inr (children (split_path s) (w_fs w))).
  { unfold readdir_value, readdir. by rewrite Hsrc. }
  rewrite moveFilesToDir_spec, Hread, Hidle. simpl. unfold settle. simpl.
  set (names := children (split_path s) (w_fs w)).
  set (started :=
         mkWorld (w_fs w) (w_heap w) (w_now w) (rename_pairs (VStr s) (VStr d) names)
           (w_trace w
            ++ Log LInfo (PStr ("Moving files from " +:+ s +:+ " to " +:+ d))
            :: ReaddirCall (VStr s) :: rename_calls (VStr s) (VStr d) names)).
  destruct (settle_files s d names started) as (Ht & Hmoved & Hframe).
  - apply NoDup_children.
  - intros n Hn. apply elem_of_children in Hn. by destruct (Hfiles n Hn).
  - done.
  - done.
  - intros n Hn. apply elem_of_children in Hn.
    destruct (Hfiles n Hn) as (_ & H1 & H2). by split.
  - split; [|split; [done|split; [exact Ht|]]].
    + intros n content Hn.
      assert (Hin : n ∈ names) by (apply elem_of_children; by eexists).
      destruct (Hmoved n Hin) as [H1 H2]. split; [exact H1|].
      rewrite H2. exact Hn.
    + intros q Hq. apply Hframe. intros n _. apply Hq.
Qed.

Lemma moveFilesToDir_settled_moves_witness :
  w_fs (settle (moveFilesToDir (VStr "raw") (VStr "archived/raw") move_world).2)
    !! (split_path "raw" ++ ["data.json"]) = None
  ∧ w_fs (settle (moveFilesToDir (VStr "raw") (VStr "archived/raw") move_world).2)
      !! (split_path "archived/raw" ++ ["data.json"]) = Some (File "x").
Proof.
  destruct (moveFilesToDir_settled_moves "raw" "archived/raw" move_world) as [H _].
  - reflexivity.
  - by vm_compute.
  - by vm_compute.
  - by vm_compute.
  - intros n [m Hm].
    assert (Hn : n ∈ children (split_path "raw") (w_fs move_world)).
    { apply elem_of_children. by exists m. }
    vm_compute in Hn. apply list_elem_of_singleton in Hn as ->.
    split; [by vm_compute|]. split; [|by vm_compute].
    exists "x". by vm_compute.
  - apply (H "data.json" "x"). by vm_compute.
Defined.

(** ** The directory provisioner: what it keeps and what it makes *)

Lemma mkdirp_go_ancestors (pre rest : path) (fs fs' : FS) (k : nat) :
  mkdirp_go pre rest fs = inr fs' → (k < length rest)%nat →
  fs' !! (pre ++ take (S k) rest) = Some Dir.
Proof.
  revert pre fs k. induction rest as [|c rest IH]; intros pre fs k H Hk;
    [simpl in Hk; lia|].
  simpl in H.
  assert (Hstep : ∃ fs1 : FS, mkdirp_go (pre ++ [c]) rest fs1 = inr fs'
                      ∧ fs1 !! (pre ++ [c]) = Some Dir).
  { destruct (fs !! (pre ++ [c])) as [[content|]|] eqn:Hp.
    - discriminate.
    - by exists fs.
    - exists (<[pre ++ [c] := Dir]> fs). split; [done|]. apply lookup_insert_eq. }
  destruct Hstep as (fs1 & Hrun & Hdir).
  destruct k as [|k].
  - simpl. rewrite take_0. by apply (mkdirp_go_preserves _ _ _ _ _ _ Hrun).
  - simpl. rewrite (cons_middle c pre), app_assoc.
    apply (IH _ _ _ Hrun). simpl in Hk. lia.
Qed.

(** X16. [makeDir] never removes or replaces an entry: whatever was in
    the file system is still there, with the same content, whether the
    directory could be made or not.  When it could (no regular file at
    the path or above it), the directory and every directory above it
    exist afterwards. *)
Theorem makeDir_keeps_and_makes (dir : value) (w : World) :
  (∀ q n, w_fs w !! q = Some n → w_fs (makeDir dir w).2 !! q = Some n)
  ∧ (∀ s k,
       dir = VStr s →
       (∀ n content, w_fs w !! take (S n) (split_path s) ≠ Some (File content)) →
       (k < length (split_path s))%nat →
       w_fs (makeDir dir w).2 !! take (S k) (split_path s) = Some Dir).
Proof.
  rewrite makeDir_spec. simpl. split.
  - intros q n Hq. unfold mkdirp_value.
    destruct dir as [| | |s|]; simpl; try done.
    destruct (mkdirp (split_path s) (w_fs w)) as [e|fs'] eqn:Hmk; simpl; [done|].
    by apply (mkdirp_go_preserves _ _ _ _ _ _ Hmk).
  - intros s k -> Hclear Hk. unfold mkdirp_value.
    destruct (mkdirp_go_clear [] (split_path s) (w_fs w) Hclear) as [fs' Hmk].
    unfold mkdirp. rewrite Hmk. simpl.
    by apply (mkdirp_go_ancestors [] _ _ _ _ Hmk).
Qed.

Lemma makeDir_keeps_and_makes_witness :
  w_fs (makeDir (VStr "archived/2024/03/07") sample_world).2 !! ["archived"; "2024"]
  = Some Dir
  ∧ w_fs (makeDir (VStr "archived/2024/03/07") sample_world).2 !! ["dl"; "a"]
    = Some (File "a1").
Proof.
  destruct (makeDir_keeps_and_makes (VStr "archived/2024/03/07") sample_world)
    as [Hkeep Hmake].
  split.
  - apply (Hmake "archived/2024/03/07" 1%nat eq_refl).
    + intros n content. destruct n as [|[|[|[|n]]]]; by vm_compute.
    + vm_compute. lia.
  - apply Hkeep. by vm_compute.
Defined.

(** ** The archive stage: root and overrides *)

Lemma js_or_truthy a b : truthy a = true → js_or a b = a.
Proof. unfold js_or. by intros ->. Qed.

(** X17. An archive root that is missing or empty counts as the text
    [archived]: the run is the same as with [ARCHIVED_DIR = 'archived']. *)
Theorem archive_default_root (E : Externals) (options : obj) (w : World) :
  truthy (get options "ARCHIVED_DIR") = false →
  archive E options w
  = archive E (<["ARCHIVED_DIR" := VStr "archived"]> options) w.
Proof.
  intros Hroot. unfold archive, datedArchivedDir.
  rewrite get_insert_eq.
  rewrite !(get_insert_ne _ "ARCHIVED_DIR") by done.
  by rewrite js_or_falsy.
Qed.

Lemma archive_default_root_witness :
  archive sample_externals (delete "ARCHIVED_DIR" archive_options) sample_world
  = archive sample_externals
      (<["ARCHIVED_DIR" := VStr "archived"]> (delete "ARCHIVED_DIR" archive_options))
      sample_world.
Proof. apply archive_default_root. by vm_compute. Defined.

(** X18. An override that is set replaces the dated subdirectory as the
    target: the renames go to [ARCHIVED_RAW_DATA_DIR] and
    [ARCHIVED_NORMALIZED_DATA_DIR] and the copy to
    [ARCHIVED_DOWNLOAD_DIR]; the dated directory is made all the same,
    before them. *)
Theorem archive_overrides (E : Externals) (options : obj) (w : World) :
  truthy (get options "ARCHIVED_RAW_DATA_DIR") = true →
  truthy (get options "ARCHIVED_NORMALIZED_DATA_DIR") = true →
  truthy (get options "ARCHIVED_DOWNLOAD_DIR") = true →
  ∃ raw_files norm_files moves w',
    performs (archive E options) w
      ([ MkdirpCall (VStr (datedArchivedDir options (w_now w)));
         MkdirpCall (get options "ARCHIVED_RAW_DATA_DIR");
         MkdirpCall (get options "ARCHIVED_NORMALIZED_DATA_DIR") ]
       ++ moves
       ++ (if truthy (get options "SKIP_ARCHIVE_DOWNLOAD") then []
           else [ MkdirpCall (get options "ARCHIVED_DOWNLOAD_DIR");
                  CopyCall (get options "DOWNLOAD_DIR")
                    (get options "ARCHIVED_DOWNLOAD_DIR") ])) w'
    ∧ moves
      ≡ₚ [ ReaddirCall (get options "RAW_DATA_DIR");
           ReaddirCall (get options "NORMALIZED_DATA_DIR") ]
         ++ rename_calls (get options "RAW_DATA_DIR")
              (get options "ARCHIVED_RAW_DATA_DIR") raw_files
         ++ rename_calls (get options "NORMALIZED_DATA_DIR")
              (get options "ARCHIVED_NORMALIZED_DATA_DIR") norm_files.
Proof.
  intros Hraw Hnorm Hdl.
  destruct (archive_run E options w) as (rf & nf & w' & Hrun & _ & _).
  unfold archive_calls, archivedRawDataDir, archivedNormalizedDataDir,
    archivedDownloadDir in Hrun.
  rewrite !js_or_truthy in Hrun by done.
  exists rf, nf.
  exists ([ ReaddirCall (get options "RAW_DATA_DIR");
            ReaddirCall (get options "NORMALIZED_DATA_DIR") ]
          ++ rename_calls (get options "RAW_DATA_DIR")
               (get options "ARCHIVED_RAW_DATA_DIR") rf
          ++ rename_calls (get options "NORMALIZED_DATA_DIR")
               (get options "ARCHIVED_NORMALIZED_DATA_DIR") nf).
  exists w'. split.
  - simpl. simpl in Hrun. by rewrite <- app_assoc.
  - done.
Qed.

Lemma archive_overrides_witness :
  ∃ raw_files norm_files moves w',
    performs (archive sample_externals override_options) sample_world
      ([ MkdirpCall (VStr (datedArchivedDir override_options (w_now sample_world)));
         MkdirpCall (get override_options "ARCHIVED_RAW_DATA_DIR");
         MkdirpCall (get override_options "ARCHIVED_NORMALIZED_DATA_DIR") ]
       ++ moves
       ++ (if truthy (get override_options "SKIP_ARCHIVE_DOWNLOAD") then []
           else [ MkdirpCall (get override_options "ARCHIVED_DOWNLOAD_DIR");
                  CopyCall (get override_options "DOWNLOAD_DIR")
                    (get override_options "ARCHIVED_DOWNLOAD_DIR") ])) w'
    ∧ moves
      ≡ₚ [ ReaddirCall (get override_options "RAW_DATA_DIR");
           ReaddirCall (get override_options "NORMALIZED_DATA_DIR") ]
         ++ rename_calls (get override_options "RAW_DATA_DIR")
              (get override_options "ARCHIVED_RAW_DATA_DIR") raw_files
         ++ rename_calls (get override_options "NORMALIZED_DATA_DIR")
              (get override_options "ARCHIVED_NORMALIZED_DATA_DIR") norm_files.
Proof.
  apply (archive_overrides sample_externals override_options sample_world);
    by vm_compute.
Defined.
(** ** The template across runs *)

Lemma scrape_overlay_keeps (E : Externals) (today : Date) (options o : obj)
    (k : string) (v : value) :
  k ∉ schedule_keys →
  get o k = v →
  (truthy (get options "DRY_RUN") = true → k ≠ "isTestRun" ∧ k ≠ "logLevel") →
  get (scrape_overlay E today options o) k = v.
Proof.
  intros Hk Hv Hdry.
  assert (H1 : get (if truthy (get options "DRY_RUN") then dry_run_overlay o else o) k = v).
  { destruct (truthy (get options "DRY_RUN")); [|done].
    destruct Hdry as [? ?]; [done|].
    unfold dry_run_overlay. by rewrite !get_insert_ne. }
  unfold scrape_overlay.
  destruct (truthy (get options "DAILY")).
  - unfold daily_overlay.
    rewrite !get_insert_ne;
      [done | apply not_schedule_key; [apply (bool_decide_unpack _); by vm_compute | done]..].
  - destruct (truthy (get options "START_DATE") && truthy (get options "END_DATE"));
      [|done].
    unfold range_overlay.
    rewrite !get_insert_ne;
      [done | apply not_schedule_key; [apply (bool_decide_unpack _); by vm_compute | done]..].
Qed.

(** X19. What a dry run wrote stays in the template: a later [scrape] on
    the same [config], dry run or not, whatever its options, submits a
    body that still carries [isTestRun = true] and [logLevel = 5]. *)
Theorem scrape_dry_run_sticks
    (E : Externals) (first later config : obj) (w : World) (l : loc) (o : obj) :
  get config "INPUT" = VRef l →
  w_heap w !! l = Some o →
  truthy (get first "DRY_RUN") = true →
  ∃ o2 : obj,
    last (w_trace (scrape E later config (scrape E first config w).2).2)
    = Some (PostCall (get later "RUN_TASK_ENDPOINT") (VRef l) (Some o2))
    ∧ get o2 "isTestRun" = VBool true
    ∧ get o2 "logLevel" = VNum (Finite 5).
Proof.
  intros Hin Hl Hdry.
  rewrite (scrape_ref E first config w l o Hin Hl). simpl.
  set (o1 := scrape_overlay E (w_now w) first o).
  set (w1 := add_events (with_heap w (<[l := o1]> (w_heap w)))
               (scrape_events first l o o1)).
  assert (Hl1 : w_heap w1 !! l = Some o1) by apply lookup_insert_eq.
  rewrite (scrape_ref E later config w1 l o1 Hin Hl1). simpl.
  exists (scrape_overlay E (w_now w) later o1). split.
  { unfold scrape_events. by rewrite !last_app. }
  destruct (get_scrape_overlay_dry_run E (w_now w) first o Hdry) as [H1 H2].
  destruct (truthy (get later "DRY_RUN")) eqn:Hlater.
  - by apply get_scrape_overlay_dry_run.
  - split; apply scrape_overlay_keeps; try done;
      try (intros Hin'; apply (bool_decide_pack _) in Hin'; by vm_compute in Hin');
      by rewrite Hlater.
Qed.

Lemma scrape_dry_run_sticks_witness :
  ∃ o2 : obj,
    last (w_trace (scrape sample_externals unscheduled_options sample_config
                     (scrape sample_externals ambiguous_options sample_config
                        sample_world).2).2)
    = Some (PostCall (get unscheduled_options "RUN_TASK_ENDPOINT")
              (VRef 1%positive) (Some o2))
    ∧ get o2 "isTestRun" = VBool true
    ∧ get o2 "logLevel" = VNum (Finite 5).
Proof.
  apply (scrape_dry_run_sticks sample_externals ambiguous_options unscheduled_options
           sample_config sample_world 1%positive sample_template); by vm_compute.
Defined.

(** X20. A schedule written by an earlier [scrape] stays too: a later
    [scrape] that selects no mode submits the four schedule properties as
    the earlier one left them. *)
Theorem scrape_stale_schedule
    (E : Externals) (first later config : obj) (w : World) (l : loc) (o : obj) :
  get config "INPUT" = VRef l →
  w_heap w !! l = Some o →
  misconfigured later = true →
  ∃ o1 o2 : obj,
    w_heap (scrape E first config w).2 !! l = Some o1
    ∧ last (w_trace (scrape E later config (scrape E first config w).2).2)
      = Some (PostCall (get later "RUN_TASK_ENDPOINT") (VRef l) (Some o2))
    ∧ (∀ k, k ∈ schedule_keys → get o2 k = get o1 k).
Proof.
  intros Hin Hl Hm.
  rewrite (scrape_ref E first config w l o Hin Hl). simpl.
  set (o1 := scrape_overlay E (w_now w) first o).
  set (w1 := add_events (with_heap w (<[l := o1]> (w_heap w)))
               (scrape_events first l o o1)).
  assert (Hl1 : w_heap w1 !! l = Some o1) by apply lookup_insert_eq.
  rewrite (scrape_ref E later config w1 l o1 Hin Hl1). simpl.
  exists o1, (scrape_overlay E (w_now w) later o1).
  split; [apply lookup_insert_eq|]. split.
  { unfold scrape_events. by rewrite !last_app. }
  intros k Hk. rewrite scrape_overlay_misconfigured by done.
  destruct (truthy (get later "DRY_RUN")); [|done].
  unfold dry_run_overlay. unfold schedule_keys in Hk.
  rewrite !elem_of_cons, elem_of_nil in Hk.
  destruct Hk as [->|[->|[->|[->|[]]]]]; by rewrite !get_insert_ne.
Qed.

Lemma scrape_stale_schedule_witness :
  ∃ o1 o2 : obj,
    w_heap (scrape sample_externals ambiguous_options sample_config sample_world).2
      !! 1%positive = Some o1
    ∧ last (w_trace (scrape sample_externals unscheduled_options sample_config
                       (scrape sample_externals ambiguous_options sample_config
                          sample_world).2).2)
      = Some (PostCall (get unscheduled_options "RUN_TASK_ENDPOINT")
                (VRef 1%positive) (Some o2))
    ∧ (∀ k, k ∈ schedule_keys → get o2 k = get o1 k).
Proof.
  apply (scrape_stale_schedule sample_externals ambiguous_options unscheduled_options
           sample_config sample_world 1%positive sample_template); by vm_compute.
Defined.

(** X21. The flags are read for truth, not for meaning: any text that is
    not empty, ["false"] included, sets the daily flag, and [scrape] then
    runs in daily mode. *)
Theorem scrape_daily_flag_text
    (E : Externals) (options config : obj) (w : World) (l : loc) (o : obj)
    (flag : string) :
  get config "INPUT" = VRef l →
  w_heap w !! l = Some o →
  get options "DAILY" = VStr flag →
  flag ≠ "" →
  ∃ o' : obj,
    w_heap (scrape E options config w).2 !! l = Some o'
    ∧ get o' "startDate" = VStr (MMDDYYYY (w_now w))
    ∧ get o' "endDate" = VStr (MMDDYYYY (w_now w))
    ∧ get o' "maxRequestsPerCrawl" = VNum (parseInt (get options "REQUESTS_PER_DAY"))
    ∧ get o' "maxRequestDepth" = VNum (parseInt (get options "REQUEST_DEPTHS_PER_DAY")).
Proof.
  intros Hin Hl Hflag Hne.
  assert (Hd : truthy (get options "DAILY") = true).
  { rewrite Hflag. simpl. apply negb_true_iff. by apply String.eqb_neq. }
  rewrite (scrape_ref E options config w l o Hin Hl). simpl.
  eexists. split; [apply lookup_insert_eq|].
  rewrite scrape_overlay_daily by done. apply get_daily_overlay.
Qed.

Lemma scrape_daily_flag_text_witness :
  ∃ o' : obj,
    w_heap (scrape sample_externals (<["DAILY" := VStr "false"]> unscheduled_options)
              sample_config sample_world).2 !! 1%positive = Some o'
    ∧ get o' "startDate" = VStr (MMDDYYYY (w_now sample_world))
    ∧ get o' "endDate" = VStr (MMDDYYYY (w_now sample_world))
    ∧ get o' "maxRequestsPerCrawl"
      = VNum (parseInt (get (<["DAILY" := VStr "false"]> unscheduled_options)
                          "REQUESTS_PER_DAY"))
    ∧ get o' "maxRequestDepth"
      = VNum (parseInt (get (<["DAILY" := VStr "false"]> unscheduled_options)
                          "REQUEST_DEPTHS_PER_DAY")).
Proof.
  apply (scrape_daily_flag_text sample_externals
           (<["DAILY" := VStr "false"]> unscheduled_options) sample_config
           sample_world 1%positive sample_template "false"); by vm_compute.
Defined.

(** ** The archive stage, end to end *)

Lemma mkdirp_go_no_new_file (pre rest : path) (fs fs' : FS) (q : path) (c : string) :
  mkdirp_go pre rest fs = inr fs' → fs' !! q = Some (File c) → fs !! q = Some (File c).
Proof.
  revert pre fs. induction rest as [|x rest IH]; intros pre fs H Hq; simpl in H.
  - by injection H as <-.
  - destruct (fs !! (pre ++ [x])) as [[content|]|] eqn:Hp.
    + discriminate.
    + by eapply IH.
    + pose proof (IH _ _ H Hq) as Hq'.
      rewrite lookup_insert in Hq'. by case_decide.
Qed.

(** [mkdirp] on a path with no regular file in the way: it succeeds, the
    directory is there, what was there is kept, only the path and what
    is above it are written, and no regular file is in the way of any
    path that none was in the way of. *)
Lemma mkdirp_clear (p : path) (fs : FS) :
  p ≠ [] →
  (∀ i c, fs !! take (S i) p ≠ Some (File c)) →
  ∃ fs',
    mkdirp p fs = inr fs'
    ∧ fs' !! p = Some Dir
    ∧ (∀ q n, fs !! q = Some n → fs' !! q = Some n)
    ∧ (∀ q, (∀ r, p ≠ q ++ r) → fs' !! q = fs !! q)
    ∧ (∀ q c, fs' !! q = Some (File c) → fs !! q = Some (File c)).
Proof.
  intros Hne Hclear.
  destruct (mkdirp_go_clear [] p fs Hclear) as [fs' Hmk].
  exists fs'. split; [exact Hmk|]. split; [by apply (mkdirp_created _ _ _ Hne Hmk)|].
  split; [|split].
  - intros q n Hq. by eapply mkdirp_go_preserves.
  - intros q Hq. by apply (mkdirp_frame _ _ _ _ Hmk).
  - intros q c Hq. by eapply mkdirp_go_no_new_file.
Qed.

Lemma makeDir_clear (s : string) (w : World) (fs' : FS) :
  mkdirp (split_path s) (w_fs w) = inr fs' →
  makeDir (VStr s) w
  = (Returned tt,
     add_events (with_fs w fs')
       [Log LInfo (PStr ("Making directory " +:+ s)); MkdirpCall (VStr s)]).
Proof. intros Hmk. rewrite makeDir_spec. simpl. by rewrite Hmk. Qed.

Lemma NoDup_subtree (p : path) (fs : FS) : NoDup (subtree p fs).
Proof.
  unfold subtree. apply NoDup_omap_inj.
  - apply NoDup_map_to_list.
  - intros [k v] [k' v'] [r n] _ _ H H'. simpl in H, H'.
    destruct (strip_prefix p k) as [r1|] eqn:Hk; [|discriminate].
    destruct (strip_prefix p k') as [r2|] eqn:Hk'; [|discriminate].
    simpl in H, H'. injection H as -> ->. injection H' as -> ->.
    apply strip_prefix_Some in Hk, Hk'. by subst.
Qed.

(** Entries that find nothing at their place below the destination are
    all copied. *)
Lemma copy_entries_fresh (dst : path) (es : list (path * node)) (fs : FS) :
  NoDup es →
  (∀ r n n', (r, n) ∈ es → (r, n') ∈ es → n = n') →
  (∀ r n, (r, n) ∈ es →
          (r = [] ∧ n = Dir ∧ node_at fs dst = Some Dir)
          ∨ (r ≠ [] ∧ fs !! (dst ++ r) = None)) →
  (copy_entries dst es fs).1 = None.
Proof.
  revert fs. induction es as [|[r m] es IH]; intros fs Hnd Hfun Hfresh; [done|].
  apply NoDup_cons in Hnd as [Hnotin Hnd].
  assert (Hfun' : ∀ r n n', (r, n) ∈ es → (r, n') ∈ es → n = n').
  { intros r0 n n' H1 H2. apply (Hfun r0); by right. }
  assert (Hother : ∀ r0 n0, (r0, n0) ∈ es → r0 ≠ r).
  { intros r0 n0 Hin ->. apply Hnotin.
    by rewrite (Hfun r m n0) by (by left || by right). }
  simpl. destruct (Hfresh r m) as [(-> & -> & Hdst)|(Hr & Hnone)]; [by left| |].
  - rewrite app_nil_r, Hdst. apply IH; [done|done|].
    intros r0 n0 Hin. apply Hfresh. by right.
  - assert (Hat : node_at fs (dst ++ r) = None).
    { destruct (dst ++ r) eqn:Hk; [|done]. by apply app_eq_nil in Hk as [_ ->]. }
    assert (Hstep : ∀ v, (copy_entries dst es (<[dst ++ r := v]> fs)).1 = None).
    { intros v. apply IH; [done|done|].
      intros r0 n0 Hin. pose proof (Hother r0 n0 Hin) as Hne.
      destruct (Hfresh r0 n0) as [(-> & -> & Hdst)|(Hr0 & Hnone0)]; [by right| |].
      - left. split; [done|]. split; [done|].
        destruct dst as [|d0 dst']; [done|]. simpl in *.
        rewrite lookup_insert_ne; [done|].
        intros Heq. apply (f_equal length) in Heq. simpl in Heq.
        rewrite length_app in Heq. destruct r; [done|]. simpl in Heq. lia.
      - right. split; [done|]. rewrite lookup_insert_ne; [done|].
        intros Heq. by apply app_inv_head in Heq. }
    rewrite Hat. destruct m; apply Hstep.
Qed.

Lemma foldl_settle_one_fields (w : World) (ps : list (string * string)) :
  w_now (foldl settle_one w ps) = w_now w
  ∧ w_heap (foldl settle_one w ps) = w_heap w
  ∧ w_inflight (foldl settle_one w ps) = w_inflight w.
Proof.
  revert w. induction ps as [|p ps IH]; intros w; [done|].
  simpl. destruct (IH (settle_one w p)) as (-> & -> & ->).
  unfold settle_one. by destruct (rename _ _ _).
Qed.

Lemma rename_pairs_app src dest (l1 l2 : list string) :
  rename_pairs src dest (l1 ++ l2)
  = rename_pairs src dest l1 ++ rename_pairs src dest l2.
Proof. unfold rename_pairs. apply fmap_app. Qed.

Lemma rename_pairs_take src dest (k : nat) (l : list string) :
  take k (rename_pairs src dest l) = rename_pairs src dest (take k l).
Proof. unfold rename_pairs. by rewrite fmap_take. Qed.

Lemma rename_pairs_drop src dest (k : nat) (l : list string) :
  drop k (rename_pairs src dest l) = rename_pairs src dest (drop k l).
Proof. unfold rename_pairs. by rewrite fmap_drop. Qed.

Lemma rename_pairs_length src dest (l : list string) :
  length (rename_pairs src dest l) = length l.
Proof. unfold rename_pairs. apply length_fmap. Qed.

Lemma bind_assoc_at {A B C} (m : M A) (k : A → M B) (l : B → M C) (w : World) :
  bind (bind m k) l w = bind m (λ a, bind (k a) l) w.
Proof. unfold bind. by destruct (m w) as [[a|e] w']. Qed.

Lemma bind_cong_at {A B} (m : M A) (k k' : A → M B) (w : World) :
  (∀ a w', k a w' = k' a w') → bind m k w = bind m k' w.
Proof. intros H. unfold bind. destruct (m w) as [[a|e] w']; [apply H|done]. Qed.

(** [archive] is its two parts, one after the other. *)
Lemma archive_in_two (E : Externals) (options : obj) (w : World) :
  archive E options w
  = (archive_moves options (w_now w) ;; archive_download E options (w_now w)) w.
Proof.
  unfold archive. erewrite (bind_returned new_Date) by reflexivity.
  unfold archive_moves.
  symmetry. rewrite bind_assoc_at. apply bind_cong_at. intros _ w1.
  rewrite bind_assoc_at. apply bind_cong_at. intros _ w2.
  rewrite bind_assoc_at. apply bind_cong_at. intros _ w3.
  rewrite bind_assoc_at. apply bind_cong_at. intros _ w4.
  rewrite bind_assoc_at. apply bind_cong_at. intros _ w5.
  rewrite bind_assoc_at. apply bind_cong_at. intros _ w6.
  reflexivity.
Qed.

Lemma archive_moves_returns (options : obj) (date : Date) (w : World) :
  (archive_moves options date w).1 = Returned tt.
Proof.
  unfold archive_moves.
  erewrite (bind_returned (makeDir _)) by apply makeDir_spec.
  erewrite (bind_returned (makeDir _)) by apply makeDir_spec.
  erewrite (bind_returned (makeDir _)) by apply makeDir_spec.
  erewrite (bind_returned (moveFilesToDir_issue _ _))
    by apply moveFilesToDir_issue_spec.
  erewrite (bind_returned (moveFilesToDir_issue _ _))
    by apply moveFilesToDir_issue_spec.
  erewrite (bind_returned (moveFilesToDir_resume _ _))
    by apply moveFilesToDir_resume_spec.
  by rewrite moveFilesToDir_resume_spec.
Qed.

Lemma archive_then_download (E : Externals) (options : obj) (w : World) :
  archive E options w
  = archive_download E options (w_now w) (archive_moves options (w_now w) w).2.
Proof.
  rewrite archive_in_two.
  pose proof (archive_moves_returns options (w_now w) w) as H.
  destruct (archive_moves options (w_now w) w) as [o wm] eqn:Hm. simpl in H. subst o.
  by erewrite bind_returned by exact Hm.
Qed.

Lemma complete_0 (w : World) : complete 0 w = w.
Proof. by destruct w. Qed.

(** No rename completing before the download step: the run is [archive]
    followed by [settle]. *)
Lemma archive_completing_0 (E : Externals) (options : obj) (w : World) :
  archive_completing E 0 options w = settle (archive E options w).2.
Proof. unfold archive_completing. by rewrite complete_0, archive_then_download. Qed.

Lemma dated_raw_snoc_ne (n : string) (q : path) :
  outside_archive q → q ≠ dated_raw ++ [n].
Proof. intros Hq ->. simpl in Hq. done. Qed.

Lemma dated_normalized_snoc_ne (n : string) (q : path) :
  outside_archive q → q ≠ dated_normalized ++ [n].
Proof. intros Hq ->. simpl in Hq. done. Qed.

Section Day.

Variables (junk : string → bool) (fs : FS).
Variables (cr cn cl : string) (R' N' L' : path).
Hypothesis Hcr : cr ≠ "archived".
Hypothesis Hcn : cn ≠ "archived".
Hypothesis Hcl : cl ≠ "archived".
Hypothesis HRN : cr :: R' ≠ cn :: N'.
Hypothesis HLR : apart (cl :: L') (cr :: R').
Hypothesis HLN : apart (cl :: L') (cn :: N').

Ltac path_ne :=
  let H := fresh "Hne" in
  intros H; unfold dated, dated_raw, dated_normalized, dated_download in H;
  first
    [ by (simpl in H; congruence)
    | by (apply app_inj_tail in H as [? ?]; congruence)
    | by (apply (f_equal length) in H; rewrite ?length_app, ?length_take in H;
          simpl in H; lia) ].

Lemma source_ne_raw (t : path) (n : string) : (cl :: L') ++ t ≠ (cr :: R') ++ [n].
Proof.
  pose proof (apart_below _ _ t HLR) as H.
  rewrite strip_prefix_None in H. apply H.
Qed.

Lemma source_ne_normalized (t : path) (n : string) :
  (cl :: L') ++ t ≠ (cn :: N') ++ [n].
Proof.
  pose proof (apart_below _ _ t HLN) as H.
  rewrite strip_prefix_None in H. apply H.
Qed.

Lemma take_dated_download_length (i : nat) (p : path) (n : string) :
  length p = 5%nat → take (S i) dated_download ≠ p ++ [n].
Proof.
  intros Hp Heq. apply (f_equal length) in Heq.
  rewrite length_app, length_take, Hp in Heq. simpl in Heq. lia.
Qed.

(** The renames of a batch of raw files complete. *)
Lemma raw_batch_completes (raw : string) (wx : World) (Mr Mn batch : list string)
    (cp : bool) :
  split_path raw = cr :: R' →
  archived_so_far junk fs (cr :: R') (cn :: N') (cl :: L') Mr Mn cp (w_fs wx) →
  NoDup batch →
  (∀ n, n ∈ batch →
        plain_name n ∧ (n ∉ Mr)
        ∧ (∃ c, fs !! ((cr :: R') ++ [n]) = Some (File c))) →
  w_trace (foldl settle_one wx
             (rename_pairs (VStr raw) (VStr "archived/2024/03/07/raw") batch))
  = w_trace wx
  ∧ archived_so_far junk fs (cr :: R') (cn :: N') (cl :: L') (batch ++ Mr) Mn cp
      (w_fs (foldl settle_one wx
               (rename_pairs (VStr raw) (VStr "archived/2024/03/07/raw") batch))).
Proof.
  intros Hraw [Ir In Id Ic Is Idl If] Hnd Hbatch.
  destruct (settle_files raw "archived/2024/03/07/raw" batch wx)
    as (Htr & Hmoved & Hframe).
  - done.
  - intros n Hn. by destruct (Hbatch n Hn).
  - rewrite Hraw, split_path_dated_raw. path_ne.
  - rewrite split_path_dated_raw. apply Id.
  - intros n Hn. destruct (Hbatch n Hn) as (_ & Hnot & c & Hc).
    rewrite Hraw, split_path_dated_raw.
    destruct (Ir n c Hc) as [_ H]. destruct (H Hnot) as [H1 H2].
    split; [by exists c|exact H2].
  - rewrite Hraw, split_path_dated_raw in Hmoved, Hframe.
    fold dated_raw in Hmoved, Hframe.
    split; [exact Htr|].
    set (fx' := w_fs (foldl settle_one wx
                        (rename_pairs (VStr raw) (VStr "archived/2024/03/07/raw") batch)))
      in *.
    assert (Hother : ∀ q,
              (∀ n, q ≠ (cr :: R') ++ [n]) → (∀ n, q ≠ dated_raw ++ [n]) →
              fx' !! q = w_fs wx !! q).
    { intros q H1 H2. apply Hframe. intros n _. split; [apply H1|apply H2]. }
    split.
    + intros n c Hc. destruct (Ir n c Hc) as [Hin Hout].
      destruct (decide (n ∈ batch)) as [Hb|Hb].
      * destruct (Hbatch n Hb) as (_ & Hnot & _).
        destruct (Hout Hnot) as [H1 _]. destruct (Hmoved n Hb) as [M1 M2].
        split.
        -- intros _. split; [exact M1|]. by rewrite M2.
        -- intros Habs. destruct Habs. apply elem_of_app. by left.
      * assert (F1 : fx' !! ((cr :: R') ++ [n]) = w_fs wx !! ((cr :: R') ++ [n])).
        { apply Hframe. intros m Hm. split.
          - intros Heq. apply app_inj_tail in Heq as [_ ->]. done.
          - path_ne. }
        assert (F2 : fx' !! (dated_raw ++ [n]) = w_fs wx !! (dated_raw ++ [n])).
        { apply Hframe. intros m Hm. split.
          - path_ne.
          - intros Heq. apply app_inj_tail in Heq as [_ ->]. done. }
        rewrite F1, F2. split.
        -- intros Hin'. apply elem_of_app in Hin' as [?|Hin']; [done|]. by apply Hin.
        -- intros Hout'. apply Hout. intros ?. apply Hout', elem_of_app. by right.
    + intros n c Hc. rewrite !Hother.
      * by apply In.
      * intros m. path_ne.
      * intros m. path_ne.
      * intros m. intros Heq. apply app_inj_tail in Heq as [Heq _]. by apply HRN.
      * intros m. path_ne.
    + rewrite !Hother; [exact Id| | | | | |]; intros m; path_ne.
    + intros i c. rewrite Hother; [apply Ic| |].
      * intros m. simpl. path_ne.
      * intros m. by apply take_dated_download_length.
    + intros t. rewrite Hother; [apply Is| |].
      * intros m. apply source_ne_raw.
      * intros m. simpl. path_ne.
    + destruct cp.
      * destruct Idl as [D1 D2]. split.
        -- rewrite Hother; [exact D1| |]; intros m; path_ne.
        -- intros r Hr. rewrite Hother; [by apply D2| |]; intros m.
           ++ simpl. path_ne.
           ++ unfold dated_download, dated_raw. simpl. congruence.
      * intros t. rewrite Hother; [apply Idl| |]; intros m.
        -- simpl. path_ne.
        -- unfold dated_download, dated_raw. simpl. congruence.
    + intros q Hq H1 H2. rewrite Hother; [by apply If|done|].
      intros m. by apply dated_raw_snoc_ne.
Qed.

(** The renames of a batch of normalized files complete. *)
Lemma normalized_batch_completes (norm : string) (wx : World)
    (Mr Mn batch : list string) (cp : bool) :
  split_path norm = cn :: N' →
  archived_so_far junk fs (cr :: R') (cn :: N') (cl :: L') Mr Mn cp (w_fs wx) →
  NoDup batch →
  (∀ n, n ∈ batch →
        plain_name n ∧ (n ∉ Mn)
        ∧ (∃ c, fs !! ((cn :: N') ++ [n]) = Some (File c))) →
  w_trace (foldl settle_one wx
             (rename_pairs (VStr norm) (VStr "archived/2024/03/07/normalized") batch))
  = w_trace wx
  ∧ archived_so_far junk fs (cr :: R') (cn :: N') (cl :: L') Mr (batch ++ Mn) cp
      (w_fs (foldl settle_one wx
               (rename_pairs (VStr norm) (VStr "archived/2024/03/07/normalized")
                  batch))).
Proof.
  intros Hnorm [Ir In Id Ic Is Idl If] Hnd Hbatch.
  destruct (settle_files norm "archived/2024/03/07/normalized" batch wx)
    as (Htr & Hmoved & Hframe).
  - done.
  - intros n Hn. by destruct (Hbatch n Hn).
  - rewrite Hnorm, split_path_dated_normalized. path_ne.
  - rewrite split_path_dated_normalized. apply Id.
  - intros n Hn. destruct (Hbatch n Hn) as (_ & Hnot & c & Hc).
    rewrite Hnorm, split_path_dated_normalized.
    destruct (In n c Hc) as [_ H]. destruct (H Hnot) as [H1 H2].
    split; [by exists c|exact H2].
  - rewrite Hnorm, split_path_dated_normalized in Hmoved, Hframe.
    fold dated_normalized in Hmoved, Hframe.
    split; [exact Htr|].
    set (fx' := w_fs (foldl settle_one wx
                        (rename_pairs (VStr norm)
                           (VStr "archived/2024/03/07/normalized") batch)))
      in *.
    assert (Hother : ∀ q,
              (∀ n, q ≠ (cn :: N') ++ [n]) → (∀ n, q ≠ dated_normalized ++ [n]) →
              fx' !! q = w_fs wx !! q).
    { intros q H1 H2. apply Hframe. intros n _. split; [apply H1|apply H2]. }
    split.
    + intros n c Hc. rewrite !Hother.
      * by apply Ir.
      * intros m. path_ne.
      * intros m. path_ne.
      * intros m. intros Heq. apply app_inj_tail in Heq as [Heq _]. by apply HRN.
      * intros m. path_ne.
    + intros n c Hc. destruct (In n c Hc) as [Hin Hout].
      destruct (decide (n ∈ batch)) as [Hb|Hb].
      * destruct (Hbatch n Hb) as (_ & Hnot & _).
        destruct (Hout Hnot) as [H1 _]. destruct (Hmoved n Hb) as [M1 M2].
        split.
        -- intros _. split; [exact M1|]. by rewrite M2.
        -- intros Habs. destruct Habs. apply elem_of_app. by left.
      * assert (F1 : fx' !! ((cn :: N') ++ [n]) = w_fs wx !! ((cn :: N') ++ [n])).
        { apply Hframe. intros m Hm. split.
          - intros Heq. apply app_inj_tail in Heq as [_ ->]. done.
          - path_ne. }
        assert (F2 : fx' !! (dated_normalized ++ [n])
                     = w_fs wx !! (dated_normalized ++ [n])).
        { apply Hframe. intros m Hm. split.
          - path_ne.
          - intros Heq. apply app_inj_tail in Heq as [_ ->]. done. }
        rewrite F1, F2. split.
        -- intros Hin'. apply elem_of_app in Hin' as [?|Hin']; [done|]. by apply Hin.
        -- intros Hout'. apply Hout. intros ?. apply Hout', elem_of_app. by right.
    + rewrite !Hother; [exact Id| | | | | |]; intros m; path_ne.
    + intros i c. rewrite Hother; [apply Ic| |].
      * intros m. simpl. path_ne.
      * intros m. by apply take_dated_download_length.
    + intros t. rewrite Hother; [apply Is| |].
      * intros m. apply source_ne_normalized.
      * intros m. simpl. path_ne.
    + destruct cp.
      * destruct Idl as [D1 D2]. split.
        -- rewrite Hother; [exact D1| |]; intros m; path_ne.
        -- intros r Hr. rewrite Hother; [by apply D2| |]; intros m.
           ++ simpl. path_ne.
           ++ unfold dated_download, dated_normalized. simpl. congruence.
      * intros t. rewrite Hother; [apply Idl| |]; intros m.
        -- simpl. path_ne.
        -- unfold dated_download, dated_normalized. simpl. congruence.
    + intros q Hq H1 H2. rewrite Hother; [by apply If|done|].
      intros m. by apply dated_normalized_snoc_ne.
Qed.


Lemma outside_archive_download (q : path) :
  outside_archive q →
  strip_prefix dated_download q = None ∧ ∀ r, dated_download ≠ q ++ r.
Proof.
  destruct q as [|c q]; [done|]. simpl. intros Hc. split.
  - by rewrite decide_False.
  - intros r Heq. injection Heq as Heq _. congruence.
Qed.

(** The download step, run when it has not run yet and nothing stands
    below the download archive: the directory is made, the copy reports
    no error, and the entries of the download directory that the filters
    let through are below it. *)
Lemma download_step_runs (E : Externals) (dl : string) (wx : World)
    (Mr Mn : list string) :
  copy E = merge_copy junk →
  split_path dl = cl :: L' →
  fs !! (cl :: L') = Some Dir →
  (∀ t, t ≠ [] → fs !! (dated_download ++ t) = None) →
  archived_so_far junk fs (cr :: R') (cn :: N') (cl :: L') Mr Mn false (w_fs wx) →
  ∃ wx',
    (makeDir (VStr "archived/2024/03/07/download") ;;
     recursiveCopy E (VStr dl) (VStr "archived/2024/03/07/download")) wx
    = (Returned tt, wx')
    ∧ w_trace wx'
      = w_trace wx
        ++ [ Log LInfo (PStr "Making directory archived/2024/03/07/download");
             MkdirpCall (VStr "archived/2024/03/07/download");
             Log LInfo (PStr ("Recursively copying files from " +:+ dl
                              +:+ " to archived/2024/03/07/download"));
             CopyCall (VStr dl) (VStr "archived/2024/03/07/download") ]
    ∧ w_inflight wx' = w_inflight wx
    ∧ w_now wx' = w_now wx
    ∧ archived_so_far junk fs (cr :: R') (cn :: N') (cl :: L') Mr Mn true (w_fs wx').
Proof.
  intros HE Hdl HL Hfresh [Ir In Id Ic Is Idl If].
  destruct (mkdirp_clear dated_download (w_fs wx)) as (fx1 & Hmk & Hdir & Hkeep & Hfr & Hnofile);
    [done|exact Ic|].
  assert (HL1 : fx1 !! (cl :: L') = Some Dir).
  { apply Hkeep. specialize (Is []). rewrite app_nil_r in Is. by rewrite Is. }
  assert (Hsrc1 : ∀ r, fx1 !! ((cl :: L') ++ r) = fs !! ((cl :: L') ++ r)).
  { intros r. rewrite Hfr; [apply Is|].
    by apply (outside_archive_download ((cl :: L') ++ r)). }
  assert (Hbelow1 : ∀ r, r ≠ [] → fx1 !! (dated_download ++ r) = None).
  { intros r Hr. rewrite Hfr.
    - rewrite Idl. by apply Hfresh.
    - intros x Heq. apply (f_equal length) in Heq.
      rewrite !length_app in Heq. destruct r; [done|]. simpl in Heq. lia. }
  set (es := filter (λ e : path * node, skipped junk e.1 = false)
               (subtree (cl :: L') fx1)).
  assert (Hes : ∀ r n, (r, n) ∈ es
                       ↔ skipped junk r = false ∧ fs !! ((cl :: L') ++ r) = Some n).
  { intros r n. unfold es. rewrite list_elem_of_filter, elem_of_subtree, Hsrc1. done. }
  destruct (copy_entries dated_download es fx1) as [oe fx2] eqn:Hcp.
  assert (Hok : oe = None).
  { change oe with (oe, fx2).1. rewrite <- Hcp. apply copy_entries_fresh.
    - apply NoDup_filter, NoDup_subtree.
    - intros r n n' H1 H2. apply Hes in H1 as [_ H1]. apply Hes in H2 as [_ H2].
      congruence.
    - intros r n Hin. apply Hes in Hin as [_ Hin].
      destruct r as [|x r].
      + left. rewrite app_nil_r in Hin. split; [done|]. split; [congruence|exact Hdir].
      + right. split; [done|]. by apply Hbelow1. }
  subst oe.
  assert (Hcopy : merge_copy junk (cl :: L') dated_download fx1 = (None, fx2)).
  { unfold merge_copy. cbn [node_at]. rewrite HL1.
    by rewrite (mkdirp_idempotent _ _ _ Hmk). }
  assert (Hkeep2 : ∀ q n, w_fs wx !! q = Some n → fx2 !! q = Some n).
  { intros q n Hq. apply (copy_entries_preserves _ _ _ _ _ _ _ Hcp). by apply Hkeep. }
  assert (Hsame : ∀ q,
            strip_prefix dated_download q = None → (∀ r, dated_download ≠ q ++ r) →
            fx2 !! q = w_fs wx !! q).
  { intros q H1 H2. rewrite (copy_entries_frame _ _ _ _ _ _ Hcp) by done. by apply Hfr. }
  assert (Hout : ∀ q, outside_archive q → fx2 !! q = w_fs wx !! q).
  { intros q Hq. destruct (outside_archive_download q Hq). by apply Hsame. }
  eexists. split; [|split; [|split; [|split]]].
  - erewrite (bind_returned (makeDir _)).
    2:{ apply makeDir_clear. rewrite split_path_dated_download. exact Hmk. }
    rewrite recursiveCopy_spec. unfold copy_value. rewrite HE, Hdl.
    cbn [w_fs add_events with_fs]. rewrite split_path_dated_download.
    fold dated_download. rewrite Hcopy. cbn [fst snd]. reflexivity.
  - cbn. by rewrite <- !app_assoc.
  - done.
  - done.
  - cbn [w_fs add_events with_fs]. split.
    + intros n c Hc. destruct (Ir n c Hc) as [Hin Hnot].
      rewrite Hout by done. rewrite Hsame.
      * done.
      * done.
      * intros r. unfold dated_download, dated_raw, dated_normalized. simpl. congruence.
    + intros n c Hc. destruct (In n c Hc) as [Hin Hnot].
      rewrite Hout by done. rewrite Hsame.
      * done.
      * done.
      * intros r. unfold dated_download, dated_raw, dated_normalized. simpl. congruence.
    + destruct Id as (D1 & D2 & D3). by rewrite !(Hkeep2 _ Dir).
    + intros i c Hfile.
      destruct i as [|[|[|[|i]]]].
      * rewrite (copy_entries_frame _ _ _ _ _ _ Hcp) in Hfile by done.
        apply Hnofile in Hfile. by apply (Ic 0%nat c).
      * rewrite (copy_entries_frame _ _ _ _ _ _ Hcp) in Hfile by done.
        apply Hnofile in Hfile. by apply (Ic 1%nat c).
      * rewrite (copy_entries_frame _ _ _ _ _ _ Hcp) in Hfile by done.
        apply Hnofile in Hfile. by apply (Ic 2%nat c).
      * rewrite (copy_entries_frame _ _ _ _ _ _ Hcp) in Hfile by done.
        apply Hnofile in Hfile. by apply (Ic 3%nat c).
      * rewrite take_ge in Hfile by (simpl; lia).
        rewrite (copy_entries_preserves _ _ _ _ _ _ _ Hcp Hdir) in Hfile. discriminate.
    + intros t. rewrite Hout by done. apply Is.
    + split; [by apply (copy_entries_preserves _ _ _ _ _ _ _ Hcp)|].
      intros r Hr.
      destruct (skipped junk r) eqn:Hskip.
      * rewrite (copy_entries_writes _ _ _ _ _ _ Hcp); [by apply Hbelow1|].
        intros r' n' Hin Heq. apply app_inv_head in Heq. subst r'.
        apply Hes in Hin as [Hin _]. congruence.
      * destruct (fs !! ((cl :: L') ++ r)) as [n|] eqn:Hn.
        -- assert (Hin : (r, n) ∈ es) by by apply Hes.
           apply (copy_entries_copied _ _ _ _ _ _ Hcp Hin).
        -- rewrite (copy_entries_writes _ _ _ _ _ _ Hcp); [by apply Hbelow1|].
           intros r' n' Hin Heq. apply app_inv_head in Heq. subst r'.
           apply Hes in Hin as [_ Hin]. congruence.
    + intros q Hq H1 H2. rewrite Hout by done. by apply If.
Qed.


Lemma dated_dirs_clear (fx : FS) (p : path) :
  (∀ q c, q ∈ dated_dirs → fx !! q ≠ Some (File c)) →
  p ∈ [dated; dated_raw; dated_normalized; dated_download] →
  ∀ i c, fx !! take (S i) p ≠ Some (File c).
Proof.
  intros Hclear Hp i c. apply Hclear.
  rewrite !elem_of_cons in Hp.
  destruct Hp as [->|[->|[->|[->|Hp]]]]; [| | | |by apply elem_of_nil in Hp];
    destruct i as [|[|[|[|i]]]];
    try (rewrite take_ge by (simpl; lia));
    apply (bool_decide_unpack _); by vm_compute.
Qed.

(** [archive] as far as the two moves: the three directories are made,
    both directories are read, and a rename is started for every entry
    of each. *)
Lemma moves_run (options : obj) (w : World) (raw norm : string) :
  get options "ARCHIVED_DIR" = VStr "archived" →
  truthy (get options "ARCHIVED_RAW_DATA_DIR") = false →
  truthy (get options "ARCHIVED_NORMALIZED_DATA_DIR") = false →
  get options "RAW_DATA_DIR" = VStr raw →
  get options "NORMALIZED_DATA_DIR" = VStr norm →
  year (w_now w) = 2024%N → month (w_now w) = 3%N → day (w_now w) = 7%N →
  split_path raw = cr :: R' → split_path norm = cn :: N' →
  w_fs w = fs →
  fs !! (cr :: R') = Some Dir → fs !! (cn :: N') = Some Dir →
  (∀ q c, q ∈ dated_dirs → fs !! q ≠ Some (File c)) →
  (∀ n, fs !! (dated_raw ++ [n]) ≠ Some Dir) →
  (∀ n, fs !! (dated_normalized ++ [n]) ≠ Some Dir) →
  ∃ wm raws norms,
    archive_moves options (w_now w) w = (Returned tt, wm)
    ∧ w_trace wm = w_trace w ++ dated_moves_trace raw norm raws norms
    ∧ w_inflight wm
      = w_inflight w
        ++ rename_pairs (VStr raw) (VStr "archived/2024/03/07/raw") raws
        ++ rename_pairs (VStr norm) (VStr "archived/2024/03/07/normalized") norms
    ∧ w_now wm = w_now w
    ∧ NoDup raws ∧ (∀ n, n ∈ raws ↔ is_Some (fs !! ((cr :: R') ++ [n])))
    ∧ NoDup norms ∧ (∀ n, n ∈ norms ↔ is_Some (fs !! ((cn :: N') ++ [n])))
    ∧ archived_so_far junk fs (cr :: R') (cn :: N') (cl :: L') [] [] false (w_fs wm).
Proof.
  intros Hroot Hor Hon Hraw Hnorm Hy Hm Hd HR HN Hfs HdR HdN Hclear HtR HtN.
  pose proof (datedArchivedDir_scenario options (w_now w) Hroot Hy Hm Hd) as Hdated.
  assert (Haraw : archivedRawDataDir options (w_now w) = VStr "archived/2024/03/07/raw").
  { unfold archivedRawDataDir. by rewrite js_or_falsy, Hdated. }
  assert (Hanorm : archivedNormalizedDataDir options (w_now w)
                   = VStr "archived/2024/03/07/normalized").
  { unfold archivedNormalizedDataDir. by rewrite js_or_falsy, Hdated. }
  destruct (mkdirp_clear dated fs) as (fs1 & Hmk1 & Hd1 & Hk1 & Hf1 & Hn1); [done| |].
  { apply dated_dirs_clear; [done|]. apply (bool_decide_unpack _). by vm_compute. }
  destruct (mkdirp_clear dated_raw fs1) as (fs2 & Hmk2 & Hd2 & Hk2 & Hf2 & Hn2); [done| |].
  { intros i c Hfile. apply Hn1 in Hfile. revert Hfile.
    apply dated_dirs_clear; [done|]. apply (bool_decide_unpack _). by vm_compute. }
  destruct (mkdirp_clear dated_normalized fs2)
    as (fs3 & Hmk3 & Hd3 & Hk3 & Hf3 & Hn3); [done| |].
  { intros i c Hfile. apply Hn2, Hn1 in Hfile. revert Hfile.
    apply dated_dirs_clear; [done|]. apply (bool_decide_unpack _). by vm_compute. }
  assert (Hkeep : ∀ q n, fs !! q = Some n → fs3 !! q = Some n).
  { intros q n Hq. by apply Hk3, Hk2, Hk1. }
  assert (Hnofile : ∀ q c, fs3 !! q = Some (File c) → fs !! q = Some (File c)).
  { intros q c Hq. by apply Hn1, Hn2, Hn3. }
  assert (Hframe : ∀ q,
            (∀ r, dated ≠ q ++ r) → (∀ r, dated_raw ≠ q ++ r) →
            (∀ r, dated_normalized ≠ q ++ r) → fs3 !! q = fs !! q).
  { intros q H1 H2 H3. by rewrite Hf3, Hf2, Hf1. }
  assert (Hout : ∀ q, outside_archive q → fs3 !! q = fs !! q).
  { intros [|c q]; [done|]. simpl. intros Hc.
    apply Hframe; intros r Heq; injection Heq as Heq _; congruence. }
  assert (Hlong : ∀ p t, length p = 5%nat → t ≠ [] →
            (∀ r, dated ≠ (p ++ t) ++ r) ∧ (∀ r, dated_raw ≠ (p ++ t) ++ r)
            ∧ (∀ r, dated_normalized ≠ (p ++ t) ++ r)).
  { intros p t Hp Ht. destruct t as [|x t]; [done|].
    split; [|split]; intros r Heq; apply (f_equal length) in Heq;
      rewrite !length_app, Hp in Heq; simpl in Heq; lia. }
  assert (HreadR : readdir_value (VStr raw) fs3 = inr (children (cr :: R') fs3)).
  { unfold readdir_value, readdir. rewrite HR. cbn [node_at].
    by rewrite (Hkeep _ _ HdR). }
  assert (HreadN : readdir_value (VStr norm) fs3 = inr (children (cn :: N') fs3)).
  { unfold readdir_value, readdir. rewrite HN. cbn [node_at].
    by rewrite (Hkeep _ _ HdN). }
  eexists. exists (children (cr :: R') fs3), (children (cn :: N') fs3).
  split; [|split; [|split; [|split; [|split; [|split; [|split; [|split]]]]]]].
  - unfold archive_moves. rewrite Hdated, Haraw, Hanorm, Hraw, Hnorm.
    erewrite (bind_returned (makeDir _)).
    2:{ apply makeDir_clear. rewrite split_path_dated, Hfs. exact Hmk1. }
    erewrite (bind_returned (makeDir _)).
    2:{ apply makeDir_clear. rewrite split_path_dated_raw. exact Hmk2. }
    erewrite (bind_returned (makeDir _)).
    2:{ apply makeDir_clear. rewrite split_path_dated_normalized. exact Hmk3. }
    erewrite (bind_returned (moveFilesToDir_issue _ _))
      by apply moveFilesToDir_issue_spec.
    erewrite (bind_returned (moveFilesToDir_issue _ _))
      by apply moveFilesToDir_issue_spec.
    erewrite (bind_returned (moveFilesToDir_resume _ _)).
    2:{ rewrite moveFilesToDir_resume_spec. cbn [w_fs add_events with_fs].
        rewrite HreadR. reflexivity. }
    rewrite moveFilesToDir_resume_spec. cbn [w_fs add_events with_fs].
    rewrite HreadN. reflexivity.
  - cbn. unfold dated_moves_trace. by rewrite <- !app_assoc.
  - cbn. by rewrite app_assoc.
  - done.
  - apply NoDup_children.
  - intros n. rewrite elem_of_children, Hout; done.
  - apply NoDup_children.
  - intros n. rewrite elem_of_children, Hout; done.
  - cbn [w_fs]. split.
    + intros n c Hc. split; [intros Hin; by apply elem_of_nil in Hin|].
      intros _. split; [by apply Hkeep|].
      destruct (Hlong dated_raw [n] eq_refl) as (H1 & H2 & H3); [done|].
      rewrite Hframe by done. apply HtR.
    + intros n c Hc. split; [intros Hin; by apply elem_of_nil in Hin|].
      intros _. split; [by apply Hkeep|].
      destruct (Hlong dated_normalized [n] eq_refl) as (H1 & H2 & H3); [done|].
      rewrite Hframe by done. apply HtN.
    + split; [by apply Hk3, Hk2|]. split; [by apply Hk3|done].
    + intros i c Hfile. apply Hnofile in Hfile. revert Hfile.
      apply dated_dirs_clear; [done|]. apply (bool_decide_unpack _). by vm_compute.
    + intros t. by apply Hout.
    + intros t. apply Hframe; intros r; unfold dated, dated_raw, dated_normalized,
        dated_download; simpl; intros Heq.
      * apply (f_equal length) in Heq. simpl in Heq.
        rewrite !length_app in Heq. lia.
      * congruence.
      * congruence.
    + intros q Hq _ _. by apply Hout.
Qed.


(** The renames of a batch of raw files and of a batch of normalized
    files complete. *)
Lemma batches_complete (raw norm : string) (wx : World)
    (Mr Mn b c : list string) (cp : bool) :
  split_path raw = cr :: R' → split_path norm = cn :: N' →
  archived_so_far junk fs (cr :: R') (cn :: N') (cl :: L') Mr Mn cp (w_fs wx) →
  NoDup b →
  (∀ n, n ∈ b →
        plain_name n ∧ (n ∉ Mr)
        ∧ (∃ content, fs !! ((cr :: R') ++ [n]) = Some (File content))) →
  NoDup c →
  (∀ n, n ∈ c →
        plain_name n ∧ (n ∉ Mn)
        ∧ (∃ content, fs !! ((cn :: N') ++ [n]) = Some (File content))) →
  w_trace (foldl settle_one wx
             (rename_pairs (VStr raw) (VStr "archived/2024/03/07/raw") b
              ++ rename_pairs (VStr norm) (VStr "archived/2024/03/07/normalized") c))
  = w_trace wx
  ∧ archived_so_far junk fs (cr :: R') (cn :: N') (cl :: L') (b ++ Mr) (c ++ Mn) cp
      (w_fs (foldl settle_one wx
               (rename_pairs (VStr raw) (VStr "archived/2024/03/07/raw") b
                ++ rename_pairs (VStr norm) (VStr "archived/2024/03/07/normalized")
                     c))).
Proof.
  intros HR HN Hinv Hb Hbs Hc Hcs. rewrite foldl_app.
  destruct (raw_batch_completes raw wx Mr Mn b cp HR Hinv Hb Hbs) as [T1 I1].
  destruct (normalized_batch_completes norm _ (b ++ Mr) Mn c cp HN I1 Hc Hcs)
    as [T2 I2].
  split; [by rewrite T2, T1|exact I2].
Qed.

(** The run of [archive] to its end, the renames completed by the event
    loop, [k] of them before the download step. *)
Lemma archive_completing_so_far (E : Externals) (options : obj) (w : World)
    (raw norm dl : string) (k : nat) :
  get options "ARCHIVED_DIR" = VStr "archived" →
  truthy (get options "ARCHIVED_RAW_DATA_DIR") = false →
  truthy (get options "ARCHIVED_NORMALIZED_DATA_DIR") = false →
  truthy (get options "ARCHIVED_DOWNLOAD_DIR") = false →
  get options "RAW_DATA_DIR" = VStr raw →
  get options "NORMALIZED_DATA_DIR" = VStr norm →
  get options "DOWNLOAD_DIR" = VStr dl →
  year (w_now w) = 2024%N → month (w_now w) = 3%N → day (w_now w) = 7%N →
  copy E = merge_copy junk →
  split_path raw = cr :: R' → split_path norm = cn :: N' → split_path dl = cl :: L' →
  w_fs w = fs → w_inflight w = [] →
  fs !! (cr :: R') = Some Dir → fs !! (cn :: N') = Some Dir →
  fs !! (cl :: L') = Some Dir →
  (∀ n m, fs !! ((cr :: R') ++ [n]) = Some m → plain_name n ∧ ∃ content, m = File content) →
  (∀ n m, fs !! ((cn :: N') ++ [n]) = Some m → plain_name n ∧ ∃ content, m = File content) →
  (∀ q c, q ∈ dated_dirs → fs !! q ≠ Some (File c)) →
  (∀ n, fs !! (dated_raw ++ [n]) ≠ Some Dir) →
  (∀ n, fs !! (dated_normalized ++ [n]) ≠ Some Dir) →
  (∀ t, t ≠ [] → fs !! (dated_download ++ t) = None) →
  ∃ raws norms Mr Mn,
    NoDup raws ∧ (∀ n, n ∈ raws ↔ is_Some (fs !! ((cr :: R') ++ [n])))
    ∧ NoDup norms ∧ (∀ n, n ∈ norms ↔ is_Some (fs !! ((cn :: N') ++ [n])))
    ∧ (∀ n, n ∈ raws → n ∈ Mr) ∧ (∀ n, n ∈ norms → n ∈ Mn)
    ∧ (archive E options w).1 = Returned tt
    ∧ w_trace (archive E options w).2
      = w_trace w ++ dated_moves_trace raw norm raws norms
        ++ (if truthy (get options "SKIP_ARCHIVE_DOWNLOAD") then []
            else dated_download_trace dl)
    ∧ w_trace (archive_completing E k options w) = w_trace (archive E options w).2
    ∧ w_inflight (archive_completing E k options w) = []
    ∧ archived_so_far junk fs (cr :: R') (cn :: N') (cl :: L') Mr Mn
        (negb (truthy (get options "SKIP_ARCHIVE_DOWNLOAD")))
        (w_fs (archive_completing E k options w)).
Proof.
  intros Hroot Hor Hon Hod Hraw Hnorm Hdl Hy Hm Hd HE HR HN HL Hfs Hinfl
    HdR HdN HdL HfR HfN Hclear HtR HtN Hfresh.
  destruct (moves_run options w raw norm Hroot Hor Hon Hraw Hnorm Hy Hm Hd HR HN Hfs
              HdR HdN Hclear HtR HtN)
    as (wm & raws & norms & Hrun & Htr & Hfl & Hnow & Hnd1 & Hin1 & Hnd2 & Hin2 & Hinv).
  rewrite Hinfl in Hfl. simpl in Hfl.
  pose proof (datedArchivedDir_scenario options (w_now w) Hroot Hy Hm Hd) as Hdated.
  assert (Hadl : archivedDownloadDir options (w_now w)
                 = VStr "archived/2024/03/07/download").
  { unfold archivedDownloadDir. by rewrite js_or_falsy, Hdated. }
  (* the download step, from any state in which it has not run *)
  assert (Hdown : ∀ (wx : World) (Mr Mn : list string),
            archived_so_far junk fs (cr :: R') (cn :: N') (cl :: L') Mr Mn false
              (w_fs wx) →
            ∃ wD,
              archive_download E options (w_now w) wx = (Returned tt, wD)
              ∧ w_trace wD
                = w_trace wx
                  ++ (if truthy (get options "SKIP_ARCHIVE_DOWNLOAD") then []
                      else dated_download_trace dl)
              ∧ w_inflight wD = w_inflight wx
              ∧ archived_so_far junk fs (cr :: R') (cn :: N') (cl :: L') Mr Mn
                  (negb (truthy (get options "SKIP_ARCHIVE_DOWNLOAD"))) (w_fs wD)).
  { intros wx Mr Mn Hx. unfold archive_download. rewrite Hadl, Hdl.
    destruct (truthy (get options "SKIP_ARCHIVE_DOWNLOAD")); simpl.
    - exists wx. by rewrite app_nil_r.
    - destruct (download_step_runs E dl wx Mr Mn HE HL HdL Hfresh Hx)
        as (wD & H1 & H2 & H3 & _ & H5).
      by exists wD. }
  (* the names, in the two batches *)
  assert (Hraws : ∀ n, n ∈ raws →
            plain_name n ∧ ∃ content, fs !! ((cr :: R') ++ [n]) = Some (File content)).
  { intros n Hn. apply Hin1 in Hn as [m Hm']. destruct (HfR n m Hm') as [Hp [c ->]].
    split; [done|by exists c]. }
  assert (Hnorms : ∀ n, n ∈ norms →
            plain_name n ∧ ∃ content, fs !! ((cn :: N') ++ [n]) = Some (File content)).
  { intros n Hn. apply Hin2 in Hn as [m Hm']. destruct (HfN n m Hm') as [Hp [c ->]].
    split; [done|by exists c]. }
  set (b1 := take k raws). set (b2 := drop k raws).
  set (c1 := take (k - length raws) norms). set (c2 := drop (k - length raws) norms).
  pose proof Hnd1 as Hnd1'. rewrite <- (take_drop k raws) in Hnd1'.
  apply NoDup_app in Hnd1' as (Hb1 & Hb12 & Hb2).
  pose proof Hnd2 as Hnd2'. rewrite <- (take_drop (k - length raws) norms) in Hnd2'.
  apply NoDup_app in Hnd2' as (Hc1 & Hc12 & Hc2).
  assert (Hb1in : ∀ n, n ∈ b1 → n ∈ raws).
  { intros n Hn. rewrite <- (take_drop k raws). apply elem_of_app. by left. }
  assert (Hb2in : ∀ n, n ∈ b2 → n ∈ raws).
  { intros n Hn. rewrite <- (take_drop k raws). apply elem_of_app. by right. }
  assert (Hc1in : ∀ n, n ∈ c1 → n ∈ norms).
  { intros n Hn. rewrite <- (take_drop (k - length raws) norms).
    apply elem_of_app. by left. }
  assert (Hc2in : ∀ n, n ∈ c2 → n ∈ norms).
  { intros n Hn. rewrite <- (take_drop (k - length raws) norms).
    apply elem_of_app. by right. }
  assert (Htake : take k (w_inflight wm)
                  = rename_pairs (VStr raw) (VStr "archived/2024/03/07/raw") b1
                    ++ rename_pairs (VStr norm) (VStr "archived/2024/03/07/normalized")
                         c1).
  { rewrite Hfl, firstn_app, !rename_pairs_take. by rewrite rename_pairs_length. }
  assert (Hdrop : drop k (w_inflight wm)
                  = rename_pairs (VStr raw) (VStr "archived/2024/03/07/raw") b2
                    ++ rename_pairs (VStr norm) (VStr "archived/2024/03/07/normalized")
                         c2).
  { rewrite Hfl, skipn_app, !rename_pairs_drop. by rewrite rename_pairs_length. }
  (* the first batches complete *)
  destruct (batches_complete raw norm wm [] [] b1 c1 false HR HN Hinv) as [T1 I1].
  { exact Hb1. }
  { intros n Hn. destruct (Hraws n (Hb1in n Hn)) as [Hp Hc].
    split; [done|]. split; [|done]. intros Habs. by apply elem_of_nil in Habs. }
  { exact Hc1. }
  { intros n Hn. destruct (Hnorms n (Hc1in n Hn)) as [Hp Hc].
    split; [done|]. split; [|done]. intros Habs. by apply elem_of_nil in Habs. }
  rewrite <- Htake in T1, I1.
  (* the download step *)
  destruct (Hdown (complete k wm) (b1 ++ []) (c1 ++ [])) as (wD & RD & TD & FD & ID).
  { exact I1. }
  (* the other renames complete *)
  destruct (batches_complete raw norm wD (b1 ++ []) (c1 ++ []) b2 c2
              (negb (truthy (get options "SKIP_ARCHIVE_DOWNLOAD"))) HR HN ID)
    as [T2 I2].
  { exact Hb2. }
  { intros n Hn. destruct (Hraws n (Hb2in n Hn)) as [Hp Hc].
    split; [done|]. split; [|done]. rewrite app_nil_r. intros Habs.
    by apply (Hb12 n Habs). }
  { exact Hc2. }
  { intros n Hn. destruct (Hnorms n (Hc2in n Hn)) as [Hp Hc].
    split; [done|]. split; [|done]. rewrite app_nil_r. intros Habs.
    by apply (Hc12 n Habs). }
  assert (HflD : w_inflight wD
                 = rename_pairs (VStr raw) (VStr "archived/2024/03/07/raw") b2
                   ++ rename_pairs (VStr norm) (VStr "archived/2024/03/07/normalized")
                        c2).
  { by rewrite FD. }
  rewrite <- HflD in T2, I2.
  (* [archive] itself *)
  destruct (Hdown wm [] [] Hinv) as (wA & RA & TA & FA & IA).
  assert (Harch : archive E options w = (Returned tt, wA)).
  { by rewrite archive_then_download, Hrun. }
  exists raws, norms, (b2 ++ b1 ++ []), (c2 ++ c1 ++ []).
  split; [exact Hnd1|]. split; [exact Hin1|]. split; [exact Hnd2|].
  split; [exact Hin2|]. split; [|split].
  - intros n Hn. rewrite <- (take_drop k raws) in Hn. rewrite app_nil_r.
    apply elem_of_app in Hn as [?|?]; apply elem_of_app; [by right|by left].
  - intros n Hn. rewrite <- (take_drop (k - length raws) norms) in Hn.
    rewrite app_nil_r.
    apply elem_of_app in Hn as [?|?]; apply elem_of_app; [by right|by left].
  - rewrite Harch. cbn [fst snd]. split; [done|].
    split; [by rewrite TA, Htr, <- app_assoc|].
    unfold archive_completing. rewrite Hrun. cbn [snd]. rewrite RD. cbn [snd].
    unfold settle. cbn [w_trace w_inflight w_fs].
    split; [|split; [done|exact I2]].
    rewrite T2, TD, TA. unfold complete. cbn [w_trace]. by rewrite T1.
Qed.

End Day.

Lemma calls_dated_moves_trace (raw norm : string) (raws norms : list string) :
  calls (dated_moves_trace raw norm raws norms)
  = dated_archive_dirs
    ++ [ReaddirCall (VStr raw); ReaddirCall (VStr norm)]
    ++ rename_calls (VStr raw) (VStr "archived/2024/03/07/raw") raws
    ++ rename_calls (VStr norm) (VStr "archived/2024/03/07/normalized") norms.
Proof.
  unfold dated_moves_trace. rewrite !calls_app, !calls_rename_calls. reflexivity.
Qed.

Lemma no_error_in_rename_calls src dest files (p : payload) :
  Log LError p ∉ rename_calls src dest files.
Proof.
  unfold rename_calls. intros Hin.
  apply list_elem_of_fmap in Hin as (x & Hx & _). discriminate.
Qed.

(** C8. On 7 March 2024, with the archive root [archived] and no
    directory overridden; the raw-data, the normalized-data and the
    download directory are three existing directories outside the
    archive root, the first two distinct and neither at, above or below
    the third, and hold only regular files of plain names; no regular
    file stands where a directory of the day is to be made, no directory
    where a file is to be moved to, and nothing below the download
    directory of the day; no rename is in flight; the copy behaves as
    the reference copy, whatever the list of junk names, and no entry of
    the download directory has a filtered name on its path.

    Then [archive] returns normally and logs no error.  Its calls are:
    first the directories [archived/2024/03/07], [.../raw] and
    [.../normalized] are made; then both working directories are read;
    then a rename into [.../raw] is started for every entry of the
    raw-data directory and one into [.../normalized] for every entry of
    the normalized-data directory (no order is stated among the
    renames); last, and only when the skip flag is unset,
    [.../download] is made and the download directory copied into it.

    Once the event loop has completed the renames, however many of them
    before the download step: no rename has failed; every raw file is
    gone from the raw-data directory and found under its name, with its
    content, in [.../raw], and so the normalized files in
    [.../normalized]; every entry at or below the download directory is
    as it was; with the skip flag unset, [.../download] holds at the
    same relative path every entry of the download directory, and
    nothing else; with the skip flag set, nothing is made or written at
    or below [.../download]; and outside the archive root nothing has
    changed but for the files moved.  With no rename completing before
    the download step, that run is [archive] followed by [settle]. *)
Theorem archive_dated_directories
    (E : Externals) (junk : string → bool) (options : obj) (w : World)
    (raw norm dl : string) (k : nat) :
  get options "ARCHIVED_DIR" = VStr "archived" →
  truthy (get options "ARCHIVED_RAW_DATA_DIR") = false →
  truthy (get options "ARCHIVED_NORMALIZED_DATA_DIR") = false →
  truthy (get options "ARCHIVED_DOWNLOAD_DIR") = false →
  get options "RAW_DATA_DIR" = VStr raw →
  get options "NORMALIZED_DATA_DIR" = VStr norm →
  get options "DOWNLOAD_DIR" = VStr dl →
  year (w_now w) = 2024%N → month (w_now w) = 3%N → day (w_now w) = 7%N →
  copy E = merge_copy junk →
  outside_archive (split_path raw) →
  outside_archive (split_path norm) →
  outside_archive (split_path dl) →
  split_path raw ≠ split_path norm →
  apart (split_path dl) (split_path raw) →
  apart (split_path dl) (split_path norm) →
  w_fs w !! split_path raw = Some Dir →
  w_fs w !! split_path norm = Some Dir →
  w_fs w !! split_path dl = Some Dir →
  (∀ n m, w_fs w !! (split_path raw ++ [n]) = Some m →
          plain_name n ∧ ∃ content, m = File content) →
  (∀ n m, w_fs w !! (split_path norm ++ [n]) = Some m →
          plain_name n ∧ ∃ content, m = File content) →
  (∀ q content, q ∈ dated_dirs → w_fs w !! q ≠ Some (File content)) →
  (∀ n, w_fs w !! (dated_raw ++ [n]) ≠ Some Dir) →
  (∀ n, w_fs w !! (dated_normalized ++ [n]) ≠ Some Dir) →
  (∀ t, t ≠ [] → w_fs w !! (dated_download ++ t) = None) →
  (∀ r n, w_fs w !! (split_path dl ++ r) = Some n → skipped junk r = false) →
  w_inflight w = [] →
  ∃ raw_files norm_files renames new,
    NoDup raw_files
    ∧ (∀ n, n ∈ raw_files ↔ is_Some (w_fs w !! (split_path raw ++ [n])))
    ∧ NoDup norm_files
    ∧ (∀ n, n ∈ norm_files ↔ is_Some (w_fs w !! (split_path norm ++ [n])))
    ∧ (archive E options w).1 = Returned tt
    ∧ w_trace (archive E options w).2 = w_trace w ++ new
    ∧ calls new
      = dated_archive_dirs
        ++ [ReaddirCall (VStr raw); ReaddirCall (VStr norm)]
        ++ renames
        ++ dated_archive_download options
    ∧ renames
      ≡ₚ rename_calls (VStr raw) (VStr "archived/2024/03/07/raw") raw_files
         ++ rename_calls (VStr norm) (VStr "archived/2024/03/07/normalized") norm_files
    ∧ (∀ p, Log LError p ∉ new)
    ∧ w_inflight (archive_completing E k options w) = []
    ∧ w_trace (archive_completing E k options w) = w_trace (archive E options w).2
    ∧ w_fs (archive_completing E k options w) !! dated_raw = Some Dir
    ∧ w_fs (archive_completing E k options w) !! dated_normalized = Some Dir
    ∧ (∀ n content,
         w_fs w !! (split_path raw ++ [n]) = Some (File content) →
         w_fs (archive_completing E k options w) !! (split_path raw ++ [n]) = None
         ∧ w_fs (archive_completing E k options w) !! (dated_raw ++ [n])
           = Some (File content))
    ∧ (∀ n content,
         w_fs w !! (split_path norm ++ [n]) = Some (File content) →
         w_fs (archive_completing E k options w) !! (split_path norm ++ [n]) = None
         ∧ w_fs (archive_completing E k options w) !! (dated_normalized ++ [n])
           = Some (File content))
    ∧ (∀ t,
         w_fs (archive_completing E k options w) !! (split_path dl ++ t)
         = w_fs w !! (split_path dl ++ t))
    ∧ (if truthy (get options "SKIP_ARCHIVE_DOWNLOAD")
       then ∀ t,
              w_fs (archive_completing E k options w) !! (dated_download ++ t)
              = w_fs w !! (dated_download ++ t)
       else w_fs (archive_completing E k options w) !! dated_download = Some Dir
            ∧ ∀ r, r ≠ [] →
                w_fs (archive_completing E k options w) !! (dated_download ++ r)
                = w_fs w !! (split_path dl ++ r))
    ∧ (∀ q,
         outside_archive q →
         (∀ n, q ≠ split_path raw ++ [n]) → (∀ n, q ≠ split_path norm ++ [n]) →
         w_fs (archive_completing E k options w) !! q = w_fs w !! q)
    ∧ archive_completing E 0 options w = settle (archive E options w).2.
Proof.
  intros Hroot Hor Hon Hod Hraw Hnorm Hdl Hy Hm Hd HE HoR HoN HoL HRN HLR HLN
    HdR HdN HdL HfR HfN Hclear HtR HtN Hfresh Hclean Hinfl.
  destruct (split_path raw) as [|cr R'] eqn:HR; [done|].
  destruct (split_path norm) as [|cn N'] eqn:HN; [done|].
  destruct (split_path dl) as [|cl L'] eqn:HL; [done|].
  simpl in HoR, HoN, HoL.
  destruct (archive_completing_so_far junk (w_fs w) cr cn cl R' N' L'
              HoR HoN HoL HRN HLR HLN E options w raw norm dl k
              Hroot Hor Hon Hod Hraw Hnorm Hdl Hy Hm Hd HE HR HN HL eq_refl Hinfl
              HdR HdN HdL HfR HfN Hclear HtR HtN Hfresh)
    as (raws & norms & Mr & Mn & Hnd1 & Hin1 & Hnd2 & Hin2 & HMr & HMn
        & Hret & Htr & Htr' & Hfl & [Ir In Id Ic Is Idl If]).
  exists raws, norms,
    (rename_calls (VStr raw) (VStr "archived/2024/03/07/raw") raws
     ++ rename_calls (VStr norm) (VStr "archived/2024/03/07/normalized") norms),
    (dated_moves_trace raw norm raws norms
     ++ (if truthy (get options "SKIP_ARCHIVE_DOWNLOAD") then []
         else dated_download_trace dl)).
  split; [exact Hnd1|]. split; [exact Hin1|]. split; [exact Hnd2|].
  split; [exact Hin2|]. split; [exact Hret|]. split; [exact Htr|].
  split; [|split; [done|split]].
  - rewrite calls_app, calls_dated_moves_trace. unfold dated_archive_download.
    rewrite Hdl. rewrite <- !app_assoc.
    by destruct (truthy (get options "SKIP_ARCHIVE_DOWNLOAD")).
  - intros p Hin. apply elem_of_app in Hin as [Hin|Hin].
    + unfold dated_moves_trace in Hin. rewrite !elem_of_app in Hin.
      destruct Hin as [Hin|[Hin|Hin]].
      * rewrite !elem_of_cons in Hin.
        repeat (destruct Hin as [Hin|Hin]; [discriminate|]).
        by apply elem_of_nil in Hin.
      * by apply no_error_in_rename_calls in Hin.
      * by apply no_error_in_rename_calls in Hin.
    + destruct (truthy (get options "SKIP_ARCHIVE_DOWNLOAD")).
      * by apply elem_of_nil in Hin.
      * unfold dated_download_trace in Hin. rewrite !elem_of_cons in Hin.
        repeat (destruct Hin as [Hin|Hin]; [discriminate|]).
        by apply elem_of_nil in Hin.
  - split; [exact Hfl|]. split; [exact Htr'|].
    destruct Id as (_ & D2 & D3).
    split; [exact D2|]. split; [exact D3|]. split; [|split; [|split; [|split]]].
    + intros n content Hn. destruct (Ir n content Hn) as [Hmoved _].
      apply Hmoved, HMr, Hin1. by exists (File content).
    + intros n content Hn. destruct (In n content Hn) as [Hmoved _].
      apply Hmoved, HMn, Hin2. by exists (File content).
    + exact Is.
    + destruct (truthy (get options "SKIP_ARCHIVE_DOWNLOAD")); [exact Idl|].
      destruct Idl as [D1 D4]. split; [exact D1|].
      intros r Hr. rewrite (D4 r Hr).
      destruct (skipped junk r) eqn:Hskip; [|done].
      destruct (w_fs w !! ((cl :: L') ++ r)) as [n|] eqn:Hn; [|done].
      by rewrite (Hclean r n Hn) in Hskip.
    + split; [exact If|apply archive_completing_0].
Qed.

Lemma archive_dated_directories_witness :
  w_fs (archive_completing sample_externals 1 archive_options sample_world)
    !! (dated_raw ++ ["data.json"]) = Some (File "x")
  ∧ w_fs (archive_completing sample_externals 1 archive_options sample_world)
      !! (split_path "raw" ++ ["data.json"]) = None
  ∧ w_fs (archive_completing sample_externals 1 archive_options sample_world)
      !! (dated_download ++ ["sub"; "b"]) = Some (File "b1")
  ∧ w_fs (archive_completing sample_externals 1 archive_options sample_world)
      !! (split_path "dl" ++ ["sub"; "b"]) = Some (File "b1").
Proof.
  destruct (archive_dated_directories sample_externals os_junk archive_options
              sample_world "raw" "norm" "dl" 1)
    as (rf & nf & rn & new & _ & _ & _ & _ & _ & _ & _ & _ & _ & _ & _ & _ & _
        & Hraw & _ & Hsrc & Hdl & _ & _).
  1-28: try (by vm_compute).
  - intros n m Hm.
    assert (Hn : n ∈ children (split_path "raw") (w_fs sample_world)).
    { apply elem_of_children. by exists m. }
    vm_compute in Hn. apply list_elem_of_singleton in Hn as ->.
    vm_compute in Hm. injection Hm as <-. split; [by vm_compute|by exists "x"].
  - intros n m Hm.
    assert (Hn : n ∈ children (split_path "norm") (w_fs sample_world)).
    { apply elem_of_children. by exists m. }
    vm_compute in Hn. apply list_elem_of_singleton in Hn as ->.
    vm_compute in Hm. injection Hm as <-. split; [by vm_compute|by exists "y"].
  - intros q content Hq. unfold dated_dirs in Hq. rewrite !elem_of_cons in Hq.
    repeat (destruct Hq as [->|Hq]; [by vm_compute|]).
    by apply elem_of_nil in Hq.
  - intros n Hn.
    assert (Hin : n ∈ children dated_raw (w_fs sample_world)).
    { apply elem_of_children. by exists Dir. }
    vm_compute in Hin. by apply elem_of_nil in Hin.
  - intros n Hn.
    assert (Hin : n ∈ children dated_normalized (w_fs sample_world)).
    { apply elem_of_children. by exists Dir. }
    vm_compute in Hin. by apply elem_of_nil in Hin.
  - intros t Ht.
    destruct (w_fs sample_world !! (dated_download ++ t)) as [m|] eqn:Hm; [|done].
    apply elem_of_subtree in Hm. vm_compute in Hm. by apply elem_of_nil in Hm.
  - intros r n Hn. apply elem_of_subtree in Hn. vm_compute in Hn.
    repeat (apply elem_of_cons in Hn as [[= -> ->]|Hn]; [by vm_compute|]).
    by apply elem_of_nil in Hn.
  - split; [|split; [|split]].
    + apply (Hraw "data.json" "x"). by vm_compute.
    + apply (Hraw "data.json" "x"). by vm_compute.
    + destruct Hdl as [_ Hdl]. rewrite (Hdl ["sub"; "b"]) by done. by vm_compute.
    + rewrite (Hsrc ["sub"; "b"]). by vm_compute.
Defined.
